(** * BDS-BOT: the speech timer of [main.py]

    A shallow embedding of the duration parser ([parse_duration]), of the
    timer view ([TimerView]), of the [/time] command and of the per-timer
    background task ([timer_task]), followed by the properties of the
    timer engine that hold on them and the inputs on which the documented
    behaviour is not the behaviour of the code.

    Conventions.
    - A Python [str] is a list of code points.  The classes [\d] and
      [\s], the digits that [float] reads and the letters that
      [re.IGNORECASE] pairs are those of Unicode 14.0, the tables of
      Python 3.11.
    - A Python [float] is an IEEE 754 binary64 value, modelled by
      [spec_float] with precision 53 and maximal exponent 1024, the
      specification the standard library gives of hardware floats.  The
      number that a float stands for is a rational.
    - A [datetime] is a number of microseconds since 0001-01-01T00:00:00;
      a [timedelta] is a number of microseconds.  Every reading of the
      clock is an argument [now] of the code that reads it.
    - An exception that leaves a function is a value [Raise e]; what the
      function wrote before it raised stays written.
    - In a run, a command, a press of a button, a refresh of one message
      by [timer_update_loop] and a round of a background task each go
      in one piece, one after another, in any order.  The code gives up
      control at each [await]: what another handler can do in between
      is worked out where it matters, on [time_begin] and
      [time_finish], the two parts of [/time] around its awaits.
    - Every message that is sent arrives, and every edit but that of a
      deleted message succeeds: what Discord refuses is not
      modelled. *)

From Stdlib Require Import ZArith List Ascii String Bool Lia.
From Stdlib Require Import SpecFloat.
From Stdlib Require Import QArith Qpower Lqa.
From stdpp Require Import gmap strings list fin_maps pretty.

Local Open Scope Z_scope.

(** ** Exceptions and results *)

Inductive exn : Type :=
| OverflowError
| ValueError
| KeyError
| TypeError
| AttributeError
| NoSuchObject.   (* a call on an object that was never built: the model
                     only, no run of the program has it *)

Inductive res (A : Type) : Type :=
| Ret (a : A)
| Raise (e : exn).
Arguments Ret {A} a.
Arguments Raise {A} e.

Definition res_bind {A B : Type} (m : res A) (f : A -> res B) : res B :=
  match m with
  | Ret a => f a
  | Raise e => Raise e
  end.

#[global] Instance res_ret : MRet res := fun A a => Ret a.
#[global] Instance res_mbind : MBind res := fun A B f m => res_bind m f.

(** ** Python numbers *)

Module Py.

Definition prec : Z := 53.
Definition emax : Z := 1024.

Inductive num : Type :=
| Int (z : Z)
| Float (f : spec_float).

(** [float(z)] on a small integer, and the float nearest to any integer
    (ties to even); an integer beyond the range gives an infinity, which
    [float_of_int] turns into the [OverflowError] of Python. *)
Definition Z2SF (z : Z) : spec_float := binary_normalize prec emax z 0 false.

Definition is_finite (f : spec_float) : bool :=
  match f with
  | S754_zero _ | S754_finite _ _ _ => true
  | _ => false
  end.

Definition float_of_int (z : Z) : res spec_float :=
  let f := Z2SF z in
  if is_finite f then Ret f else Raise OverflowError.

(** The correctly rounded quotient of two integers, [b] not zero: the
    true division [a / b] of two Python ints, and the float nearest to a
    decimal numeral [a / 10^k].  The quotient and its rounding position
    are those of the division of floats, taken on mantissas of any
    size. *)
Definition int_truediv (a b : Z) : spec_float :=
  let s := xorb (a <? 0) (b <? 0) in
  match a with
  | Z0 => S754_zero s
  | _ =>
      let '(q, e, l) := SFdiv_core_binary prec emax (Z.abs a) 0 (Z.abs b) 0 in
      binary_round_aux prec emax s q e l
  end.

Definition fadd : spec_float -> spec_float -> spec_float := SFadd prec emax.
Definition fmul : spec_float -> spec_float -> spec_float := SFmul prec emax.
Definition fdiv : spec_float -> spec_float -> spec_float := SFdiv prec emax.

(** [int(f)]: truncation toward zero; an infinity raises
    [OverflowError], a NaN raises [ValueError]. *)
Definition trunc (s : bool) (m : positive) (e : Z) : Z :=
  let a := match e with
           | Zneg p => Z.pos m / 2 ^ Z.pos p
           | _ => Z.pos m * 2 ^ e
           end in
  if s then - a else a.

Definition int_of_float (f : spec_float) : res Z :=
  match f with
  | S754_zero _ => Ret 0
  | S754_finite s m e => Ret (trunc s m e)
  | S754_infinity _ => Raise OverflowError
  | S754_nan => Raise ValueError
  end.

Definition int (x : num) : res Z :=
  match x with
  | Int z => Ret z
  | Float f => int_of_float f
  end.

Definition to_float (x : num) : res spec_float :=
  match x with
  | Int z => float_of_int z
  | Float f => Ret f
  end.

(** [x + y] and [x * y]: on two ints the exact result, otherwise both
    operands are taken to floats first. *)
Definition add (x y : num) : res num :=
  match x, y with
  | Int a, Int b => Ret (Int (a + b))
  | _, _ =>
      res_bind (to_float x) (fun fx =>
      res_bind (to_float y) (fun fy => Ret (Float (fadd fx fy))))
  end.

Definition mul (x y : num) : res num :=
  match x, y with
  | Int a, Int b => Ret (Int (a * b))
  | _, _ =>
      res_bind (to_float x) (fun fx =>
      res_bind (to_float y) (fun fy => Ret (Float (fmul fx fy))))
  end.

(** [x <= z] and [x > z] for an int [z] that a float holds exactly
    (here 0 and 60): Python compares the two values exactly, and a NaN
    makes every comparison false. *)
Definition le_int (x : num) (z : Z) : bool :=
  match x with
  | Int a => a <=? z
  | Float f => SFleb f (Z2SF z)
  end.

Definition gt_int (x : num) (z : Z) : bool :=
  match x with
  | Int a => z <? a
  | Float f => SFltb (Z2SF z) f
  end.

(** [max(0, x)]: the first of the largest, so [x] only when [x > 0]. *)
Definition max0 (x : num) : num :=
  if gt_int x 0 then x else Int 0.

(** [x / d] for an int [d] other than zero. *)
Definition truediv_int (x : num) (d : Z) : res num :=
  match x with
  | Int a =>
      let q := int_truediv a d in
      if is_finite q then Ret (Float q) else Raise OverflowError
  | Float f => res_bind (float_of_int d) (fun fd => Ret (Float (fdiv f fd)))
  end.

End Py.

(** ** Characters and texts *)

(** A [str] is a list of code points.  [str] is the text of a literal,
    whose characters are all below 128; a literal stands for its text
    wherever a text is expected. *)
Definition code (c : ascii) : Z := Z.of_N (N_of_ascii c).

Definition text : Type := list Z.

Definition str (s : string) : text := map code (list_ascii_of_string s).

Coercion str : string >-> text.

(** [\d], and the digits that [float] reads: the decimal digits of
    Unicode, which come in runs of ten, from a zero to a nine.  These
    are the zeros. *)
Definition digit_zeros : list Z :=
  [48; 1632; 1776; 1984; 2406; 2534; 2662; 2790; 2918; 3046; 3174;
   3302; 3430; 3558; 3664; 3792; 3872; 4160; 4240; 6112; 6160; 6470;
   6608; 6784; 6800; 6992; 7088; 7232; 7248; 42528; 43216; 43264;
   43472; 43504; 43600; 44016; 65296; 66720; 68912; 69734; 69872;
   69942; 70096; 70384; 70736; 70864; 71248; 71360; 71472; 71904;
   72016; 72784; 73040; 73120; 92768; 92864; 93008; 120782; 120792;
   120802; 120812; 120822; 123200; 123632; 125264; 130032].

Definition digit_zero (c : Z) : option Z :=
  find (fun z => (z <=? c) && (c <=? z + 9)) digit_zeros.

Definition is_digit (c : Z) : bool :=
  match digit_zero c with
  | Some _ => true
  | None => false
  end.

Definition digit_val (c : Z) : Z :=
  match digit_zero c with
  | Some z => c - z
  | None => 0
  end.

(** [\s]: the white space of Unicode. *)
Definition is_space (c : Z) : bool :=
  ((9 <=? c) && (c <=? 13)) || ((28 <=? c) && (c <=? 32))
  || (c =? 133) || (c =? 160) || (c =? 5760)
  || ((8192 <=? c) && (c <=? 8202))
  || (c =? 8232) || (c =? 8233) || (c =? 8239) || (c =? 8287)
  || (c =? 12288).

(** The lower case of one character: the letters [A-Z] go to [a-z].
    Unicode lowers other letters too, none of them to a letter of the
    pattern or to the point; the model keeps them as they are, which
    the comparisons of the parser cannot tell apart. *)
Definition lower (c : Z) : Z :=
  if (65 <=? c) && (c <=? 90) then c + 32 else c.

(** What [re.IGNORECASE] lets a letter match beyond its two cases: for
    [s], the long s. *)
Definition also_matches (p : Z) : list Z :=
  if p =? 115 then [383] else [].

(** ** A backtracking matcher for the patterns of [re] *)

Module Re.

Inductive regex : Type :=
| Digit                          (* \d *)
| Space                          (* \s *)
| Lit (c : Z)                    (* a literal character *)
| Cat (r1 r2 : regex)
| Alt (r1 r2 : regex)            (* r1|r2 *)
| Star (r : regex)               (* r*, greedy *)
| Plus (r : regex)               (* r+, greedy *)
| Opt (r : regex)                (* r?, greedy *)
| Group (i : nat) (r : regex).   (* the i-th capturing group *)

(** The groups captured so far, the latest binding of a group first. *)
Definition captures : Type := list (nat * text).

Fixpoint group (i : nat) (c : captures) : text :=
  match c with
  | [] => []
  | (j, t) :: c' => if Nat.eqb i j then t else group i c'
  end.

Section Matcher.
Context {A : Type}.

(** What is left to match after a piece of the pattern: it gets the
    rest of the text and the captures, and fails with [None]. *)
Definition cont : Type := text -> captures -> option A.

Definition or_else (x : option A) (y : option A) : option A :=
  match x with
  | Some _ => x
  | None => y
  end.

(** A greedy loop: one more round of the body when it can, and only
    then the continuation.  A round that consumes nothing is not
    taken; the fuel is the length of the text, one per character. *)
Fixpoint loop (body : text -> captures -> cont -> option A)
    (fuel : nat) (s : text) (c : captures) (k : cont) : option A :=
  match fuel with
  | O => k s c
  | S fuel' =>
      or_else
        (body s c (fun s' c' =>
           if (length s' <? length s)%nat
           then loop body fuel' s' c' k else None))
        (k s c)
  end.

Variable ignorecase : bool.

Definition lit_matches (p a : Z) : bool :=
  if ignorecase
  then (lower p =? lower a) || existsb (Z.eqb a) (also_matches (lower p))
  else p =? a.

Definition one (p : Z -> bool) (s : text) (c : captures)
    (k : cont) : option A :=
  match s with
  | a :: s' => if p a then k s' c else None
  | [] => None
  end.

Fixpoint run (r : regex) : text -> captures -> cont -> option A :=
  match r with
  | Digit => one is_digit
  | Space => one is_space
  | Lit p => one (lit_matches p)
  | Cat r1 r2 => fun s c k => run r1 s c (fun s' c' => run r2 s' c' k)
  | Alt r1 r2 => fun s c k => or_else (run r1 s c k) (run r2 s c k)
  | Star r1 => fun s c k => loop (run r1) (length s) s c k
  | Plus r1 => fun s c k =>
      run r1 s c (fun s' c' => loop (run r1) (length s') s' c' k)
  | Opt r1 => fun s c k => or_else (run r1 s c k) (k s c)
  | Group i r1 => fun s c k =>
      run r1 s c (fun s' c' =>
        k s' ((i, take (length s - length s') s) :: c'))
  end.
End Matcher.

(** The match that starts at the head of [s], if there is one: how many
    characters it takes and what its groups hold. *)
Definition match_here (ignorecase : bool) (r : regex) (s : text)
    : option (nat * captures) :=
  run ignorecase r s [] (fun s' c => Some ((length s - length s')%nat, c)).

(** [re.findall] for a pattern with two groups, which never matches the
    empty string: the matches from left to right, none overlapping
    another, each as the pair of its groups.  [skip] counts the
    characters of the last match that are still to be passed. *)
Fixpoint findall_from (ignorecase : bool) (r : regex) (skip : nat)
    (s : text) : list (text * text) :=
  match s with
  | [] => []
  | _ :: s' =>
      match skip with
      | S n => findall_from ignorecase r n s'
      | O =>
          match match_here ignorecase r s with
          | Some (n, c) =>
              (group 1 c, group 2 c) :: findall_from ignorecase r (pred n) s'
          | None => findall_from ignorecase r O s'
          end
      end
  end.

Definition findall (ignorecase : bool) (r : regex) (s : text)
    : list (text * text) :=
  findall_from ignorecase r O s.

End Re.

(** ** The duration parser *)

(** The characters of the pattern and of the comparisons. *)
Definition point : Z := 46.
Definition letter_h : Z := 104.
Definition letter_m : Z := 109.
Definition letter_s : Z := 115.

(** [(\d*\.?\d+)\s*(h|m|s)] *)
Definition duration_re : Re.regex :=
  Re.Cat
    (Re.Group 1
       (Re.Cat (Re.Star Re.Digit)
          (Re.Cat (Re.Opt (Re.Lit point)) (Re.Plus Re.Digit))))
    (Re.Cat (Re.Star Re.Space)
       (Re.Group 2
          (Re.Alt (Re.Lit letter_h)
             (Re.Alt (Re.Lit letter_m) (Re.Lit letter_s))))).

(** [float(value)] on what the first group of the pattern can hold,
    [digits], [digits.digits] or [.digits]: the float nearest to the
    numeral.  [mant] is the numeral read without its point and [frac]
    the number of digits after the point.  Texts that are no such
    numeral get [ValueError] here; the pattern passes none. *)
Fixpoint read_decimal (mant : Z) (frac : option Z) (s : text)
    : option (Z * Z) :=
  match s with
  | [] => Some (mant, default 0 frac)
  | a :: s' =>
      if is_digit a
      then read_decimal (10 * mant + digit_val a) (Z.succ <$> frac) s'
      else if a =? point
      then match frac with
           | None => read_decimal mant (Some 0) s'
           | Some _ => None
           end
      else None
  end.

Definition has_digit (s : text) : bool := existsb is_digit s.

Definition float_of_str (s : text) : res spec_float :=
  if has_digit s
  then match read_decimal 0 None s with
       | Some (mant, frac) => Ret (Py.int_truediv mant (10 ^ frac))
       | None => Raise ValueError
       end
  else Raise ValueError.

(** One round of the loop over the matches: [unit] is a one-character
    string, compared once lowered. *)
Definition add_match (total_seconds : Py.num) (m : text * text)
    : res Py.num :=
  let '(value, unit) := m in
  res_bind (float_of_str value) (fun value =>
  let u := map lower unit in
  if decide (u = [letter_h])
  then res_bind (Py.mul (Py.Float value) (Py.Int 3600)) (Py.add total_seconds)
  else if decide (u = [letter_m])
  then res_bind (Py.mul (Py.Float value) (Py.Int 60)) (Py.add total_seconds)
  else if decide (u = [letter_s])
  then Py.add total_seconds (Py.Float value)
  else Ret total_seconds).

Fixpoint sum_matches (total_seconds : Py.num)
    (matches : list (text * text)) : res Py.num :=
  match matches with
  | [] => Ret total_seconds
  | m :: rest =>
      res_bind (add_match total_seconds m) (fun t => sum_matches t rest)
  end.

Definition parse_duration (duration_str : text) : res Z :=
  let matches := Re.findall true duration_re duration_str in
  res_bind (sum_matches (Py.Int 0) matches) Py.int.

(** ** The parser as the specification words it

    Every occurrence of a decimal number followed by a unit letter,
    from left to right; [spaces] tells whether white space may stand
    between the number and its letter. *)

Module Spec.

Fixpoint take_while {A : Type} (p : A -> bool) (s : list A) : list A :=
  match s with
  | a :: s' => if p a then a :: take_while p s' else []
  | [] => []
  end.

Fixpoint drop_while {A : Type} (p : A -> bool) (s : list A) : list A :=
  match s with
  | a :: s' => if p a then drop_while p s' else s
  | [] => []
  end.

(** The unit letters: h, m and s, in either case. *)
Definition is_unit (c : Z) : bool :=
  let l := lower c in
  (l =? letter_h) || (l =? letter_m) || (l =? letter_s).

(** A decimal number: digits, then possibly a point and at least one
    digit; or a point and at least one digit. *)
Record occurrence : Type := {
  int_part : text;
  frac_part : option text;
  unit_letter : Z
}.

Definition numeral (o : occurrence) : text :=
  int_part o ++
  match frac_part o with
  | Some d => point :: d
  | None => []
  end.

(** The number at the head of [s] and what follows it. *)
Definition whole_number (d1 r1 : text)
    : option (text * option text * text) :=
  match d1 with
  | [] => None
  | _ => Some (d1, None, r1)
  end.

Definition number_here (s : text) : option (text * option text * text) :=
  let d1 := take_while is_digit s in
  match drop_while is_digit s with
  | a :: r2 =>
      if point =? a
      then match take_while is_digit r2 with
           | [] => None
           | d2 => Some (d1, Some d2, drop_while is_digit r2)
           end
      else whole_number d1 (a :: r2)
  | [] => whole_number d1 []
  end.

(** The occurrence at the head of [s], for the letters [unit]. *)
Definition occurrence_with (unit : Z -> bool) (spaces : bool) (s : text)
    : option (occurrence * text) :=
  match number_here s with
  | Some (d1, d2, r) =>
      match (if spaces then drop_while is_space r else r) with
      | u :: rest =>
          if unit u
          then Some ({| int_part := d1; frac_part := d2; unit_letter := u |},
                     rest)
          else None
      | [] => None
      end
  | None => None
  end.

Fixpoint occurrences_with (unit : Z -> bool) (spaces : bool) (skip : nat)
    (s : text) : list occurrence :=
  match s with
  | [] => []
  | _ :: s' =>
      match skip with
      | S n => occurrences_with unit spaces n s'
      | O =>
          match occurrence_with unit spaces s with
          | Some (o, rest) =>
              o :: occurrences_with unit spaces
                     (pred (length s - length rest)) s'
          | None => occurrences_with unit spaces O s'
          end
      end
  end.

Definition occurrence_here : bool -> text -> option (occurrence * text) :=
  occurrence_with is_unit.

Definition occurrences_from : bool -> nat -> text -> list occurrence :=
  occurrences_with is_unit.

Definition occurrences (spaces : bool) (s : text) : list occurrence :=
  occurrences_from spaces O s.

Definition digits_to_Z (d : text) : Z :=
  fold_left (fun n a => 10 * n + digit_val a) d 0.

(** The number of an occurrence, and the seconds it stands for: h is
    3600 seconds, m is 60, s is 1. *)
Definition number (o : occurrence) : Q :=
  let f := default [] (frac_part o) in
  (inject_Z (digits_to_Z (int_part o ++ f))
   / inject_Z (10 ^ Z.of_nat (length f)))%Q.

Definition factor (o : occurrence) : Z :=
  let l := lower (unit_letter o) in
  if l =? letter_h then 3600 else if l =? letter_m then 60 else 1.

Definition seconds_of (o : occurrence) : Q :=
  (number o * inject_Z (factor o))%Q.

Definition total_of (os : list occurrence) : Q :=
  fold_right (fun o t => (seconds_of o + t)%Q) 0%Q os.

(** A whole number: one written without a point. *)
Definition whole (o : occurrence) : Prop := frac_part o = None.

(** The same in the floats of the code: the float nearest to the
    number, its product by the float of the unit, and the sum from left
    to right, each step rounded. *)
Definition value (o : occurrence) : spec_float :=
  let f := default [] (frac_part o) in
  Py.int_truediv (digits_to_Z (int_part o ++ f)) (10 ^ Z.of_nat (length f)).

Definition seconds (o : occurrence) : spec_float :=
  let l := lower (unit_letter o) in
  if l =? letter_h then Py.fmul (value o) (Py.Z2SF 3600)
  else if l =? letter_m then Py.fmul (value o) (Py.Z2SF 60)
  else value o.

Definition total (os : list occurrence) : spec_float :=
  fold_left (fun t o => Py.fadd t (seconds o)) os (S754_zero false).

Definition parse (spaces : bool) (s : text) : res Z :=
  Py.int_of_float (total (occurrences spaces s)).

End Spec.
(** ** Dates and durations *)

Module Dt.

Definition second : Z := 1000000.

(** [datetime.max], 9999-12-31T23:59:59.999999. *)
Definition max : Z := 3652059 * 86400 * second - 1.

(** [timedelta(seconds=n)]: at most 999999999 days either way. *)
Definition timedelta (seconds : Z) : res Z :=
  if Z.abs (seconds / 86400) <=? 999999999
  then Ret (seconds * second) else Raise OverflowError.

(** [t + d] on a datetime [t]: the result is a datetime or the sum
    raises [OverflowError]. *)
Definition add (t d : Z) : res Z :=
  let r := t + d in
  if (0 <=? r) && (r <=? max) then Ret r else Raise OverflowError.

(** [d.total_seconds()]: the microseconds over a million, as the
    nearest float. *)
Definition total_seconds (d : Z) : Py.num :=
  Py.Float (Py.int_truediv d second).

End Dt.

(** ** What the bot sends *)

Module Interaction.
Record t : Type := {
  guild_id : Z;
  channel_id : Z;
  user : Z
}.
End Interaction.

Inductive Status : Type :=
| Starting | Running | Paused | Finished | Ended.

(** A cell of the progress bar: a full block or a light shade. *)
Inductive cell : Type := Full | Light.

Record Embed : Type := {
  title : Z;                     (* the user the timer is for *)
  time_str : string;
  progress_bar : list cell;
  color : Z;
  status : Status;
  footer : Z                     (* the user who started the timer *)
}.

Inductive reply : Type :=
| ValidDurationPlease
| AlreadyActive (user : Z)
| TimerResumed
| TimerPaused
| TimerEnded.

Inductive notice : Type := OneMinuteLeft | TimesUp.

Inductive Label : Type := PauseLabel | ResumeLabel | EndLabel.

Record Button : Type := {
  label : Label;                 (* the emoji goes with the label *)
  disabled : bool
}.

Inductive output : Type :=
| Respond (r : reply)
    (* interaction.response.send_message(text, ephemeral=True) *)
| SendTimer (message : nat) (e : Embed) (view : nat)
    (* interaction.response.send_message(embed=embed, view=view) *)
| Notify (task : nat) (channel : Z) (n : notice) (user : Z)
    (* channel.send(text), by the background task [task] *)
| EditEmbed (message : nat) (e : Embed)
| EditView (message : nat) (view : nat)
| EditBoth (message : nat) (e : Embed) (view : nat).

(** ** The state of the process *)

(** A value of [active_timers]; [view] and [task] name objects. *)
Record timer_data : Type := {
  task : nat;
  view : nat;
  paused : bool
}.

Module ViewObject.
Record t : Type := {
  timer_id : string;
  interaction : Interaction.t;
  user : Z;
  initial_duration : Z;
  duration_seconds : Z;
  end_time : Z;
  paused : bool;
  pause_start_time : option Z;
  message : option nat;
  pause_item : Button;           (* children[0] *)
  end_item : Button              (* children[1] *)
}.
End ViewObject.

Module TaskObject.
(** Where the coroutine stands: not yet run, at the head of its loop
    (asleep between two rounds), or over. *)
Inductive state : Type :=
| Created
| Looping
| Done
| Cancelled
| Failed (e : exn).

Record t : Type := {
  timer_id : string;
  user : Z;
  duration_seconds : Z;
  channel : Z;
  view : nat;
  end_time : Z;
  one_minute_warning_sent : bool;
  status : state
}.
End TaskObject.

Record world : Type := {
  active_timers : gmap string timer_data;
  views : gmap nat ViewObject.t;
  tasks : gmap nat TaskObject.t;
  next_message : nat;
  sent : list output             (* the latest first *)
}.

Definition initial_world : world :=
  {| active_timers := ∅; views := ∅; tasks := ∅;
     next_message := 0; sent := [] |}.

(** ** Code that reads and writes the state *)

Definition M (A : Type) : Type := world -> world * res A.

#[global] Instance M_ret : MRet M := fun A a w => (w, Ret a).
#[global] Instance M_bind : MBind M := fun A B f m w =>
  match m w with
  | (w', Ret a) => f a w'
  | (w', Raise e) => (w', Raise e)
  end.

Definition raise {A : Type} (e : exn) : M A := fun w => (w, Raise e).
Definition lift {A : Type} (r : res A) : M A := fun w => (w, r).
Definition get : M world := fun w => (w, Ret w).

Definition set_active_timers (f : gmap string timer_data ->
    gmap string timer_data) : M unit := fun w =>
  ({| active_timers := f (active_timers w); views := views w;
      tasks := tasks w; next_message := next_message w; sent := sent w |},
   Ret tt).

Definition set_views (f : gmap nat ViewObject.t -> gmap nat ViewObject.t)
    : M unit := fun w =>
  ({| active_timers := active_timers w; views := f (views w);
      tasks := tasks w; next_message := next_message w; sent := sent w |},
   Ret tt).

Definition set_tasks (f : gmap nat TaskObject.t -> gmap nat TaskObject.t)
    : M unit := fun w =>
  ({| active_timers := active_timers w; views := views w;
      tasks := f (tasks w); next_message := next_message w; sent := sent w |},
   Ret tt).

Definition emit (o : output) : M unit := fun w =>
  ({| active_timers := active_timers w; views := views w;
      tasks := tasks w; next_message := next_message w;
      sent := o :: sent w |},
   Ret tt).

Definition new_message : M nat := fun w =>
  ({| active_timers := active_timers w; views := views w;
      tasks := tasks w; next_message := S (next_message w); sent := sent w |},
   Ret (next_message w)).

Definition get_view (self : nat) : M ViewObject.t := fun w =>
  match views w !! self with
  | Some v => (w, Ret v)
  | None => (w, Raise NoSuchObject)
  end.

Definition get_task (self : nat) : M TaskObject.t := fun w =>
  match tasks w !! self with
  | Some t => (w, Ret t)
  | None => (w, Raise NoSuchObject)
  end.

(** An object is named by the number of objects made before it. *)
Definition new_view (v : ViewObject.t) : M nat := fun w =>
  let self := size (views w) in
  (fst (set_views (insert self v) w), Ret self).

Definition new_task (t : TaskObject.t) : M nat := fun w =>
  let self := size (tasks w) in
  (fst (set_tasks (insert self t) w), Ret self).

(** [active_timers[timer_id]], a [KeyError] when the key is absent. *)
Definition lookup_timer (timer_id : string) : M timer_data := fun w =>
  match active_timers w !! timer_id with
  | Some d => (w, Ret d)
  | None => (w, Raise KeyError)
  end.

(** [active_timers[timer_id]['paused'] = b] *)
Definition store_paused (timer_id : string) (b : bool) : M unit :=
  d ← lookup_timer timer_id;
  set_active_timers
    (insert timer_id {| task := task d; view := view d; paused := b |}).

(** [task.cancel()]: a task that is over stays as it is. *)
Definition cancel (self : nat) : M unit := fun w =>
  match tasks w !! self with
  | Some t =>
      match TaskObject.status t with
      | TaskObject.Created | TaskObject.Looping =>
          set_tasks (insert self
            {| TaskObject.timer_id := TaskObject.timer_id t;
               TaskObject.user := TaskObject.user t;
               TaskObject.duration_seconds := TaskObject.duration_seconds t;
               TaskObject.channel := TaskObject.channel t;
               TaskObject.view := TaskObject.view t;
               TaskObject.end_time := TaskObject.end_time t;
               TaskObject.one_minute_warning_sent :=
                 TaskObject.one_minute_warning_sent t;
               TaskObject.status := TaskObject.Cancelled |}) w
      | _ => (w, Ret tt)
      end
  | None => (w, Ret tt)
  end.

(** ** [class TimerView] *)

Module TimerView.
Import ViewObject.

Definition with_timing (end_time : Z) (paused : bool)
    (pause_start_time : option Z) (v : t) : t :=
  {| timer_id := timer_id v; interaction := interaction v; user := user v;
     initial_duration := initial_duration v;
     duration_seconds := duration_seconds v;
     end_time := end_time; paused := paused;
     pause_start_time := pause_start_time;
     message := message v;
     pause_item := pause_item v; end_item := end_item v |}.

Definition with_message (message : option nat) (v : t) : t :=
  {| timer_id := timer_id v; interaction := interaction v; user := user v;
     initial_duration := initial_duration v;
     duration_seconds := duration_seconds v;
     end_time := end_time v; paused := paused v;
     pause_start_time := pause_start_time v;
     message := message;
     pause_item := pause_item v; end_item := end_item v |}.

Definition with_items (pause_item end_item : Button) (v : t) : t :=
  {| timer_id := timer_id v; interaction := interaction v; user := user v;
     initial_duration := initial_duration v;
     duration_seconds := duration_seconds v;
     end_time := end_time v; paused := paused v;
     pause_start_time := pause_start_time v;
     message := message v;
     pause_item := pause_item; end_item := end_item |}.

(** [self.paused = b], [self.end_time = e] and the like: the object is
    read again at each statement, written back at once. *)
Definition update (self : nat) (f : t -> t) : M unit :=
  v ← get_view self; set_views (insert self (f v)).

(** [for item in self.children: item.disabled = True] *)
Definition disable_children (self : nat) : M unit :=
  update self (fun v =>
    with_items {| label := label (pause_item v); disabled := true |}
               {| label := label (end_item v); disabled := true |} v).

(** [__init__]: the view as built, or the exception of the date. *)
Definition init (timer_id : string) (interaction : Interaction.t)
    (duration_seconds : Z) (user : Z) (now : Z) : M nat :=
  d ← lift (Dt.timedelta duration_seconds);
  end_time ← lift (Dt.add now d);
  new_view
    {| timer_id := timer_id; interaction := interaction; user := user;
       initial_duration := duration_seconds;
       duration_seconds := duration_seconds;
       end_time := end_time; paused := false; pause_start_time := None;
       message := None;
       pause_item := {| label := PauseLabel; disabled := false |};
       end_item := {| label := EndLabel; disabled := false |} |}.

(** [f"{n:02}"] *)
Definition fmt02 (n : Z) : string :=
  let s := pretty n in
  if (String.length s <? 2)%nat then "0" +:+ s else s.

(** The number of full cells of the bar. *)
Definition filled_length (initial_duration : Z) (remaining_seconds : Py.num)
    : res Z :=
  progress_percentage ←
    (if 0 <? initial_duration
     then Py.truediv_int (Py.max0 remaining_seconds) initial_duration
     else Ret (Py.Int 0));
  x ← Py.mul (Py.Int 25) progress_percentage;
  Py.int x.

Definition bar (filled_length : Z) : list cell :=
  repeat Full (Z.to_nat filled_length)
  ++ repeat Light (Z.to_nat (25 - filled_length)).

Definition create_timer_embed (v : t) (remaining_seconds : Py.num)
    (status : Status) (color : Z) : res Embed :=
  n ← Py.int remaining_seconds;
  let seconds := n mod 60 in
  let hours := (n / 60) / 60 in
  let minutes := (n / 60) mod 60 in
  filled ← filled_length (initial_duration v) remaining_seconds;
  Ret {| title := user v;
         time_str := fmt02 hours +:+ ":" +:+ fmt02 minutes +:+ ":"
                     +:+ fmt02 seconds;
         progress_bar := bar filled;
         color := color;
         status := status;
         footer := Interaction.user (interaction v) |}.

(** [stop_timer] *)
Definition stop_timer (self : nat) : M unit :=
  v ← get_view self;
  w ← get;
  match active_timers w !! timer_id v with
  | Some d =>
      cancel (task d);;
      set_active_timers (delete (timer_id v))
  | None => mret tt
  end.

(** What [update_embed] shows: the time left, a status and a colour. *)
Definition shown (v : t) (now : Z) : Py.num * Status * Z :=
  let '(remaining_seconds, status, color) :=
    if paused v
    then (Py.Int (duration_seconds v), Paused, 0xffa500)
    else (Dt.total_seconds (end_time v - now), Running, 0x2ecc71) in
  if Py.le_int remaining_seconds 0
  then (Py.Int 0, Finished, 0xe74c3c)
  else (remaining_seconds, status, color).

(** [update_embed], which [timer_update_loop] calls every second on
    the view of each entry of [active_timers]; [found] tells whether the
    message is still there, the edit raising [discord.NotFound] when it
    is not. *)
Definition update_embed (self : nat) (now : Z) (found : bool) : M unit :=
  v ← get_view self;
  match message v with
  | None => mret tt
  | Some m =>
      let '(remaining_seconds, status, color) := shown v now in
      embed ← lift (create_timer_embed v remaining_seconds status color);
      if found then emit (EditEmbed m embed) else stop_timer self
  end.

(** [pause_button]; [message] is the message of the button that was
    pressed. *)
Definition pause_button (self : nat) (message : nat) (now : Z) : M unit :=
  v ← get_view self;
  (if paused v
   then
     update self (fun v =>
       with_timing (end_time v) false (pause_start_time v) v);;
     start ← match pause_start_time v with
             | Some t => mret t
             | None => raise TypeError
             end;
     let pause_duration := now - start in
     end_time' ← lift (Dt.add (end_time v) pause_duration);
     update self (fun v =>
       with_timing end_time' (paused v) (pause_start_time v) v);;
     update self (fun v =>
       with_items {| label := PauseLabel;
                     disabled := disabled (pause_item v) |} (end_item v) v);;
     store_paused (timer_id v) false;;
     emit (Respond TimerResumed)
   else
     update self (fun v => with_timing (end_time v) true (Some now) v);;
     update self (fun v =>
       with_items {| label := ResumeLabel;
                     disabled := disabled (pause_item v) |} (end_item v) v);;
     store_paused (timer_id v) true;;
     emit (Respond TimerPaused));;
  emit (EditView message self).

(** [end_button] *)
Definition end_button (self : nat) : M unit :=
  stop_timer self;;
  emit (Respond TimerEnded);;
  disable_children self;;
  v ← get_view self;
  ended_embed ← lift (create_timer_embed v (Py.Int 0) Ended 0x717d7e);
  match message v with
  | Some m => emit (EditBoth m ended_embed self)
  | None => raise AttributeError
  end.

End TimerView.

(** ** The progress bar as the specification words it *)

Module BarSpec.

Definition clamp (x lo hi : Z) : Z := Z.max lo (Z.min x hi).

(** [round(n / d)] for a positive [d]: the nearest integer, the even
    one on a tie. *)
Definition round_div (n d : Z) : Z :=
  let q := n / d in
  let r := n mod d in
  if 2 * r <? d then q
  else if d <? 2 * r then q + 1
  else if Z.even q then q else q + 1.

Definition filled_cells (remaining initial : Z) : Z :=
  if 0 <? initial
  then round_div (25 * clamp remaining 0 initial) initial
  else 0.

Definition cells : nat := 25.

End BarSpec.

(** ** The command [/time] and the background task *)

(** [f"{interaction.guild_id}-{interaction.channel_id}-{user.id}"] *)
Definition make_timer_id (interaction : Interaction.t) (user : Z) : string :=
  pretty (Interaction.guild_id interaction) +:+ "-"
  +:+ pretty (Interaction.channel_id interaction) +:+ "-" +:+ pretty user.

(** [asyncio.create_task(timer_task(...))]: the task is made, and runs
    once the command has returned. *)
Definition create_task (timer_id : string) (user duration_seconds : Z)
    (channel : Z) (view : nat) : M nat :=
  new_task
    {| TaskObject.timer_id := timer_id; TaskObject.user := user;
       TaskObject.duration_seconds := duration_seconds;
       TaskObject.channel := channel; TaskObject.view := view;
       TaskObject.end_time := 0;
       TaskObject.one_minute_warning_sent := false;
       TaskObject.status := TaskObject.Created |}.

(** The command, taken in one piece: nothing else runs while it waits
    for its message to be sent. *)
Definition time (interaction : Interaction.t) (duration : text)
    (user : option Z) (now : Z) : M unit :=
  let user := default (Interaction.user interaction) user in
  duration_seconds ← lift (parse_duration duration);
  if duration_seconds <=? 0
  then emit (Respond ValidDurationPlease)
  else
    let timer_id := make_timer_id interaction user in
    w ← get;
    if bool_decide (is_Some (active_timers w !! timer_id))
    then emit (Respond (AlreadyActive user))
    else
      view ← TimerView.init timer_id interaction duration_seconds user now;
      v ← get_view view;
      embed ← lift (TimerView.create_timer_embed v (Py.Int duration_seconds)
                      Starting 0x3498db);
      message ← new_message;
      emit (SendTimer message embed view);;
      TimerView.update view (TimerView.with_message (Some message));;
      task ← create_task timer_id user duration_seconds
               (Interaction.channel_id interaction) view;
      set_active_timers
        (insert timer_id {| task := task; view := view; paused := false |}).

Module Task.
Import TaskObject.

Definition with_state (end_time : Z) (one_minute_warning_sent : bool)
    (status : state) (x : t) : t :=
  {| timer_id := timer_id x; user := user x;
     duration_seconds := duration_seconds x; channel := channel x;
     view := view x; end_time := end_time;
     one_minute_warning_sent := one_minute_warning_sent;
     status := status |}.

Definition update (self : nat) (f : t -> t) : M unit :=
  x ← get_task self; set_tasks (insert self (f x)).

Definition is_created (s : state) : bool :=
  match s with Created => true | _ => false end.

Definition is_looping (s : state) : bool :=
  match s with Looping => true | _ => false end.

(** The task runs [body] when it stands at [at_state]; an exception
    that leaves the coroutine ends the task. *)
Definition resume (self : nat) (at_state : state -> bool)
    (body : t -> M unit) : M unit := fun w =>
  match tasks w !! self with
  | Some x =>
      if at_state (status x)
      then match body x w with
           | (w', Ret _) => (w', Ret tt)
           | (w', Raise e) =>
               update self (fun x =>
                 with_state (end_time x) (one_minute_warning_sent x)
                   (Failed e) x) w'
           end
      else (w, Ret tt)
  | None => (w, Raise NoSuchObject)
  end.

End Task.

(** The two statements of [timer_task] before its loop. *)
Definition timer_task_begin (self : nat) (now : Z) : M unit :=
  Task.resume self Task.is_created (fun t =>
    d ← lift (Dt.timedelta (TaskObject.duration_seconds t));
    end_time ← lift (Dt.add now d);
    Task.update self (Task.with_state end_time false TaskObject.Looping)).

(** The round of the loop that reaches [break]: the notice, the timer
    stopped, the buttons disabled.  [stop_timer] cancels the task that
    runs it; the task is over either way. *)
Definition time_is_up (self : nat) (t : TaskObject.t) : M unit :=
  emit (Notify self (TaskObject.channel t) TimesUp (TaskObject.user t));;
  TimerView.stop_timer (TaskObject.view t);;
  TimerView.disable_children (TaskObject.view t);;
  v ← get_view (TaskObject.view t);
  match ViewObject.message v with
  | Some m => emit (EditView m (TaskObject.view t))
  | None => raise AttributeError
  end;;
  Task.update self (fun t =>
    match TaskObject.status t with
    | TaskObject.Looping =>
        Task.with_state (TaskObject.end_time t)
          (TaskObject.one_minute_warning_sent t) TaskObject.Done t
    | _ => t
    end).

(** The first [if] of a round that finds the timer running. *)
Definition one_minute_warning (self : nat) (t : TaskObject.t)
    (remaining_seconds : Py.num) : M unit :=
  if Py.le_int remaining_seconds 60
     && negb (TaskObject.one_minute_warning_sent t)
  then
    emit (Notify self (TaskObject.channel t) OneMinuteLeft
            (TaskObject.user t));;
    Task.update self (fun t =>
      Task.with_state (TaskObject.end_time t) true (TaskObject.status t) t)
  else mret tt.

(** One round of the loop of [timer_task], from [while True] to the
    end of [asyncio.sleep(1)], or to [break]. *)
Definition timer_task_round (self : nat) (now : Z) : M unit :=
  Task.resume self Task.is_looping (fun t =>
    let timer_id := TaskObject.timer_id t in
    let end_time := TaskObject.end_time t in
    d ← lookup_timer timer_id;
    over ←
      (if negb (paused d)
       then
         let remaining_seconds := Dt.total_seconds (end_time - now) in
         one_minute_warning self t remaining_seconds;;
         if Py.le_int remaining_seconds 0
         then time_is_up self t;; mret true
         else mret false
       else mret false);
    if over : bool then mret tt
    else
      d ← lookup_timer timer_id;
      if paused d
      then
        end_time' ← lift (Dt.add end_time Dt.second);
        Task.update self (fun t =>
          Task.with_state end_time'
            (TaskObject.one_minute_warning_sent t) (TaskObject.status t) t)
      else mret tt).

(** ** Runs of the bot *)

Inductive event : Type :=
| TimeCommand (interaction : Interaction.t) (duration : text)
    (user : option Z) (now : Z)
| PauseButton (view : nat) (message : nat) (now : Z)
| EndButton (view : nat)
| UpdateEmbed (view : nat) (now : Z) (found : bool)
| TaskBegin (task : nat) (now : Z)
| TaskRound (task : nat) (now : Z).

Definition perform (e : event) : M unit :=
  match e with
  | TimeCommand interaction duration user now =>
      time interaction duration user now
  | PauseButton view message now => TimerView.pause_button view message now
  | EndButton view => TimerView.end_button view
  | UpdateEmbed view now found => TimerView.update_embed view now found
  | TaskBegin task now => timer_task_begin task now
  | TaskRound task now => timer_task_round task now
  end.

(** The state after a run; an exception ends the handler that raised
    it and nothing else. *)
Definition run (es : list event) (w : world) : world :=
  fold_left (fun w e => fst (perform e w)) es w.

(** ** Auxiliary definitions for the proofs *)

(** The greedy loop over one character class, by recursion on the
    text. *)
Fixpoint star_one {A : Type} (p : Z -> bool) (s : text)
    (c : Re.captures) (k : @Re.cont A) : option A :=
  match s with
  | a :: s' => if p a then Re.or_else (star_one p s' c k) (k s c) else k s c
  | [] => k [] c
  end.

(** The letters that the second group of the pattern matches: the unit
    letters and the long s. *)
Definition matched_unit (c : Z) : bool := Spec.is_unit c || (c =? 383).

(** The offsets in a run of digits, the white space and the letters
    that the pattern matches, one by one. *)
Definition ten : list Z := [0; 1; 2; 3; 4; 5; 6; 7; 8; 9].

Definition space_list : list Z :=
  [9; 10; 11; 12; 13; 28; 29; 30; 31; 32; 133; 160; 5760; 8192; 8193;
   8194; 8195; 8196; 8197; 8198; 8199; 8200; 8201; 8202; 8232; 8233;
   8239; 8287; 12288].

Definition unit_list : list Z := [72; 77; 83; 104; 109; 115; 383].

(** The units of the pattern, its second group, and its tail. *)
Definition unit_re : Re.regex :=
  Re.Group 2 (Re.Alt (Re.Lit letter_h)
                (Re.Alt (Re.Lit letter_m) (Re.Lit letter_s))).

Definition number_re : Re.regex :=
  Re.Cat (Re.Star Re.Digit)
    (Re.Cat (Re.Opt (Re.Lit point)) (Re.Plus Re.Digit)).

(** The continuation at the end of a match that started on [s0]. *)
Definition k_end (s0 : text) : @Re.cont (nat * Re.captures) :=
  fun s' c => Some ((length s0 - length s')%nat, c).

(** What the matcher does after the number, after the white space, and
    after the digits before the point, on a match that started on
    [s0]. *)
Definition k_unit (s0 : text) : @Re.cont (nat * Re.captures) :=
  fun t c =>
    match t with
    | u :: rest =>
        if matched_unit u
        then Some ((length s0 - length rest)%nat, (2%nat, [u]) :: c)
        else None
    | [] => None
    end.

Definition k_tail (s0 : text) : @Re.cont (nat * Re.captures) :=
  fun t c =>
    k_unit s0 (Spec.drop_while is_space t)
      ((1%nat, take (length s0 - length t) s0) :: c).

Definition k_frac (s0 : text) : @Re.cont (nat * Re.captures) :=
  fun t c =>
    match t with
    | a :: t' =>
        if is_digit a then k_tail s0 (Spec.drop_while is_digit t') c else None
    | [] => None
    end.

Definition k_point (s0 : text) : @Re.cont (nat * Re.captures) :=
  fun t c =>
    match t with
    | a :: t' => if point =? a then k_frac s0 t' c else k_frac s0 t c
    | [] => None
    end.

Definition number_result (s0 s : text) (c : Re.captures)
    : option (nat * Re.captures) :=
  match Spec.drop_while is_digit s with
  | a :: r2 =>
      if point =? a then k_frac s0 r2 c
      else match s with
           | b :: _ => if is_digit b then k_tail s0 (a :: r2) c else None
           | [] => None
           end
  | [] =>
      match s with
      | b :: _ => if is_digit b then k_tail s0 [] c else None
      | [] => None
      end
  end.

(** What [re.findall] gives for an occurrence: its two groups. *)
Definition groups_of (o : Spec.occurrence) : text * text :=
  (Spec.numeral o, [Spec.unit_letter o]).

Definition all_digits (d : text) : Prop :=
  Forall (fun a => is_digit a = true) d.

(** An occurrence as the scan produces them. *)
Definition well_formed (o : Spec.occurrence) : Prop :=
  all_digits (Spec.int_part o)
  /\ matched_unit (Spec.unit_letter o) = true
  /\ match Spec.frac_part o with
     | Some d => all_digits d /\ d <> []
     | None => Spec.int_part o <> []
     end.

(** A float that is not negative and not a NaN. *)
Definition nonneg (f : spec_float) : Prop :=
  match f with
  | S754_zero s | S754_infinity s | S754_finite s _ _ => s = false
  | S754_nan => False
  end.

(** What a match is made of before its unit letter, and every end of
    it: digits, then possibly a point and digits, then white space. *)
Definition shape (m : text) : Prop :=
  exists d1 x sp,
    m = d1 ++ x ++ sp
    /\ all_digits d1
    /\ Forall (fun a => is_space a = true) sp
    /\ (x = [] \/ exists d2, x = point :: d2 /\ all_digits d2 /\ d2 <> []).

(** The view, the task and the first embed that [/time] makes. *)
Definition started_view (interaction : Interaction.t) (user n now : Z)
    (message : option nat) : ViewObject.t :=
  {| ViewObject.timer_id := make_timer_id interaction user;
     ViewObject.interaction := interaction;
     ViewObject.user := user;
     ViewObject.initial_duration := n;
     ViewObject.duration_seconds := n;
     ViewObject.end_time := now + n * Dt.second;
     ViewObject.paused := false;
     ViewObject.pause_start_time := None;
     ViewObject.message := message;
     ViewObject.pause_item := {| label := PauseLabel; disabled := false |};
     ViewObject.end_item := {| label := EndLabel; disabled := false |} |}.

Definition started_task (interaction : Interaction.t) (user n : Z)
    (view : nat) : TaskObject.t :=
  {| TaskObject.timer_id := make_timer_id interaction user;
     TaskObject.user := user;
     TaskObject.duration_seconds := n;
     TaskObject.channel := Interaction.channel_id interaction;
     TaskObject.view := view;
     TaskObject.end_time := 0;
     TaskObject.one_minute_warning_sent := false;
     TaskObject.status := TaskObject.Created |}.

Definition starting_embed (interaction : Interaction.t) (user n : Z)
    : Embed :=
  {| title := user;
     time_str :=
       TimerView.fmt02 (n / 60 / 60) +:+ ":"
       +:+ TimerView.fmt02 ((n / 60) mod 60) +:+ ":"
       +:+ TimerView.fmt02 (n mod 60);
     progress_bar := repeat Full 25;
     color := 0x3498db;
     status := Starting;
     footer := Interaction.user interaction |}.

Definition started_world (interaction : Interaction.t) (user n now : Z)
    (w : world) : world :=
  let view := size (views w) in
  let task := size (tasks w) in
  {| active_timers :=
       <[make_timer_id interaction user :=
           {| task := task; view := view; paused := false |}]>
         (active_timers w);
     views :=
       <[view := started_view interaction user n now
                   (Some (next_message w))]> (views w);
     tasks := <[task := started_task interaction user n view]> (tasks w);
     next_message := S (next_message w);
     sent := SendTimer (next_message w) (starting_embed interaction user n)
               view :: sent w |}.

(** A property of the state that a piece of code keeps, however the
    code ends. *)
Definition preserves {A : Type} (P : world -> Prop) (m : M A) : Prop :=
  forall w, P w -> P (fst (m w)).

(** A property of the state that does not look at the timers'
    registry being written, at the views, at the tasks or at what was
    sent. *)
Definition timer_absent (timer_id : string) (w : world) : Prop :=
  active_timers w !! timer_id = None.

(** A guild, a channel and a user, for the runs that are worked out. *)
Definition someone : Interaction.t :=
  {| Interaction.guild_id := 1; Interaction.channel_id := 2;
     Interaction.user := 3 |}.

(** The one-minute notices that a task has sent. *)
Definition is_warning (task : nat) (o : output) : bool :=
  match o with
  | Notify t _ OneMinuteLeft _ => Nat.eqb t task
  | _ => false
  end.

Definition warnings (task : nat) (out : list output) : nat :=
  length (filter (fun o => is_warning task o = true) out).

(** Tasks are numbered from 0 on, and a task that has sent its notice
    has sent one, has run, and has its flag set. *)
Definition warned_once (w : world) : Prop :=
  (forall k, tasks w !! k = None <-> (size (tasks w) <= k)%nat)
  /\ forall k,
       warnings k (sent w) = O
       \/ (warnings k (sent w) = 1%nat
           /\ exists t, tasks w !! k = Some t
                /\ TaskObject.one_minute_warning_sent t = true
                /\ Task.is_created (TaskObject.status t) = false).

(** A write to a task that unsets no flag and does not make the task
    new again. *)
Definition keeps_warned (f : TaskObject.t -> TaskObject.t) : Prop :=
  forall x,
    (TaskObject.one_minute_warning_sent x = true ->
     TaskObject.one_minute_warning_sent (f x) = true)
    /\ (Task.is_created (TaskObject.status x) = false ->
        Task.is_created (TaskObject.status (f x)) = false).

(** A view with its two buttons disabled, and the state that the End
    button leaves once the timer has been stopped. *)
Definition disabled_view (v : ViewObject.t) : ViewObject.t :=
  TimerView.with_items
    {| label := label (ViewObject.pause_item v); disabled := true |}
    {| label := label (ViewObject.end_item v); disabled := true |} v.

Definition ended (self : nat) (v : ViewObject.t) (w0 : world)
    : world * res unit :=
  let answered :=
    {| active_timers := active_timers w0;
       views := <[self := disabled_view v]> (views w0);
       tasks := tasks w0;
       next_message := next_message w0;
       sent := Respond TimerEnded :: sent w0 |} in
  match TimerView.create_timer_embed (disabled_view v) (Py.Int 0) Ended
          0x717d7e with
  | Ret ended_embed =>
      match ViewObject.message v with
      | Some m => emit (EditBoth m ended_embed self) answered
      | None => (answered, Raise AttributeError)
      end
  | Raise e => (answered, Raise e)
  end.

Definition is_notice (o : output) : bool :=
  match o with
  | Notify _ _ _ _ => true
  | _ => false
  end.

Definition notices (out : list output) : list output :=
  filter (fun o => is_notice o = true) out.

(** A float above zero. *)
Definition positive_float (f : spec_float) : Prop :=
  match f with
  | S754_infinity s | S754_finite s _ _ => s = false
  | _ => False
  end.

(** The runs on which the behaviour of the code is worked out. *)

(** A timer of 90 seconds, paused after 30. *)
Definition paused_at_30 : list event :=
  [TimeCommand someone "90s" None 0; PauseButton 0 0 30000000].

(** A timer of 3 seconds whose task wakes at 0, 1 and 2 seconds, paused
    at 1.2 seconds and resumed at 1.8, between two rounds. *)
Definition paused_between_rounds : list event :=
  [TimeCommand someone "3s" None 0; TaskBegin 0 0; TaskRound 0 0;
   TaskRound 0 1000000;
   PauseButton 0 0 1200000; PauseButton 0 0 1800000;
   TaskRound 0 2000000].

(** A timer started and ended. *)
Definition started_and_ended : list event :=
  [TimeCommand someone "90s" None 0; EndButton 0].

(** A timer started and ended, a second one started for the same
    identity, and the Pause button of the first message pressed. *)
Definition stale_press : list event :=
  [TimeCommand someone "90s" None 0; EndButton 0;
   TimeCommand someone "90s" None 5000000; PauseButton 0 0 6000000].

(** A task that can still run. *)
Definition alive (s : TaskObject.state) : bool :=
  match s with
  | TaskObject.Created | TaskObject.Looping => true
  | _ => false
  end.

(** Every task that can still run is the task that the registry holds
    for its timer. *)
Definition tasks_registered (w : world) : Prop :=
  forall k t,
    tasks w !! k = Some t -> alive (TaskObject.status t) = true ->
    exists d, active_timers w !! TaskObject.timer_id t = Some d /\ task d = k.

(** A write to a task that keeps its timer and does not revive it. *)
Definition keeps_timer (f : TaskObject.t -> TaskObject.t) : Prop :=
  forall x,
    TaskObject.timer_id (f x) = TaskObject.timer_id x
    /\ (alive (TaskObject.status x) = false ->
        alive (TaskObject.status (f x)) = false).

(** Every view keeps the duration it was started with, in both
    fields. *)
Definition durations_kept (w : world) : Prop :=
  forall k v,
    views w !! k = Some v ->
    ViewObject.duration_seconds v = ViewObject.initial_duration v
    /\ 0 < ViewObject.initial_duration v.

Definition keeps_duration (f : ViewObject.t -> ViewObject.t) : Prop :=
  forall v,
    ViewObject.duration_seconds (f v) = ViewObject.duration_seconds v
    /\ ViewObject.initial_duration (f v) = ViewObject.initial_duration v.

(** Views are numbered from 0 on, and the entry of an identity holds a
    view of that identity whose [paused] is the flag of the entry. *)
Definition flags_agree (w : world) : Prop :=
  (forall k, views w !! k = None <-> (size (views w) <= k)%nat)
  /\ forall id d,
       active_timers w !! id = Some d ->
       exists v, views w !! view d = Some v
                 /\ ViewObject.timer_id v = id
                 /\ ViewObject.paused v = paused d.

(** A press of Pause on the view that the registry holds for its
    identity, and that returns. *)
Definition live_press (e : event) (w : world) : Prop :=
  match e with
  | PauseButton self message now =>
      (exists v d, views w !! self = Some v
                   /\ active_timers w !! ViewObject.timer_id v = Some d
                   /\ view d = self)
      /\ snd (perform e w) = Ret tt
  | _ => True
  end.

Fixpoint live_presses (es : list event) (w : world) : Prop :=
  match es with
  | [] => True
  | e :: es' => live_press e w /\ live_presses es' (fst (perform e w))
  end.

Definition keeps_flag (f : ViewObject.t -> ViewObject.t) : Prop :=
  forall v,
    ViewObject.timer_id (f v) = ViewObject.timer_id v
    /\ ViewObject.paused (f v) = ViewObject.paused v.

(** A number of 310 digits, in seconds. *)
Definition many_nines : string :=
  string_of_list_ascii (repeat "9"%char 310 ++ ["s"%char]).

(** ** The loop that refreshes the messages *)

(** [timer_update_loop]: one pass over [list(active_timers.items())],
    the copy of the registry taken before the first refresh.  The copy
    is the argument [items], in the order of the dictionary, which the
    registry of the model does not keep; [now] and [found] tell, for the
    timer of each key, what the clock reads at its refresh and whether
    its message is still there. *)
Fixpoint timer_update_loop (now : string -> Z) (found : string -> bool)
    (items : list (string * timer_data)) : M unit :=
  match items with
  | [] => mret tt
  | (timer_id, d) :: rest =>
      TimerView.update_embed (view d) (now timer_id) (found timer_id);;
      timer_update_loop now found rest
  end.

(** ** Auxiliary definitions for the further properties *)

(** The decimal digits of the numbers that the program writes, and the
    number that a run of them stands for. *)
Module Decimal.

Definition is_digit (c : ascii) : bool := (48 <=? code c) && (code c <=? 57).

Definition digit_val (c : ascii) : Z := code c - 48.

Definition digits_to_Z (d : list ascii) : Z :=
  fold_left (fun n a => 10 * n + digit_val a) d 0.

Definition all_digits (d : list ascii) : Prop :=
  Forall (fun a => is_digit a = true) d.

End Decimal.

(** The clock of an embed read back: the seconds that
    [hours:minutes:seconds] stands for. *)
Definition read_clock (s : string) : option Z :=
  let t := list_ascii_of_string s in
  let h := Spec.take_while Decimal.is_digit t in
  match Spec.drop_while Decimal.is_digit t with
  | ":"%char :: t1 =>
      let m := Spec.take_while Decimal.is_digit t1 in
      match Spec.drop_while Decimal.is_digit t1 with
      | ":"%char :: t2 =>
          if forallb Decimal.is_digit t2
          then Some (Decimal.digits_to_Z h * 3600 + Decimal.digits_to_Z m * 60
                     + Decimal.digits_to_Z t2)
          else None
      | _ => None
      end
  | _ => None
  end.

(** Objects are numbered from 0 on, in the order they were made. *)
Definition numbered {A : Type} (m : gmap nat A) : Prop :=
  forall k, m !! k = None <-> (size m <= k)%nat.

(** What the states of a run have in common: every view has its
    message; the entry of an identity holds a view of that identity;
    the view of a task is a view of the timer of the task; and a task
    that an exception has ended was ended by an [OverflowError]. *)
Definition sound (w : world) : Prop :=
  numbered (views w) /\ numbered (tasks w)
  /\ (forall k v, views w !! k = Some v -> is_Some (ViewObject.message v))
  /\ (forall id d, active_timers w !! id = Some d ->
        exists v, views w !! view d = Some v /\ ViewObject.timer_id v = id)
  /\ (forall k t, tasks w !! k = Some t ->
        exists v, views w !! TaskObject.view t = Some v
                  /\ ViewObject.timer_id v = TaskObject.timer_id t)
  /\ (forall k t e, tasks w !! k = Some t ->
        TaskObject.status t = TaskObject.Failed e -> e = OverflowError).

(** A write to a view that keeps its timer and its message, and a
    write to a task that keeps its timer and its view and does not
    fail it. *)
Definition keeps_view (f : ViewObject.t -> ViewObject.t) : Prop :=
  forall v,
    ViewObject.timer_id (f v) = ViewObject.timer_id v
    /\ (is_Some (ViewObject.message v) -> is_Some (ViewObject.message (f v))).

Definition keeps_task (f : TaskObject.t -> TaskObject.t) : Prop :=
  forall x,
    TaskObject.timer_id (f x) = TaskObject.timer_id x
    /\ TaskObject.view (f x) = TaskObject.view x
    /\ (forall e, TaskObject.status (f x) = TaskObject.Failed e ->
          TaskObject.status x = TaskObject.Failed e).

(** The notices that a task has sent to its channel. *)
Definition is_notice_of (task : nat) (o : output) : bool :=
  match o with
  | Notify t _ _ _ => Nat.eqb t task
  | _ => false
  end.

Definition notices_of (task : nat) (out : list output) : list output :=
  filter (fun o => is_notice_of task o = true) out.

(** A task that is over, with the notices it has sent. *)
Definition over_with (task : nat) (out : list output) (w : world) : Prop :=
  numbered (tasks w)
  /\ (exists t, tasks w !! task = Some t
                /\ alive (TaskObject.status t) = false)
  /\ notices_of task (sent w) = out.

(** A write to a task that does not revive it. *)
Definition keeps_over (f : TaskObject.t -> TaskObject.t) : Prop :=
  forall x,
    alive (TaskObject.status x) = false ->
    alive (TaskObject.status (f x)) = false.

Definition has_task (task : nat) (w : world) : Prop :=
  is_Some (tasks w !! task).

(** The message that an edit of an embed goes to, and the message of
    the view of an entry of the registry. *)
Definition edited (o : output) : option nat :=
  match o with
  | EditEmbed m _ => Some m
  | _ => None
  end.

Definition message_of (w : world) (item : string * timer_data)
    : option nat :=
  v ← views w !! view (snd item); ViewObject.message v.

(** No task was made, and the tasks that were over are still over. *)
Definition still_over (w w' : world) : Prop :=
  forall k,
    match tasks w !! k with
    | Some t =>
        alive (TaskObject.status t) = false ->
        exists t', tasks w' !! k = Some t'
                   /\ alive (TaskObject.status t') = false
    | None => tasks w' !! k = None
    end.

(** ** The command [/time] between its awaits

    [time] gives up control twice on its way to a timer, while its
    message is sent and while the message is fetched; other handlers
    run in between.  [time_begin] is the command up to the first of the
    two awaits, with the message on its way, and [time_finish] is the
    command from the second one on; [Pending.t] is what the coroutine
    holds across them.  [time] is the two run with nothing in
    between. *)
Module Pending.
Record t : Type := {
  timer_id : string;
  user : Z;
  duration_seconds : Z;
  view : nat;
  message : nat
}.
End Pending.

Definition time_begin (interaction : Interaction.t) (duration : text)
    (user : option Z) (now : Z) : M (option Pending.t) :=
  let user := default (Interaction.user interaction) user in
  duration_seconds ← lift (parse_duration duration);
  if duration_seconds <=? 0
  then emit (Respond ValidDurationPlease);; mret None
  else
    let timer_id := make_timer_id interaction user in
    w ← get;
    if bool_decide (is_Some (active_timers w !! timer_id))
    then emit (Respond (AlreadyActive user));; mret None
    else
      view ← TimerView.init timer_id interaction duration_seconds user now;
      v ← get_view view;
      embed ← lift (TimerView.create_timer_embed v (Py.Int duration_seconds)
                      Starting 0x3498db);
      message ← new_message;
      emit (SendTimer message embed view);;
      mret (Some {| Pending.timer_id := timer_id; Pending.user := user;
                    Pending.duration_seconds := duration_seconds;
                    Pending.view := view; Pending.message := message |}).

Definition time_finish (interaction : Interaction.t) (p : Pending.t)
    : M unit :=
  TimerView.update (Pending.view p)
    (TimerView.with_message (Some (Pending.message p)));;
  task ← create_task (Pending.timer_id p) (Pending.user p)
           (Pending.duration_seconds p)
           (Interaction.channel_id interaction) (Pending.view p);
  set_active_timers
    (insert (Pending.timer_id p)
       {| task := task; view := Pending.view p; paused := false |}).

(** Two starts for one identity, the second received while the first
    waits for its message to be sent; then the two tasks take their
    first steps. *)
Definition first_start : Pending.t :=
  {| Pending.timer_id := "1-2-3"; Pending.user := 3;
     Pending.duration_seconds := 90; Pending.view := 0;
     Pending.message := 0 |}.

Definition second_start : Pending.t :=
  {| Pending.timer_id := "1-2-3"; Pending.user := 3;
     Pending.duration_seconds := 90; Pending.view := 1;
     Pending.message := 1 |}.

Definition two_starts_begun : world :=
  fst (time_begin someone "90s" None 1000000
         (fst (time_begin someone "90s" None 0 initial_world))).

Definition two_starts_finished : world :=
  fst (time_finish someone second_start
         (fst (time_finish someone first_start two_starts_begun))).

(** A timer started and ended, and a second one started for the same
    identity. *)
Definition ended_and_restarted : list event :=
  [TimeCommand someone "90s" None 0; EndButton 0;
   TimeCommand someone "90s" None 5000000].

(** A timer of 90 seconds whose task took its first step 0.4 seconds
    after the command, refreshed 90.2 seconds after the command. *)
Definition refreshed_past_the_end : list event :=
  [TimeCommand someone "90s" None 0; TaskBegin 0 400000;
   TaskRound 0 89400000; UpdateEmbed 0 90200000 true].

(** ** The number a float stands for *)

Definition bpow (e : Z) : Q := (2 ^ e)%Q.

Definition F2Q (m e : Z) : Q := (inject_Z m * bpow e)%Q.

(** What [binary_round_aux] is given: a mantissa, and where the number
    lies between it and the next one. *)
Definition is_exact (l : location) : bool :=
  match l with
  | loc_Exact => true
  | loc_Inexact _ => false
  end.

(** What [binary_round_aux] packs: the mantissa [m] at exponent [e],
    brought back to 53 bits when the rounding carried into a 54th. *)
Definition pack (s : bool) (m e : Z) : spec_float :=
  match m with
  | Z0 => S754_zero s
  | Zpos p =>
      if m <? 2 ^ 53
      then if e <=? 971 then S754_finite s p e else S754_infinity s
      else if e + 1 <=? 971
           then S754_finite s (Z.to_pos (m / 2)) (e + 1)
           else S754_infinity s
  | Zneg _ => S754_nan
  end.

(** The number lies in the step that begins at mantissa [m], and [l]
    says whether it is its first point. *)
Definition located (m e : Z) (l : location) (v : Q) : Prop :=
  (F2Q m e <= v)%Q /\ (v < F2Q (m + 1) e)%Q
  /\ (is_exact l = true <-> (v == F2Q m e)%Q).

(** [f] is [v] rounded to a float: [v] lies in the step of width
    [2^e1] that begins at mantissa [m1], a mantissa of at most 53 bits,
    and of 53 bits when the exponent is above the least one, and [f] is
    the first point of this step or of the next one, the first when [v]
    is. *)
Definition rounds (v : Q) (f : spec_float) : Prop :=
  exists m1 m2 e1,
    f = pack false m2 e1
    /\ (F2Q m1 e1 <= v)%Q /\ (v < F2Q (m1 + 1) e1)%Q
    /\ (m2 = m1 \/ (m2 = m1 + 1 /\ (F2Q m1 e1 < v)%Q))
    /\ 0 <= m1 < 2 ^ 53
    /\ -1074 <= e1
    /\ (-1074 < e1 -> 2 ^ 52 <= m1).

(** The number of a float, and of a Python number. *)
Definition SF2Q (f : spec_float) : Q :=
  match f with
  | S754_finite false m e => F2Q (Z.pos m) e
  | S754_finite true m e => (- F2Q (Z.pos m) e)%Q
  | _ => 0%Q
  end.

Definition value (x : Py.num) : Q :=
  match x with
  | Py.Int z => inject_Z z
  | Py.Float f => SF2Q f
  end.

(** The floats that Python has: a mantissa of 53 bits, or of fewer at
    the least exponent. *)
Definition valid (x : Py.num) : Prop :=
  match x with
  | Py.Int _ => True
  | Py.Float f => valid_binary Py.prec Py.emax f = true
  end.

(** The part of the bar that is full, as a number of cells: [25 *
    max(0, remaining) / initial]. *)
Definition max_0 (q : Q) : Q := if Qle_bool q 0 then 0%Q else q.

Definition fill (remaining : Py.num) (initial : Z) : Q :=
  (25 * max_0 (value remaining) / inject_Z initial)%Q.

(** A float of the parser: not negative, finite, and one that Python
    has. *)
Definition good (f : spec_float) : Prop :=
  nonneg f /\ Py.is_finite f = true
  /\ valid_binary Py.prec Py.emax f = true.

(** The seconds of an occurrence of a whole number, and their sum. *)
Definition whole_seconds (o : Spec.occurrence) : Z :=
  Spec.digits_to_Z (Spec.int_part o) * Spec.factor o.

Definition whole_total (os : list Spec.occurrence) : Z :=
  fold_right (fun o t => whole_seconds o + t) 0 os.

(** [F] is [v] but for a part [d] of it and for [h]. *)
Definition near (d h F v : Q) : Prop :=
  (v * (1 - d) - h <= F)%Q /\ (F <= v * (1 + d) + h)%Q.

Definition eps : Q := 1 # 4503599627370496.       (* 2^-52 *)
Definition tiny : Q := bpow (-1021).
(** * Floats as numbers *)

(** ** Digits and shifts *)

Lemma digits2_pos_bounds p :
  2 ^ (Z.pos (digits2_pos p) - 1) <= Z.pos p < 2 ^ Z.pos (digits2_pos p).
Proof.
  induction p as [p IH|p IH|]; cbn [digits2_pos].
  - rewrite Pos2Z.inj_succ.
    replace (Z.succ (Z.pos (digits2_pos p)) - 1)
      with (Z.succ (Z.pos (digits2_pos p) - 1)) by lia.
    rewrite !Z.pow_succ_r by lia. lia.
  - rewrite Pos2Z.inj_succ.
    replace (Z.succ (Z.pos (digits2_pos p)) - 1)
      with (Z.succ (Z.pos (digits2_pos p) - 1)) by lia.
    rewrite !Z.pow_succ_r by lia. lia.
  - cbn. lia.
Qed.

Lemma Zdigits2_bounds m :
  0 < m -> 2 ^ (Zdigits2 m - 1) <= m < 2 ^ Zdigits2 m.
Proof.
  destruct m as [|p|p]; try lia. intros _. apply digits2_pos_bounds.
Qed.

Lemma Zdigits2_pos m : 0 < m -> 0 < Zdigits2 m.
Proof. destruct m; cbn; lia. Qed.

Lemma Zdigits2_le m k : 0 < m -> m < 2 ^ k -> Zdigits2 m <= k.
Proof.
  intros Hm Hk. pose proof (Zdigits2_bounds m Hm) as [Hlo _].
  destruct (Z_le_gt_dec (Zdigits2 m) k) as [|Hgt]; [assumption|].
  exfalso.
  assert (0 <= k).
  { destruct (Z_le_gt_dec 0 k); [assumption|].
    rewrite Z.pow_neg_r in Hk by lia. lia. }
  assert (2 ^ k <= 2 ^ (Zdigits2 m - 1)) by (apply Z.pow_le_mono_r; lia).
  lia.
Qed.

Lemma Zdigits2_ge m k : 0 <= k -> 2 ^ k <= m -> k + 1 <= Zdigits2 m.
Proof.
  intros Hk Hm.
  assert (0 < m) by (pose proof (Z.pow_pos_nonneg 2 k); lia).
  pose proof (Zdigits2_bounds m H) as [_ Hhi].
  pose proof (Zdigits2_pos m H).
  destruct (Z_le_gt_dec (k + 1) (Zdigits2 m)) as [|Hgt]; [assumption|].
  exfalso.
  assert (2 ^ Zdigits2 m <= 2 ^ k) by (apply Z.pow_le_mono_r; lia).
  lia.
Qed.

Lemma iter_pos_nat {A : Type} (f : A -> A) p x :
  SpecFloat.iter_pos f p x = Nat.iter (Pos.to_nat p) f x.
Proof.
  revert x. induction p as [p IH|p IH|]; intros x; cbn [SpecFloat.iter_pos].
  - rewrite !IH, Pos2Nat.inj_xI.
    replace (S (2 * Pos.to_nat p))%nat
      with (Pos.to_nat p + (Pos.to_nat p + 1))%nat by lia.
    rewrite !Nat.iter_add. reflexivity.
  - rewrite !IH, Pos2Nat.inj_xO.
    replace (2 * Pos.to_nat p)%nat
      with (Pos.to_nat p + Pos.to_nat p)%nat by lia.
    rewrite Nat.iter_add. reflexivity.
  - reflexivity.
Qed.

Lemma shr_1_spec m r s :
  0 <= m ->
  shr_1 {| shr_m := m; shr_r := r; shr_s := s |}
  = {| shr_m := m / 2; shr_r := Z.odd m; shr_s := r || s |}.
Proof.
  intros Hm. rewrite <- Z.div2_div.
  destruct m as [|[p|p|]|]; try lia; reflexivity.
Qed.

Lemma mod_pow_succ m n :
  0 <= n ->
  (m mod 2 ^ (n + 1) = 0 <-> m mod 2 ^ n = 0 /\ Z.odd (m / 2 ^ n) = false).
Proof.
  intros Hn. rewrite Z.pow_add_r, Z.pow_1_r by lia.
  pose proof (Z.pow_pos_nonneg 2 n ltac:(lia) Hn) as Hp.
  rewrite Z.rem_mul_r by lia.
  pose proof (Z.mod_pos_bound m (2 ^ n) Hp).
  pose proof (Z.mod_pos_bound (m / 2 ^ n) 2 ltac:(lia)).
  rewrite <- Z.negb_even, Bool.negb_false_iff.
  rewrite Zeven_bool_iff, Zeven_ex_iff.
  split.
  - intros H1. assert (m mod 2 ^ n = 0) by nia.
    split; [assumption|]. exists (m / 2 ^ n / 2).
    assert ((m / 2 ^ n) mod 2 = 0) by nia.
    pose proof (Z.div_mod (m / 2 ^ n) 2 ltac:(lia)). lia.
  - intros [H1 [k Hk]]. rewrite H1, Hk.
    replace ((2 * k) mod 2) with 0
      by (symmetry; rewrite Z.mul_comm; apply Z.mod_mul; lia).
    lia.
Qed.

Lemma shr_iter n m r s :
  0 <= m ->
  exists r' s',
    Nat.iter n shr_1 {| shr_m := m; shr_r := r; shr_s := s |}
    = {| shr_m := m / 2 ^ Z.of_nat n; shr_r := r'; shr_s := s' |}
    /\ (r' || s' = false
        <-> r || s = false /\ m mod 2 ^ Z.of_nat n = 0).
Proof.
  intros Hm. induction n as [|n (r' & s' & IH & Hex)].
  - exists r, s. cbn [Nat.iter Z.of_nat]. rewrite Z.pow_0_r, Z.div_1_r.
    split; [reflexivity|]. rewrite Z.mod_1_r. tauto.
  - rewrite Nat.iter_succ, IH.
    assert (Hp : 0 < 2 ^ Z.of_nat n) by (apply Z.pow_pos_nonneg; lia).
    rewrite shr_1_spec by (apply Z.div_pos; lia).
    exists (Z.odd (m / 2 ^ Z.of_nat n)), (r' || s').
    rewrite Nat2Z.inj_succ, <- Z.add_1_r.
    split.
    + f_equal. rewrite Z.pow_add_r, Z.pow_1_r by lia.
      now rewrite Z.div_div by lia.
    + rewrite mod_pow_succ by lia.
      rewrite Bool.orb_false_iff, Hex. tauto.
Qed.

Lemma shr_spec m l e n :
  0 <= m ->
  exists r' s',
    shr (shr_record_of_loc m l) e n
    = ({| shr_m := m / 2 ^ Z.max 0 n; shr_r := r'; shr_s := s' |},
       e + Z.max 0 n)
    /\ (r' || s' = false
        <-> is_exact l = true /\ m mod 2 ^ Z.max 0 n = 0).
Proof.
  intros Hm.
  assert (Hrec : exists r s,
            shr_record_of_loc m l
            = {| shr_m := m; shr_r := r; shr_s := s |}
            /\ (r || s = false <-> is_exact l = true)).
  { destruct l as [|[]]; cbn; eauto 6; do 2 eexists;
      (split; [reflexivity|]); cbn; easy. }
  destruct Hrec as (r & s & -> & Hl).
  destruct n as [|p|p]; cbn [shr].
  - exists r, s. rewrite Z.max_l, Z.pow_0_r, Z.div_1_r, Z.add_0_r, Z.mod_1_r
      by lia. split; [reflexivity|]. tauto.
  - rewrite iter_pos_nat.
    destruct (shr_iter (Pos.to_nat p) m r s Hm) as (r' & s' & -> & Hex).
    rewrite positive_nat_Z in *. rewrite Z.max_r by lia.
    exists r', s'. split; [reflexivity|]. rewrite Hex. tauto.
  - exists r, s.
    replace (Z.max 0 (Z.neg p)) with 0 by lia.
    rewrite Z.pow_0_r, Z.div_1_r, Z.add_0_r, Z.mod_1_r.
    split; [reflexivity|]. tauto.
Qed.

Lemma loc_of_shr_exact m r s :
  is_exact (loc_of_shr_record {| shr_m := m; shr_r := r; shr_s := s |})
  = negb (r || s).
Proof. destruct r, s; reflexivity. Qed.

Lemma round_nearest_even_spec m l :
  round_nearest_even m l = m
  \/ (round_nearest_even m l = m + 1 /\ is_exact l = false).
Proof.
  destruct l as [|[]]; cbn; auto. destruct (Z.even m); auto.
Qed.

(** ** What [binary_round_aux] returns *)

Lemma fexp_eq x : fexp Py.prec Py.emax x = Z.max (x - 53) (-1074).
Proof. reflexivity. Qed.

Lemma div_pow_lt m n k :
  0 <= m -> 0 <= n -> 0 <= k -> m < 2 ^ (n + k) -> m / 2 ^ n < 2 ^ k.
Proof.
  intros Hm Hn Hk Hlt. apply Z.div_lt_upper_bound.
  - apply Z.pow_pos_nonneg; lia.
  - now rewrite <- Z.pow_add_r by lia.
Qed.

Lemma binary_round_aux_spec s m e l :
  0 <= m ->
  let e1 := Z.max e (fexp Py.prec Py.emax (Zdigits2 m + e)) in
  let m1 := m / 2 ^ (e1 - e) in
  exists m2,
    binary_round_aux Py.prec Py.emax s m e l = pack s m2 e1
    /\ (m2 = m1
        \/ (m2 = m1 + 1
            /\ (is_exact l = false \/ m mod 2 ^ (e1 - e) <> 0)))
    /\ 0 <= m1 < 2 ^ 53.
Proof.
  intros Hm e1 m1.
  assert (Hn : Z.max 0 (fexp Py.prec Py.emax (Zdigits2 m + e) - e) = e1 - e)
    by (subst e1; lia).
  assert (Hm1 : 0 <= m1 < 2 ^ 53).
  { subst m1. split; [apply Z.div_pos; [lia|apply Z.pow_pos_nonneg; lia]|].
    destruct (Z.eq_dec m 0) as [->|Hne].
    - rewrite Z.div_0_l; [lia|]. apply Z.pow_nonzero; lia.
    - apply div_pow_lt; try lia.
      pose proof (Zdigits2_bounds m ltac:(lia)) as [_ Hhi].
      pose proof (Zdigits2_pos m ltac:(lia)).
      eapply Z.lt_le_trans; [exact Hhi|].
      apply Z.pow_le_mono_r; [lia|]. subst e1. rewrite fexp_eq. lia. }
  unfold binary_round_aux, shr_fexp.
  destruct (shr_spec m l e (fexp Py.prec Py.emax (Zdigits2 m + e) - e) Hm)
    as (r1 & s1 & -> & Hex1).
  rewrite Hn in *. replace (e + (e1 - e)) with e1 by lia.
  cbn [shr_m]. fold m1.
  set (m2 := round_nearest_even m1 _).
  assert (Hm2 : m2 = m1
                \/ (m2 = m1 + 1
                    /\ (is_exact l = false \/ m mod 2 ^ (e1 - e) <> 0))).
  { subst m2.
    destruct (round_nearest_even_spec m1
                (loc_of_shr_record
                   {| shr_m := m1; shr_r := r1; shr_s := s1 |}))
      as [->|[-> Hin]]; [now left|right]. split; [reflexivity|].
    rewrite loc_of_shr_exact, Bool.negb_false_iff in Hin.
    destruct (is_exact l); [right|now left].
    intros H0. destruct (r1 || s1); [|discriminate].
    assert (true = false) by (apply Hex1; auto). discriminate. }
  clearbody m2.
  exists m2. split; [|split; [exact Hm2|exact Hm1]].
  assert (He1 : -1074 <= e1) by (subst e1; rewrite fexp_eq; lia).
  assert (Hm2r : 0 <= m2 <= 2 ^ 53) by lia.
  destruct (shr_spec m2 loc_Exact e1
              (fexp Py.prec Py.emax (Zdigits2 m2 + e1) - e1) ltac:(lia))
    as (r2 & s2 & -> & _).
  cbn [shr_m].
  destruct (Z_lt_le_dec m2 (2 ^ 53)) as [Hlt|Hge].
  - assert (Hz : Z.max 0 (fexp Py.prec Py.emax (Zdigits2 m2 + e1) - e1) = 0).
    { rewrite fexp_eq. destruct (Z.eq_dec m2 0) as [->|Hne]; [cbn; lia|].
      pose proof (Zdigits2_le m2 53 ltac:(lia) Hlt). lia. }
    rewrite Hz, Z.pow_0_r, Z.div_1_r, Z.add_0_r.
    unfold pack. destruct m2 as [|p|p]; [reflexivity| |reflexivity].
    replace (Z.pos p <? 2 ^ 53) with true by (symmetry; apply Z.ltb_lt; lia).
    reflexivity.
  - assert (m2 = 2 ^ 53) by lia. subst m2.
    assert (Hz : Z.max 0 (fexp Py.prec Py.emax (Zdigits2 (2 ^ 53) + e1) - e1)
                 = 1).
    { rewrite fexp_eq. change (Zdigits2 (2 ^ 53)) with 54. lia. }
    rewrite Hz. reflexivity.
Qed.

(** ** Powers of two and mantissas as rationals *)

Lemma bpow_pos e : (0 < bpow e)%Q.
Proof. apply Qpower_0_lt. reflexivity. Qed.

Lemma bpow_add a b : (bpow (a + b) == bpow a * bpow b)%Q.
Proof. apply Qpower_plus. discriminate. Qed.

Lemma bpow_Z n : 0 <= n -> (bpow n == inject_Z (2 ^ n))%Q.
Proof. intros Hn. symmetry. now apply (Zpower_Qpower 2 n). Qed.

Lemma bpow_le a b : a <= b -> (bpow a <= bpow b)%Q.
Proof. intros H. apply Qpower_le_compat_l; [exact H|discriminate]. Qed.

Lemma bpow_0 : (bpow 0 == 1)%Q.
Proof. reflexivity. Qed.

Lemma F2Q_shift m e n : 0 <= n -> (F2Q (m * 2 ^ n) e == F2Q m (e + n))%Q.
Proof.
  intros Hn. unfold F2Q.
  rewrite inject_Z_mult, bpow_add, <- (bpow_Z n Hn). ring.
Qed.

Lemma F2Q_le m1 m2 e : m1 <= m2 -> (F2Q m1 e <= F2Q m2 e)%Q.
Proof.
  intros H. unfold F2Q. apply Qmult_le_compat_r.
  - now rewrite <- Zle_Qle.
  - apply Qlt_le_weak, bpow_pos.
Qed.

Lemma F2Q_lt m1 m2 e : m1 < m2 -> (F2Q m1 e < F2Q m2 e)%Q.
Proof.
  intros H. unfold F2Q. apply Qmult_lt_compat_r.
  - apply bpow_pos.
  - now rewrite <- Zlt_Qlt.
Qed.

Lemma F2Q_le_inv m1 m2 e : (F2Q m1 e <= F2Q m2 e)%Q -> m1 <= m2.
Proof.
  intros H. destruct (Z_le_gt_dec m1 m2) as [|Hgt]; [assumption|].
  exfalso. assert (Hlt : m2 < m1) by lia.
  apply (F2Q_lt m2 m1 e) in Hlt. lra.
Qed.

Lemma F2Q_lt_inv m1 m2 e : (F2Q m1 e < F2Q m2 e)%Q -> m1 < m2.
Proof.
  intros H. destruct (Z_lt_le_dec m1 m2) as [|Hge]; [assumption|].
  exfalso. apply (F2Q_le m2 m1 e) in Hge. lra.
Qed.

Lemma F2Q_eq_inv m1 m2 e : (F2Q m1 e == F2Q m2 e)%Q -> m1 = m2.
Proof.
  intros H. apply Z.le_antisymm; apply (F2Q_le_inv _ _ e); lra.
Qed.

Lemma F2Q_0 e : (F2Q 0 e == 0)%Q.
Proof. unfold F2Q. ring. Qed.

Lemma F2Q_nonneg m e : 0 <= m -> (0 <= F2Q m e)%Q.
Proof. intros H. rewrite <- (F2Q_0 e). now apply F2Q_le. Qed.

Lemma F2Q_int m : (F2Q m 0 == inject_Z m)%Q.
Proof. unfold F2Q. rewrite bpow_0. ring. Qed.

(** A number on a coarse grid is on every finer one. *)
Lemma F2Q_align m e e' :
  e' <= e -> (F2Q m e == F2Q (m * 2 ^ (e - e')) e')%Q.
Proof.
  intros H. rewrite F2Q_shift by lia.
  now replace (e' + (e - e')) with e by lia.
Qed.

(** ** Rounding, as a relation between a number and a float *)

Lemma binary_round_aux_rounds m e l v :
  0 <= m ->
  located m e l v ->
  e <= fexp Py.prec Py.emax (Zdigits2 m + e) ->
  rounds v (binary_round_aux Py.prec Py.emax false m e l).
Proof.
  intros Hm (Hlo & Hhi & Hex) Hnorm.
  destruct (binary_round_aux_spec false m e l Hm) as (m2 & Heq & Hm2 & Hm1).
  set (e1 := Z.max e (fexp Py.prec Py.emax (Zdigits2 m + e))) in *.
  assert (He1 : e1 = Z.max e (Z.max (Zdigits2 m + e - 53) (-1074)))
    by reflexivity.
  clearbody e1. rewrite fexp_eq in Hnorm.
  set (n := e1 - e) in *.
  set (m1 := m / 2 ^ n) in *.
  assert (Hn : 0 <= n) by (subst n; lia).
  assert (Hp : 0 < 2 ^ n) by (apply Z.pow_pos_nonneg; lia).
  pose proof (Z.div_mod m (2 ^ n) ltac:(lia)) as Hdiv. fold m1 in Hdiv.
  pose proof (Z.mod_pos_bound m (2 ^ n) Hp) as Hr.
  assert (Ha : forall k, (F2Q k e1 == F2Q (k * 2 ^ n) e)%Q).
  { intros k. apply F2Q_align. lia. }
  assert (H1 : (F2Q m1 e1 <= F2Q m e)%Q).
  { rewrite Ha. apply F2Q_le. lia. }
  assert (H2 : (F2Q (m + 1) e <= F2Q (m1 + 1) e1)%Q).
  { rewrite (Ha (m1 + 1)). apply F2Q_le. lia. }
  exists m1, m2, e1.
  split; [exact Heq|]. split; [lra|]. split; [lra|].
  split; [|split; [exact Hm1|split]].
  - destruct Hm2 as [->|[-> Hin]]; [now left|right].
    split; [reflexivity|]. destruct Hin as [Hin|Hin].
    + assert (~ (v == F2Q m e)%Q)
        by (intros H; apply Hex in H; congruence).
      lra.
    + assert (F2Q m1 e1 < F2Q m e)%Q; [|lra].
      rewrite Ha. apply F2Q_lt. lia.
  - lia.
  - intros Hsub.
    assert (He : e1 = Zdigits2 m + e - 53) by lia.
    destruct (Z.eq_dec m 0) as [->|Hne]; [cbn in He; lia|].
    pose proof (Zdigits2_bounds m ltac:(lia)) as [Hd _].
    subst m1. apply Z.div_le_lower_bound; [lia|].
    rewrite <- Z.pow_add_r by lia.
    replace (n + 52) with (Zdigits2 m - 1) by lia. exact Hd.
Qed.

(** The number of what [pack] makes. *)
Lemma pack_value m e :
  0 <= m <= 2 ^ 53 ->
  Py.is_finite (pack false m e) = true ->
  (SF2Q (pack false m e) == F2Q m e)%Q.
Proof.
  intros Hm. unfold pack. destruct m as [|p|p]; [now rewrite F2Q_0| |lia].
  destruct (Z.pos p <? 2 ^ 53) eqn:Hlt.
  - destruct (e <=? 971); [reflexivity|discriminate].
  - apply Z.ltb_ge in Hlt. assert (Hp : Z.pos p = 2 ^ 53) by lia.
    rewrite Hp. destruct (e + 1 <=? 971); [|discriminate]. intros _.
    cbn [SF2Q]. change (Z.pos (Z.to_pos (2 ^ 53 / 2))) with (2 ^ 52).
    rewrite (F2Q_align (2 ^ 52) (e + 1) e) by lia.
    replace (e + 1 - e) with 1 by lia. reflexivity.
Qed.

Lemma pack_nonneg m e : nonneg (pack false m e) \/ pack false m e = S754_nan.
Proof.
  unfold pack. destruct m; cbn; auto.
  repeat match goal with |- context [if ?b then _ else _] => destruct b end;
    cbn; auto.
Qed.

(** ** What follows from [rounds] *)

Lemma rounds_ext v v' f : (v == v')%Q -> rounds v f -> rounds v' f.
Proof.
  intros Hv (m1 & m2 & e1 & H). exists m1, m2, e1.
  rewrite <- Hv. exact H.
Qed.

Lemma valid_binary_bounds s m e :
  valid_binary Py.prec Py.emax (S754_finite s m e) = true ->
  Z.pos m < 2 ^ 53 /\ -1074 <= e <= 971
  /\ (-1074 < e -> 2 ^ 52 <= Z.pos m).
Proof.
  cbn [valid_binary]. unfold bounded, canonical_mantissa.
  rewrite Bool.andb_true_iff, Z.eqb_eq, Z.leb_le, fexp_eq.
  change (Py.emax - Py.prec) with 971.
  pose proof (digits2_pos_bounds m) as [Hlo Hhi].
  intros [Hc He].
  assert (Hd : Z.pos (digits2_pos m) <= 53) by lia.
  split; [|split; [lia|]].
  - eapply Z.lt_le_trans; [exact Hhi|]. apply Z.pow_le_mono_r; lia.
  - intros Hn. assert (Z.pos (digits2_pos m) = 53) by lia.
    rewrite H in Hlo. exact Hlo.
Qed.

Lemma bounds_valid_binary s m e :
  Z.pos m < 2 ^ 53 -> -1074 <= e <= 971 ->
  (-1074 < e -> 2 ^ 52 <= Z.pos m) ->
  valid_binary Py.prec Py.emax (S754_finite s m e) = true.
Proof.
  intros Hm He Hn. cbn [valid_binary]. unfold bounded, canonical_mantissa.
  rewrite Bool.andb_true_iff, Z.eqb_eq, Z.leb_le, fexp_eq.
  change (Py.emax - Py.prec) with 971. split; [|lia].
  pose proof (Zdigits2_le (Z.pos m) 53 ltac:(lia) Hm) as Hd.
  cbn [Zdigits2] in Hd.
  destruct (Z.eq_dec e (-1074)) as [->|Hne]; [lia|].
  pose proof (Zdigits2_ge (Z.pos m) 52 ltac:(lia) ltac:(apply Hn; lia)) as Hd'.
  cbn [Zdigits2] in Hd'. lia.
Qed.

Lemma pack_valid m2 m1 e1 :
  (m2 = m1 \/ m2 = m1 + 1) -> 0 <= m1 < 2 ^ 53 -> -1074 <= e1 ->
  (-1074 < e1 -> 2 ^ 52 <= m1) ->
  valid_binary Py.prec Py.emax (pack false m2 e1) = true.
Proof.
  intros Hm2 Hm1 He1 Hn. unfold pack.
  destruct m2 as [|p|p]; [reflexivity| |reflexivity].
  destruct (Z.pos p <? 2 ^ 53) eqn:Hlt.
  - apply Z.ltb_lt in Hlt. destruct (e1 <=? 971) eqn:Hle; [|reflexivity].
    apply Z.leb_le in Hle. apply bounds_valid_binary; lia.
  - apply Z.ltb_ge in Hlt. assert (Hp : Z.pos p = 2 ^ 53) by lia.
    rewrite Hp. destruct (e1 + 1 <=? 971) eqn:Hle; [|reflexivity].
    apply Z.leb_le in Hle.
    change (Z.to_pos (2 ^ 53 / 2)) with (Z.to_pos (2 ^ 52)).
    apply bounds_valid_binary; cbn; lia.
Qed.

Lemma rounds_valid v f : rounds v f -> valid_binary Py.prec Py.emax f = true.
Proof.
  intros (m1 & m2 & e1 & -> & _ & _ & Hm2 & Hm1 & He1 & Hn).
  apply (pack_valid m2 m1 e1); tauto.
Qed.

Lemma rounds_nonneg v f : rounds v f -> nonneg f.
Proof.
  intros (m1 & m2 & e1 & -> & _ & _ & Hm2 & Hm1 & _).
  destruct (pack_nonneg m2 e1) as [H|H]; [exact H|].
  unfold pack in H. destruct m2 as [|p|p]; try discriminate; [|lia].
  repeat match type of H with
         | context [if ?b then _ else _] => destruct b
         end; discriminate.
Qed.

(** The float is at most every float that the number is at most, and
    at least every float that the number is at least. *)
Lemma rounds_le v f Mb Eb :
  rounds v f -> Py.is_finite f = true ->
  (v <= F2Q Mb Eb)%Q -> Mb <= 2 ^ 53 -> -1074 <= Eb ->
  (SF2Q f <= F2Q Mb Eb)%Q.
Proof.
  intros (m1 & m2 & e1 & -> & Hlo & Hhi & Hm2 & Hm1 & He1 & Hn) Hfin Hv HMb HEb.
  rewrite pack_value by (try exact Hfin; lia).
  destruct Hm2 as [->|[-> Hlt]]; [lra|].
  destruct (Z_le_gt_dec e1 Eb) as [Hle|Hgt].
  - rewrite (F2Q_align Mb Eb e1 Hle) in *.
    apply F2Q_le. assert (m1 < Mb * 2 ^ (Eb - e1)); [|lia].
    apply (F2Q_lt_inv _ _ e1). lra.
  - exfalso. specialize (Hn ltac:(lia)).
    assert (F2Q Mb Eb <= F2Q m1 e1)%Q; [|lra].
    rewrite (F2Q_align m1 e1 Eb) by lia. apply F2Q_le.
    assert (2 ^ 1 <= 2 ^ (e1 - Eb)) by (apply Z.pow_le_mono_r; lia).
    nia.
Qed.

Lemma rounds_ge v f Mb Eb :
  rounds v f -> Py.is_finite f = true ->
  (F2Q Mb Eb <= v)%Q -> Mb <= 2 ^ 53 -> -1074 <= Eb ->
  (F2Q Mb Eb <= SF2Q f)%Q.
Proof.
  intros (m1 & m2 & e1 & -> & Hlo & Hhi & Hm2 & Hm1 & He1 & Hn) Hfin Hv HMb HEb.
  rewrite pack_value by (try exact Hfin; lia).
  assert (H1 : (F2Q m1 e1 <= F2Q m2 e1)%Q) by (apply F2Q_le; lia).
  assert (F2Q Mb Eb <= F2Q m1 e1)%Q; [|lra].
  destruct (Z_le_gt_dec e1 Eb) as [Hle|Hgt].
  - rewrite (F2Q_align Mb Eb e1 Hle) in *.
    apply F2Q_le. assert (Mb * 2 ^ (Eb - e1) < m1 + 1); [|lia].
    apply (F2Q_lt_inv _ _ e1). lra.
  - specialize (Hn ltac:(lia)).
    rewrite (F2Q_align m1 e1 Eb) by lia. apply F2Q_le.
    assert (2 ^ 1 <= 2 ^ (e1 - Eb)) by (apply Z.pow_le_mono_r; lia).
    nia.
Qed.

(** A number below a float that is not the largest one rounds to a
    float, not to an infinity. *)
Lemma rounds_finite v f Mb Eb :
  rounds v f ->
  (v <= F2Q Mb Eb)%Q -> Mb < 2 ^ 53 -> -1074 <= Eb <= 971 ->
  Py.is_finite f = true.
Proof.
  intros (m1 & m2 & e1 & -> & Hlo & Hhi & Hm2 & Hm1 & He1 & Hn) Hv HMb HEb.
  assert (Hbig : 971 < e1 -> False).
  { intros Hgt. specialize (Hn ltac:(lia)).
    assert (F2Q Mb Eb < F2Q m1 e1)%Q; [|lra].
    rewrite (F2Q_align m1 e1 Eb) by lia. apply F2Q_lt.
    assert (2 ^ 1 <= 2 ^ (e1 - Eb)) by (apply Z.pow_le_mono_r; lia).
    nia. }
  assert (Hcarry : m2 = 2 ^ 53 -> e1 = 971 -> False).
  { intros -> ->. assert (m1 = 2 ^ 53 - 1) by lia. subst m1.
    destruct Hm2 as [|[_ Hlt]]; [lia|].
    assert (F2Q Mb Eb <= F2Q (2 ^ 53 - 1) 971)%Q; [|lra].
    rewrite (F2Q_align (2 ^ 53 - 1) 971 Eb) by lia. apply F2Q_le.
    assert (2 ^ 0 <= 2 ^ (971 - Eb)) by (apply Z.pow_le_mono_r; lia).
    nia. }
  unfold pack. destruct m2 as [|p|p]; [reflexivity| |lia].
  destruct (Z.pos p <? 2 ^ 53) eqn:Hlt.
  - destruct (e1 <=? 971) eqn:Hle; [reflexivity|].
    apply Z.leb_gt in Hle. now exfalso; apply Hbig.
  - apply Z.ltb_ge in Hlt.
    destruct (e1 + 1 <=? 971) eqn:Hle; [reflexivity|].
    apply Z.leb_gt in Hle. exfalso.
    destruct (Z.eq_dec e1 971); [apply Hcarry; lia|apply Hbig; lia].
Qed.

(** A number that a float holds rounds to itself. *)
Lemma rounds_exact v f Mb Eb :
  rounds v f ->
  (v == F2Q Mb Eb)%Q -> Mb < 2 ^ 53 -> -1074 <= Eb <= 971 ->
  Py.is_finite f = true /\ (SF2Q f == v)%Q.
Proof.
  intros Hr Hv HMb HEb.
  assert (Hfin : Py.is_finite f = true)
    by (apply (rounds_finite v f Mb Eb); auto; lra).
  split; [exact Hfin|].
  pose proof (rounds_le v f Mb Eb Hr Hfin ltac:(lra) ltac:(lia) ltac:(lia)).
  pose proof (rounds_ge v f Mb Eb Hr Hfin ltac:(lra) ltac:(lia) ltac:(lia)).
  lra.
Qed.

(** The float is within one part in [2^52] of the number, unless both
    are below the least float with a full mantissa. *)
Lemma rounds_error v f :
  rounds v f -> Py.is_finite f = true ->
  (v * (1 - bpow (-52)) <= SF2Q f /\ SF2Q f <= v * (1 + bpow (-52)))%Q
  \/ (v < bpow (-1021) /\ SF2Q f <= bpow (-1021))%Q.
Proof.
  intros (m1 & m2 & e1 & -> & Hlo & Hhi & Hm2 & Hm1 & He1 & Hn) Hfin.
  rewrite pack_value by (try exact Hfin; lia).
  assert (H1 : (F2Q m1 e1 <= F2Q m2 e1)%Q) by (apply F2Q_le; lia).
  assert (H2 : (F2Q m2 e1 <= F2Q (m1 + 1) e1)%Q) by (apply F2Q_le; lia).
  assert (Hstep : (F2Q (m1 + 1) e1 == F2Q m1 e1 + bpow e1)%Q).
  { unfold F2Q. rewrite inject_Z_plus. ring. }
  destruct (Z.eq_dec e1 (-1074)) as [->|Hne].
  - right.
    assert (F2Q (m1 + 1) (-1074) <= bpow (-1021))%Q; [|lra].
    replace (-1021) with (-1074 + 53) by lia.
    rewrite <- (F2Q_shift 1 (-1074) 53) by lia. apply F2Q_le. lia.
  - left. specialize (Hn ltac:(lia)).
    assert (Hb : (bpow e1 <= v * bpow (-52))%Q).
    { assert (bpow e1 == F2Q (2 ^ 52) e1 * bpow (-52))%Q as ->.
      { unfold F2Q. rewrite <- (bpow_Z 52) by lia.
        transitivity (bpow e1 * (bpow 52 * bpow (-52)))%Q; [|ring].
        rewrite <- bpow_add. replace (52 + -52) with 0 by lia.
        rewrite bpow_0. ring. }
      apply Qmult_le_compat_r; [|apply Qlt_le_weak, bpow_pos].
      assert (F2Q (2 ^ 52) e1 <= F2Q m1 e1)%Q by (now apply F2Q_le). lra. }
    split; lra.
Qed.

(** ** The operations of [float] *)

Lemma Zdigits2_shift m k :
  0 < m -> 0 <= k -> Zdigits2 (m * 2 ^ k) = Zdigits2 m + k.
Proof.
  intros Hm Hk. pose proof (Zdigits2_bounds m Hm) as [Hlo Hhi].
  pose proof (Zdigits2_pos m Hm) as Hd.
  pose proof (Z.pow_pos_nonneg 2 k ltac:(lia) Hk) as Hp.
  apply Z.le_antisymm.
  - apply Zdigits2_le; [nia|]. rewrite Z.pow_add_r by lia. nia.
  - replace (Zdigits2 m + k) with (Zdigits2 m - 1 + k + 1) by lia.
    apply Zdigits2_ge; [lia|]. rewrite Z.pow_add_r by lia. nia.
Qed.

Lemma iter_xO m d : Z.pos (Pos.iter xO m d) = Z.pos m * 2 ^ Z.pos d.
Proof.
  induction d as [|d IH] using Pos.peano_ind.
  - cbn. lia.
  - rewrite Pos.iter_succ, Pos2Z.inj_succ, Z.pow_succ_r by lia.
    rewrite Pos2Z.inj_xO, IH. lia.
Qed.

Lemma shl_align_spec mx ex ex' :
  snd (shl_align mx ex ex') = Z.min ex ex'
  /\ Z.pos (fst (shl_align mx ex ex'))
     = Z.pos mx * 2 ^ (ex - Z.min ex ex').
Proof.
  unfold shl_align. destruct (ex' - ex) as [|d|d] eqn:Hd; cbn [fst snd].
  - replace (Z.min ex ex') with ex by lia.
    rewrite Z.sub_diag, Z.pow_0_r. lia.
  - replace (Z.min ex ex') with ex by lia.
    rewrite Z.sub_diag, Z.pow_0_r. lia.
  - replace (Z.min ex ex') with ex' by lia.
    rewrite iter_xO. replace (ex - ex') with (Z.pos d) by lia. lia.
Qed.

Lemma binary_round_rounds mx ex :
  rounds (F2Q (Z.pos mx) ex) (binary_round Py.prec Py.emax false mx ex).
Proof.
  unfold binary_round.
  pose proof (shl_align_spec mx ex
                (fexp Py.prec Py.emax (Z.pos (digits2_pos mx) + ex)))
    as [He Hm].
  destruct (shl_align mx ex _) as [mz ez]. cbn [fst snd] in He, Hm.
  assert (Hv : (F2Q (Z.pos mx) ex == F2Q (Z.pos mz) ez)%Q).
  { rewrite Hm. rewrite (F2Q_align (Z.pos mx) ex ez) by lia.
    now replace (ex - ez) with (ex - Z.min ex
      (fexp Py.prec Py.emax (Z.pos (digits2_pos mx) + ex))) by lia. }
  apply binary_round_aux_rounds; [lia| |].
  - split; [lra|]. split; [rewrite Hv; apply F2Q_lt; lia|].
    cbn [is_exact]. split; [intros _; exact Hv|reflexivity].
  - rewrite Hm, Zdigits2_shift by lia. cbn [Zdigits2].
    replace (Z.pos (digits2_pos mx) + (ex - Z.min ex
               (fexp Py.prec Py.emax (Z.pos (digits2_pos mx) + ex))) + ez)
      with (Z.pos (digits2_pos mx) + ex) by lia.
    lia.
Qed.

Lemma Z2SF_rounds d : 0 < d -> rounds (inject_Z d) (Py.Z2SF d).
Proof.
  intros Hd. destruct d as [|p|p]; try lia.
  unfold Py.Z2SF. cbn [binary_normalize].
  pose proof (binary_round_rounds p 0) as H.
  unfold rounds in *. destruct H as (m1 & m2 & e1 & H).
  exists m1, m2, e1. rewrite <- (F2Q_int (Z.pos p)). exact H.
Qed.

Lemma new_location_exact d r :
  is_exact (new_location d r) = (r =? 0).
Proof.
  unfold new_location, new_location_even, new_location_odd.
  destruct (Z.even d), (r =? 0); reflexivity.
Qed.

Lemma Qdiv_F2Q m1 e1 m2 e2 :
  0 < m2 ->
  (F2Q m1 e1 / F2Q m2 e2
   == (inject_Z m1 / inject_Z m2) * bpow (e1 - e2))%Q.
Proof.
  intros Hm2. unfold F2Q.
  replace (e1 - e2) with (e1 + - e2) by lia.
  rewrite bpow_add. unfold bpow at 4. rewrite Qpower_opp. fold (bpow e2).
  assert (~ (inject_Z m2 == 0)%Q).
  { intros H. rewrite (Zlt_Qlt 0 m2) in Hm2. change (inject_Z 0) with 0%Q in Hm2.
    lra. }
  pose proof (bpow_pos e2). field. split; [lra|assumption].
Qed.

Lemma SFdiv_core_binary_spec m1 e1 m2 e2 :
  0 < m1 -> 0 < m2 ->
  exists q e l,
    SFdiv_core_binary Py.prec Py.emax m1 e1 m2 e2 = (q, e, l)
    /\ 0 <= q
    /\ located q e l (F2Q m1 e1 / F2Q m2 e2)%Q
    /\ e <= fexp Py.prec Py.emax (Zdigits2 q + e).
Proof.
  intros Hm1 Hm2. unfold SFdiv_core_binary.
  set (d1 := Zdigits2 m1). set (d2 := Zdigits2 m2).
  set (e' := Z.min (fexp Py.prec Py.emax (d1 + e1 - (d2 + e2))) (e1 - e2)).
  set (s := e1 - e2 - e').
  assert (Hs : 0 <= s) by (subst s e'; lia).
  set (m' := match s with Z0 => m1 | Z.pos _ => Z.shiftl m1 s | Z.neg _ => 0 end).
  assert (Hm' : m' = m1 * 2 ^ s).
  { subst m'. destruct s as [|p|p]; [rewrite Z.pow_0_r; lia| |lia].
    now rewrite Z.shiftl_mul_pow2 by lia. }
  clearbody m'.
  pose proof (Z.div_mod m' m2 ltac:(lia)) as Hdm.
  pose proof (Z.mod_pos_bound m' m2 Hm2) as Hr.
  unfold Z.div, Z.modulo in Hdm, Hr.
  destruct (Z.div_eucl m' m2) as [q r].
  pose proof (Z.pow_pos_nonneg 2 s ltac:(lia) Hs) as Hps.
  assert (Hq : 0 <= q) by nia.
  exists q, e', (new_location m2 r). split; [reflexivity|].
  split; [exact Hq|].
  assert (Hv : (F2Q m1 e1 / F2Q m2 e2
                == F2Q q e' + (inject_Z r / inject_Z m2) * bpow e')%Q).
  { rewrite Qdiv_F2Q by exact Hm2.
    replace (e1 - e2) with (s + e') by (subst s; lia).
    rewrite bpow_add, (bpow_Z s Hs). unfold F2Q.
    assert (Hz : (inject_Z m1 * inject_Z (2 ^ s)
                  == inject_Z m2 * inject_Z q + inject_Z r)%Q).
    { rewrite <- !inject_Z_mult, <- inject_Z_plus. now rewrite <- Hm', Hdm. }
    assert (~ (inject_Z m2 == 0)%Q).
    { intros H. rewrite (Zlt_Qlt 0 m2) in Hm2.
      change (inject_Z 0) with 0%Q in Hm2. lra. }
    transitivity ((inject_Z m1 * inject_Z (2 ^ s)) / inject_Z m2 * bpow e')%Q;
      [field; assumption|].
    rewrite Hz. field. assumption. }
  assert (Hfrac : (0 <= inject_Z r / inject_Z m2 < 1)%Q).
  { assert (0 < inject_Z m2)%Q
      by (rewrite (Zlt_Qlt 0 m2) in Hm2; exact Hm2).
    assert (0 <= inject_Z r)%Q
      by (change 0%Q with (inject_Z 0); rewrite <- Zle_Qle; lia).
    assert (inject_Z r < inject_Z m2)%Q by (rewrite <- Zlt_Qlt; lia).
    split.
    - apply Qle_shift_div_l; [assumption|]. lra.
    - apply Qlt_shift_div_r; [assumption|]. lra. }
  pose proof (bpow_pos e') as Hb.
  assert (Hstep : (F2Q (q + 1) e' == F2Q q e' + bpow e')%Q)
    by (unfold F2Q; rewrite inject_Z_plus; ring).
  split; [split; [|split]|].
  - rewrite Hv. destruct Hfrac as [Hf0 _].
    assert (0 <= inject_Z r / inject_Z m2 * bpow e')%Q; [|lra].
    apply Qmult_le_0_compat; lra.
  - rewrite Hv, Hstep. destruct Hfrac as [_ Hf1].
    assert (inject_Z r / inject_Z m2 * bpow e' < 1 * bpow e')%Q; [|lra].
    apply Qmult_lt_compat_r; assumption.
  - rewrite new_location_exact, Z.eqb_eq, Hv. split.
    + intros ->. change (inject_Z 0) with 0%Q.
      unfold Qdiv. ring.
    + intros H0. destruct (Z.eq_dec r 0) as [|Hne]; [assumption|exfalso].
      assert (0 < inject_Z r / inject_Z m2)%Q.
      { apply Qlt_shift_div_l.
        - rewrite (Zlt_Qlt 0 m2) in Hm2; exact Hm2.
        - rewrite Qmult_0_l. change 0%Q with (inject_Z 0).
          rewrite <- Zlt_Qlt. lia. }
      assert (0 < inject_Z r / inject_Z m2 * bpow e')%Q; [|lra].
      apply Qmult_lt_0_compat; assumption.
  - rewrite fexp_eq.
    assert (He' : e' <= Z.max (d1 + e1 - (d2 + e2) - 53) (-1074))
      by (subst e'; rewrite fexp_eq; lia).
    pose proof (Zdigits2_bounds m1 Hm1) as [Hlo1 _].
    pose proof (Zdigits2_bounds m2 Hm2) as [_ Hhi2].
    pose proof (Zdigits2_pos m1 Hm1). pose proof (Zdigits2_pos m2 Hm2).
    fold d1 in Hlo1, H. fold d2 in Hhi2, H0.
    destruct (Z_le_gt_dec e' (-1074)) as [|Hgt]; [lia|].
    (* the quotient has a full mantissa *)
    assert (He'' : e' <= d1 + e1 - (d2 + e2) - 53) by lia.
    assert (Hs53 : d2 - d1 + 53 <= s) by (subst s; lia).
    assert (Hbig : 2 ^ (d1 + s - d2 - 1) <= q).
    { assert (Hk : 0 <= d1 + s - d2 - 1) by lia.
      apply Z.lt_succ_r.
      assert (2 ^ (d1 + s - d2 - 1) * m2 < (q + 1) * m2); [|nia].
      assert (2 ^ (d1 + s - d2 - 1) * m2 < 2 ^ (d1 + s - d2 - 1) * 2 ^ d2)
        by (apply Z.mul_lt_mono_pos_l; [apply Z.pow_pos_nonneg; lia|lia]).
      rewrite <- Z.pow_add_r in H1 by lia.
      replace (d1 + s - d2 - 1 + d2) with (d1 - 1 + s) in H1 by lia.
      rewrite Z.pow_add_r in H1 by lia.
      assert (2 ^ (d1 - 1) * 2 ^ s <= m1 * 2 ^ s)
        by (apply Z.mul_le_mono_nonneg_r; lia).
      nia. }
    pose proof (Zdigits2_ge q (d1 + s - d2 - 1) ltac:(lia) Hbig).
    subst s. lia.
Qed.

Lemma int_truediv_rounds a b :
  0 < a -> 0 < b ->
  rounds (inject_Z a / inject_Z b) (Py.int_truediv a b).
Proof.
  intros Ha Hb. unfold Py.int_truediv.
  replace (a <? 0) with false by (symmetry; apply Z.ltb_ge; lia).
  replace (b <? 0) with false by (symmetry; apply Z.ltb_ge; lia).
  rewrite !Z.abs_eq by lia. cbn [xorb].
  destruct (SFdiv_core_binary_spec a 0 b 0 Ha Hb)
    as (q & e & l & -> & Hq & Hloc & He).
  destruct a as [|p|p]; try lia.
  apply binary_round_aux_rounds; try assumption.
  destruct Hloc as (H1 & H2 & H3).
  rewrite !F2Q_int in *. repeat split; try assumption; apply H3.
Qed.

Lemma fdiv_rounds mx ex my ey :
  rounds (F2Q (Z.pos mx) ex / F2Q (Z.pos my) ey)
    (Py.fdiv (S754_finite false mx ex) (S754_finite false my ey)).
Proof.
  unfold Py.fdiv, SFdiv. cbn [xorb].
  destruct (SFdiv_core_binary_spec (Z.pos mx) ex (Z.pos my) ey)
    as (q & e & l & -> & Hq & Hloc & He); try lia.
  now apply binary_round_aux_rounds.
Qed.

Lemma Zdigits2_mul a b :
  0 < a -> 0 < b -> Zdigits2 a + Zdigits2 b - 1 <= Zdigits2 (a * b).
Proof.
  intros Ha Hb.
  pose proof (Zdigits2_bounds a Ha) as [Hla _].
  pose proof (Zdigits2_bounds b Hb) as [Hlb _].
  pose proof (Zdigits2_pos a Ha). pose proof (Zdigits2_pos b Hb).
  replace (Zdigits2 a + Zdigits2 b - 1)
    with (Zdigits2 a - 1 + (Zdigits2 b - 1) + 1) by lia.
  apply Zdigits2_ge; [lia|]. rewrite Z.pow_add_r by lia.
  apply Z.mul_le_mono_nonneg; try assumption; apply Z.pow_nonneg; lia.
Qed.

Lemma valid_digits s m e :
  valid_binary Py.prec Py.emax (S754_finite s m e) = true ->
  -1074 <= e /\ (-1074 < e -> Zdigits2 (Z.pos m) = 53).
Proof.
  intros H. apply valid_binary_bounds in H as (Hm & He & Hn).
  split; [lia|]. intros Hsub. specialize (Hn Hsub).
  apply Z.le_antisymm.
  - apply Zdigits2_le; lia.
  - apply (Zdigits2_ge (Z.pos m) 52); lia.
Qed.

Lemma fmul_rounds mx ex my ey :
  valid_binary Py.prec Py.emax (S754_finite false mx ex) = true ->
  valid_binary Py.prec Py.emax (S754_finite false my ey) = true ->
  rounds (F2Q (Z.pos mx) ex * F2Q (Z.pos my) ey)
    (Py.fmul (S754_finite false mx ex) (S754_finite false my ey)).
Proof.
  intros Hx Hy. unfold Py.fmul, SFmul. cbn [xorb].
  assert (Hv : (F2Q (Z.pos mx) ex * F2Q (Z.pos my) ey
                == F2Q (Z.pos (mx * my)) (ex + ey))%Q).
  { unfold F2Q. rewrite Pos2Z.inj_mul, inject_Z_mult, bpow_add. ring. }
  apply binary_round_aux_rounds; [lia| |].
  - split; [lra|]. split; [rewrite Hv; apply F2Q_lt; lia|].
    cbn [is_exact]. split; [intros _; exact Hv|reflexivity].
  - rewrite fexp_eq, Pos2Z.inj_mul.
    pose proof (Zdigits2_mul (Z.pos mx) (Z.pos my) ltac:(lia) ltac:(lia)).
    pose proof (Zdigits2_pos (Z.pos mx) ltac:(lia)).
    pose proof (Zdigits2_pos (Z.pos my) ltac:(lia)).
    apply valid_digits in Hx as [Hex Hdx].
    apply valid_digits in Hy as [Hey Hdy].
    destruct (Z.eq_dec ex (-1074)), (Z.eq_dec ey (-1074)); try lia;
      try specialize (Hdx ltac:(lia)); try specialize (Hdy ltac:(lia)); lia.
Qed.

Lemma fadd_rounds mx ex my ey :
  rounds (F2Q (Z.pos mx) ex + F2Q (Z.pos my) ey)
    (Py.fadd (S754_finite false mx ex) (S754_finite false my ey)).
Proof.
  unfold Py.fadd, SFadd. cbn [cond_Zopp].
  pose proof (shl_align_spec mx ex (Z.min ex ey)) as [_ Hx].
  pose proof (shl_align_spec my ey (Z.min ex ey)) as [_ Hy].
  replace (Z.min ex (Z.min ex ey)) with (Z.min ex ey) in Hx by lia.
  replace (Z.min ey (Z.min ex ey)) with (Z.min ex ey) in Hy by lia.
  set (ez := Z.min ex ey) in *.
  assert (Hv : (F2Q (Z.pos mx) ex + F2Q (Z.pos my) ey
                == F2Q (Z.pos (fst (shl_align mx ex ez))
                        + Z.pos (fst (shl_align my ey ez))) ez)%Q).
  { rewrite Hx, Hy.
    rewrite (F2Q_align (Z.pos mx) ex ez), (F2Q_align (Z.pos my) ey ez)
      by (subst ez; lia).
    unfold F2Q. rewrite inject_Z_plus. ring. }
  destruct (Z.pos (fst (shl_align mx ex ez))
            + Z.pos (fst (shl_align my ey ez))) as [|p|p] eqn:Hsum; try lia.
  cbn [binary_normalize].
  pose proof (binary_round_rounds p ez) as (m1 & m2 & e1 & H).
  exists m1, m2, e1. rewrite Hv. exact H.
Qed.

(** [int] of a float that is not negative is its whole part. *)
Lemma trunc_floor m e :
  (inject_Z (Py.trunc false m e) <= F2Q (Z.pos m) e)%Q
  /\ (F2Q (Z.pos m) e < inject_Z (Py.trunc false m e + 1))%Q.
Proof.
  unfold Py.trunc. destruct e as [|p|p].
  - rewrite Z.pow_0_r, Z.mul_1_r, F2Q_int. rewrite <- Zlt_Qlt. split; [lra|lia].
  - rewrite <- !F2Q_int.
    rewrite (F2Q_align (Z.pos m) (Z.pos p) 0) by lia.
    rewrite Z.sub_0_r. split; [lra|apply F2Q_lt; lia].
  - assert (Hp : 0 < 2 ^ Z.pos p) by (apply Z.pow_pos_nonneg; lia).
    pose proof (Z.div_mod (Z.pos m) (2 ^ Z.pos p) ltac:(lia)) as Hdm.
    pose proof (Z.mod_pos_bound (Z.pos m) (2 ^ Z.pos p) Hp) as Hr.
    rewrite <- !F2Q_int.
    rewrite (F2Q_align _ 0 (Z.neg p)), (F2Q_align (_ + 1) 0 (Z.neg p)) by lia.
    replace (0 - Z.neg p) with (Z.pos p) by lia.
    split; [apply F2Q_le|apply F2Q_lt]; lia.
Qed.

Lemma trunc_unique m e k :
  (inject_Z k <= F2Q (Z.pos m) e)%Q ->
  (F2Q (Z.pos m) e < inject_Z (k + 1))%Q ->
  Py.trunc false m e = k.
Proof.
  intros Hlo Hhi. destruct (trunc_floor m e) as [Tlo Thi].
  assert (inject_Z k < inject_Z (Py.trunc false m e + 1))%Q by lra.
  assert (inject_Z (Py.trunc false m e) < inject_Z (k + 1))%Q by lra.
  rewrite <- Zlt_Qlt in *. lia.
Qed.

(** ** The full part of the bar, as a number *)

Lemma rounds_cases v f :
  rounds v f -> Py.is_finite f = true ->
  (f = S754_zero false /\ (v < bpow (-1074))%Q)
  \/ exists m e, f = S754_finite false m e.
Proof.
  intros (m1 & m2 & e1 & -> & Hlo & Hhi & Hm2 & Hm1 & He1 & Hn).
  unfold pack. destruct m2 as [|p|p]; [|right|lia].
  - intros _. left. split; [reflexivity|].
    assert (m1 = 0) by lia. subst m1.
    destruct (Z.eq_dec e1 (-1074)) as [->|Hne].
    + change (0 + 1) with 1 in Hhi. unfold F2Q in Hhi.
      change (inject_Z 1) with 1%Q in Hhi. lra.
    + specialize (Hn ltac:(lia)). lia.
  - destruct (Z.pos p <? 2 ^ 53).
    + destruct (e1 <=? 971); [eauto|discriminate].
    + destruct (e1 + 1 <=? 971); [eauto|discriminate].
Qed.

Lemma rounds_pos v f : rounds v f -> (0 <= v)%Q.
Proof.
  intros (m1 & m2 & e1 & _ & Hlo & _ & _ & Hm1 & _).
  pose proof (F2Q_nonneg m1 e1 ltac:(lia)). lra.
Qed.

Lemma rounds_value_nonneg v f : rounds v f -> (0 <= SF2Q f)%Q.
Proof.
  intros H. pose proof (rounds_nonneg v f H) as Hn.
  destruct f as [s|s| |s m e]; cbn in *; try lra. subst s.
  apply F2Q_nonneg. lia.
Qed.

Lemma bpow_m52 : (bpow (-52) == 1 # 4503599627370496)%Q.
Proof. reflexivity. Qed.

Lemma bpow_m50 : (bpow (-50) == 1 # 1125899906842624)%Q.
Proof. reflexivity. Qed.

Lemma bpow_m1021 : (bpow (-1021) <= 1 # 1024)%Q.
Proof.
  assert (bpow (-10) == 1 # 1024)%Q as <- by reflexivity.
  apply bpow_le. lia.
Qed.

Lemma float_25 : Py.Z2SF 25 = S754_finite false 7036874417766400 (-48).
Proof. reflexivity. Qed.

Lemma float_25_value : (F2Q 7036874417766400 (-48) == 25)%Q.
Proof. reflexivity. Qed.

Lemma float_25_valid :
  valid_binary Py.prec Py.emax (S754_finite false 7036874417766400 (-48))
  = true.
Proof. reflexivity. Qed.

(** [int(25 * q)] for the float [q] that a quotient [u] rounds to. *)
Lemma times_25_rounds u q filled :
  rounds u q ->
  res_bind (Py.mul (Py.Int 25) (Py.Float q)) Py.int = Ret filled ->
  ((u <= 1)%Q -> filled <= 25)
  /\ ((u == 1)%Q -> filled = 25)
  /\ (forall (a : Q) (k : Z),
        (u * (1 - bpow (-52)) <= a)%Q -> (a <= u * (1 + bpow (-52)))%Q ->
        (inject_Z k <= 25 * a * (1 - bpow (-50)))%Q ->
        (25 * a * (1 + bpow (-50)) < inject_Z (k + 1))%Q ->
        filled = k).
Proof.
  intros Hq.
  change (Py.mul (Py.Int 25) (Py.Float q))
    with (Ret (Py.Float
                 (Py.fmul (S754_finite false 7036874417766400 (-48)) q))).
  cbn [res_bind Py.int].
  pose proof (rounds_pos u q Hq) as Hu.
  pose proof bpow_m52 as E52. pose proof bpow_m50 as E50.
  pose proof bpow_m1021 as E1021. pose proof (bpow_pos (-1021)) as P1021.
  destruct (Py.is_finite q) eqn:Hfin.
  2:{ destruct q as [s|s| |s m e]; try discriminate; cbn; discriminate. }
  destruct (rounds_cases u q Hq Hfin) as [[-> Hsmall]|(m & e & ->)].
  - (* the quotient rounds to zero *)
    cbn. intros [= <-].
    assert (bpow (-1074) <= bpow (-1021))%Q by (apply bpow_le; lia).
    split; [lia|]. split; [intros H1; lra|].
    intros a k Ha1 Ha2 Hk1 Hk2. rewrite E52, E50 in *.
    assert (inject_Z k < inject_Z 1)%Q by (change (inject_Z 1) with 1%Q; lra).
    assert (inject_Z 0 < inject_Z (k + 1))%Q
      by (change (inject_Z 0) with 0%Q; lra).
    rewrite <- Zlt_Qlt in *. lia.
  - pose proof (rounds_valid _ _ Hq) as Hval.
    pose proof (fmul_rounds 7036874417766400 (-48) m e float_25_valid Hval)
      as Hp.
    apply (rounds_ext _ (25 * F2Q (Z.pos m) e)) in Hp;
      [|now rewrite float_25_value].
    set (p := Py.fmul _ _) in *.
    destruct (Py.is_finite p) eqn:Hpfin.
    2:{ destruct p as [s|s| |s mp ep]; try discriminate; cbn; discriminate. }
    pose proof (rounds_nonneg _ _ Hp) as Hpn.
    pose proof (rounds_error _ _ Hq Hfin) as Hqe.
    pose proof (rounds_error _ _ Hp Hpfin) as Hpe.
    cbn [SF2Q] in Hqe.
    set (Q := F2Q (Z.pos m) e) in *.
    assert (HQ0 : (0 <= Q)%Q) by (apply F2Q_nonneg; lia).
    destruct p as [s|s| |s mp ep]; try discriminate;
      cbn [nonneg] in Hpn; subst s; cbn [Py.int_of_float SF2Q] in *.
    + (* the product rounds to zero *)
      intros [= <-].
      destruct (rounds_cases _ _ Hp Hpfin) as [[_ Hps]|(? & ? & ?)];
        [|discriminate].
      assert (bpow (-1074) <= bpow (-1021))%Q by (apply bpow_le; lia).
      split; [lia|]. split.
      * intros H1.
        pose proof (rounds_exact u _ 1 0 Hq ltac:(rewrite F2Q_int; exact H1)
                      ltac:(lia) ltac:(lia)) as [_ HQ1].
        cbn [SF2Q] in HQ1. fold Q in HQ1. lra.
      * intros a k Ha1 Ha2 Hk1 Hk2. rewrite E52, E50 in *.
        assert (inject_Z k < inject_Z 1)%Q.
        { change (inject_Z 1) with 1%Q. destruct Hqe as [[Hq1 Hq2]|[Hq1 Hq2]]; lra. }
        assert (inject_Z 0 < inject_Z (k + 1))%Q
          by (change (inject_Z 0) with 0%Q; lra).
        rewrite <- Zlt_Qlt in *. lia.
    + intros [= <-].
      set (P := F2Q (Z.pos mp) ep) in *.
      destruct (trunc_floor mp ep) as [Tlo Thi]. fold P in Tlo, Thi.
      split; [|split].
      * intros H1.
        pose proof (rounds_le u _ 1 0 Hq Hfin ltac:(rewrite F2Q_int; exact H1)
                      ltac:(lia) ltac:(lia)) as HQ1.
        cbn [SF2Q] in HQ1. fold Q in HQ1. rewrite F2Q_int in HQ1.
        pose proof (rounds_le _ _ 25 0 Hp Hpfin
                      ltac:(rewrite F2Q_int; change (inject_Z 25) with 25%Q;
                            change (inject_Z 1) with 1%Q in HQ1; lra)
                      ltac:(lia) ltac:(lia)) as HP.
        cbn [SF2Q] in HP. fold P in HP. rewrite F2Q_int in HP.
        assert (inject_Z (Py.trunc false mp ep) <= inject_Z 25)%Q by lra.
        now rewrite <- Zle_Qle in H.
      * intros H1.
        pose proof (rounds_exact u _ 1 0 Hq ltac:(rewrite F2Q_int; exact H1)
                      ltac:(lia) ltac:(lia)) as [_ HQ1].
        cbn [SF2Q] in HQ1. fold Q in HQ1.
        pose proof (rounds_exact _ _ 25 0 Hp
                      ltac:(rewrite F2Q_int; change (inject_Z 25) with 25%Q; lra)
                      ltac:(lia) ltac:(lia)) as [_ HP].
        cbn [SF2Q] in HP. fold P in HP.
        apply trunc_unique; fold P.
        -- change (inject_Z 25) with 25%Q. lra.
        -- change (inject_Z (25 + 1)) with 26%Q. lra.
      * intros a k Ha1 Ha2 Hk1 Hk2. rewrite E52, E50 in *.
        destruct Hqe as [[Hq1 Hq2]|[Hq1 Hq2]], Hpe as [[Hp1 Hp2]|[Hp1 Hp2]].
        -- apply trunc_unique; fold P; lra.
        -- assert (Py.trunc false mp ep = 0)
             by (apply trunc_unique; fold P;
                 [change (inject_Z 0) with 0%Q; apply F2Q_nonneg; lia
                 |change (inject_Z (0 + 1)) with 1%Q; lra]).
           assert (inject_Z k < inject_Z 1)%Q
             by (change (inject_Z 1) with 1%Q; lra).
           assert (inject_Z 0 < inject_Z (k + 1))%Q
             by (change (inject_Z 0) with 0%Q; lra).
           rewrite <- Zlt_Qlt in *. assert (k = 0) by lia. subst k. exact H.
        -- assert (Py.trunc false mp ep = 0)
             by (apply trunc_unique; fold P;
                 [change (inject_Z 0) with 0%Q; apply F2Q_nonneg; lia
                 |change (inject_Z (0 + 1)) with 1%Q; lra]).
           assert (inject_Z k < inject_Z 1)%Q
             by (change (inject_Z 1) with 1%Q; lra).
           assert (inject_Z 0 < inject_Z (k + 1))%Q
             by (change (inject_Z 0) with 0%Q; lra).
           rewrite <- Zlt_Qlt in *. assert (k = 0) by lia. subst k. exact H.
        -- assert (Py.trunc false mp ep = 0)
             by (apply trunc_unique; fold P;
                 [change (inject_Z 0) with 0%Q; apply F2Q_nonneg; lia
                 |change (inject_Z (0 + 1)) with 1%Q; lra]).
           assert (inject_Z k < inject_Z 1)%Q
             by (change (inject_Z 1) with 1%Q; lra).
           assert (inject_Z 0 < inject_Z (k + 1))%Q
             by (change (inject_Z 0) with 0%Q; lra).
           rewrite <- Zlt_Qlt in *. assert (k = 0) by lia. subst k. exact H.
Qed.

Lemma inject_Z_pos d : 0 < d -> (0 < inject_Z d)%Q.
Proof. intros H. now rewrite (Zlt_Qlt 0 d) in H. Qed.

Lemma inject_Z_ge_1 d : 0 < d -> (1 <= inject_Z d)%Q.
Proof.
  intros H. change 1%Q with (inject_Z 1). rewrite <- Zle_Qle. lia.
Qed.

(** The quotient [max(0, remaining) / initial] when time is left: the
    float that [u] rounds to, where [u] is the exact quotient, with
    the initial duration taken to a float first when the time left is
    one. *)
Lemma truediv_rounds rs d n progress :
  0 < d -> Py.gt_int rs 0 = true -> Py.int rs = Ret n ->
  Py.truediv_int rs d = Ret progress ->
  exists q u,
    progress = Py.Float q /\ rounds u q
    /\ (u * (1 - bpow (-52)) <= value rs / inject_Z d)%Q
    /\ (value rs / inject_Z d <= u * (1 + bpow (-52)))%Q
    /\ (0 < value rs)%Q
    /\ (valid rs -> (value rs <= inject_Z d)%Q -> (u <= 1)%Q)
    /\ (valid rs -> (value rs == inject_Z d)%Q -> (u == 1)%Q).
Proof.
  intros Hd Hgt Hint. pose proof (inject_Z_pos d Hd) as Hdq.
  pose proof bpow_m52 as E52.
  destruct rs as [a|f]; cbn [Py.truediv_int Py.gt_int value valid] in *.
  - apply Z.ltb_lt in Hgt.
    destruct (Py.is_finite (Py.int_truediv a d)); [|discriminate].
    intros [= <-].
    pose proof (int_truediv_rounds a d Hgt Hd) as Hr.
    pose proof (rounds_pos _ _ Hr) as Hu.
    exists (Py.int_truediv a d), (inject_Z a / inject_Z d)%Q.
    split; [reflexivity|]. split; [exact Hr|].
    rewrite E52. split; [lra|]. split; [lra|].
    split; [now apply inject_Z_pos|]. split.
    + intros _ Hle. apply Qle_shift_div_r; [exact Hdq|]. lra.
    + intros _ Heq. rewrite Heq. field. lra.
  - unfold Py.float_of_int.
    destruct (Py.is_finite (Py.Z2SF d)) eqn:Hfin; [|discriminate].
    cbn [res_bind]. intros [= <-].
    pose proof (Z2SF_rounds d Hd) as Hfd.
    pose proof (inject_Z_ge_1 d Hd) as Hd1.
    destruct (rounds_cases _ _ Hfd Hfin) as [[_ Hs]|(mf & ef & Ef)].
    { exfalso. assert (bpow (-1074) <= bpow 0)%Q by (apply bpow_le; lia).
      rewrite bpow_0 in H. lra. }
    pose proof (rounds_error _ _ Hfd Hfin) as Herr.
    rewrite Ef in *. cbn [SF2Q] in Herr.
    set (FD := F2Q (Z.pos mf) ef) in *.
    destruct Herr as [[Hf1 Hf2]|[Hf1 _]];
      [|exfalso; pose proof bpow_m1021; lra].
    rewrite E52 in Hf1, Hf2.
    assert (HFD : (0 < FD)%Q) by lra.
    change (Py.Z2SF 0) with (S754_zero false) in Hgt.
    destruct f as [s|s| |[] m e]; cbn in Hgt, Hint;
      try discriminate Hgt; try discriminate Hint.
    cbn [SF2Q].
    set (X := F2Q (Z.pos m) e).
    assert (HX : (0 < X)%Q).
    { subst X. rewrite <- (F2Q_0 e). apply F2Q_lt. lia. }
    exists (Py.fdiv (S754_finite false m e) (S754_finite false mf ef)),
      (X / FD)%Q.
    split; [reflexivity|]. split; [apply fdiv_rounds|].
    assert (Hu : (0 < X / FD)%Q) by (apply Qlt_shift_div_l; lra).
    assert (Hx1 : (X / FD * FD == X)%Q) by (field; lra).
    assert (Hx2 : (X / inject_Z d * inject_Z d == X)%Q) by (field; lra).
    rewrite E52.
    set (u := (X / FD)%Q) in *. set (a := (X / inject_Z d)%Q) in *.
    split; [|split; [|split; [exact HX|split]]].
    + assert (u * (1 - (1 # 4503599627370496)) * inject_Z d
              <= a * inject_Z d)%Q; [nra|].
      apply Qmult_le_r in H; assumption.
    + assert (a * inject_Z d
              <= u * (1 + (1 # 4503599627370496)) * inject_Z d)%Q; [nra|].
      apply Qmult_le_r in H; assumption.
    + intros Hval Hle.
      apply valid_binary_bounds in Hval as (Hm & He & _).
      pose proof (rounds_ge _ _ (Z.pos m) e Hfd Hfin Hle ltac:(lia) ltac:(lia))
        as Hge.
      cbn [SF2Q] in Hge. fold FD X in Hge.
      subst u. apply Qle_shift_div_r; [exact HFD|]. lra.
    + intros Hval Heq.
      apply valid_binary_bounds in Hval as (Hm & He & _).
      pose proof (rounds_exact _ _ (Z.pos m) e Hfd ltac:(symmetry; exact Heq)
                    Hm ltac:(lia)) as [_ Hex].
      cbn [SF2Q] in Hex. fold FD in Hex.
      subst u. fold X in Heq. rewrite Hex, <- Heq. field. lra.
Qed.


(** * Properties *)

(** ** Characters *)

Lemma digit_zero_spec a z :
  digit_zero a = Some z -> In z digit_zeros /\ z <= a <= z + 9.
Proof.
  unfold digit_zero. intros H. apply find_some in H as [Hin Hr].
  split; [exact Hin|]. apply Bool.andb_true_iff in Hr. lia.
Qed.

(** What holds of the ten digits of every run holds of every digit. *)
Lemma digit_prop (P : Z -> bool) :
  forallb (fun z => forallb (fun i => P (z + i)) ten) digit_zeros = true ->
  forall a, is_digit a = true -> P a = true.
Proof.
  intros Hall a Ha. unfold is_digit in Ha.
  destruct (digit_zero a) as [z|] eqn:Hz; [|discriminate].
  apply digit_zero_spec in Hz as [Hin Hr].
  rewrite forallb_forall in Hall. specialize (Hall z Hin).
  rewrite forallb_forall in Hall. specialize (Hall (a - z)).
  replace (z + (a - z)) with a in Hall by lia. apply Hall.
  unfold ten. cbn [In]. lia.
Qed.

Lemma space_in a : is_space a = true -> In a space_list.
Proof.
  unfold is_space.
  rewrite !Bool.orb_true_iff, !Bool.andb_true_iff, !Z.leb_le, !Z.eqb_eq.
  intros H. unfold space_list. cbn [In]. lia.
Qed.

Lemma space_prop (P : Z -> bool) :
  forallb P space_list = true -> forall a, is_space a = true -> P a = true.
Proof.
  intros Hall a Ha. rewrite forallb_forall in Hall.
  apply Hall, space_in, Ha.
Qed.

Lemma matched_unit_in a : matched_unit a = true -> In a unit_list.
Proof.
  unfold matched_unit, Spec.is_unit, lower, letter_h, letter_m, letter_s.
  destruct ((65 <=? a) && (a <=? 90)) eqn:Hc;
    rewrite !Bool.orb_true_iff, !Z.eqb_eq; intros H;
    unfold unit_list; cbn [In]; lia.
Qed.

Lemma digit_not_space a : is_digit a = true -> is_space a = false.
Proof.
  intros H. apply Bool.negb_true_iff. revert a H.
  apply (digit_prop (fun c => negb (is_space c))). vm_compute. reflexivity.
Qed.

Lemma digit_not_unit a : is_digit a = true -> matched_unit a = false.
Proof.
  intros H. apply Bool.negb_true_iff. revert a H.
  apply (digit_prop (fun c => negb (matched_unit c))). vm_compute. reflexivity.
Qed.

Lemma space_not_unit a : is_space a = true -> matched_unit a = false.
Proof.
  intros H. apply Bool.negb_true_iff. revert a H.
  apply (space_prop (fun c => negb (matched_unit c))). vm_compute. reflexivity.
Qed.

Lemma space_not_digit a : is_space a = true -> is_digit a = false.
Proof.
  intros H. apply Bool.negb_true_iff. revert a H.
  apply (space_prop (fun c => negb (is_digit c))). vm_compute. reflexivity.
Qed.

Lemma digit_not_point a : is_digit a = true -> (point =? a) = false.
Proof.
  intros H. apply Bool.negb_true_iff. revert a H.
  apply (digit_prop (fun c => negb (point =? c))). vm_compute. reflexivity.
Qed.

Lemma point_not_digit : is_digit point = false.
Proof. reflexivity. Qed.

Lemma digit_val_range a : is_digit a = true -> 0 <= digit_val a <= 9.
Proof.
  unfold is_digit, digit_val.
  destruct (digit_zero a) as [z|] eqn:Hz; [|discriminate].
  apply digit_zero_spec in Hz. lia.
Qed.

Lemma unit_is_matched a : Spec.is_unit a = true -> matched_unit a = true.
Proof. intros H. unfold matched_unit. now rewrite H. Qed.

Lemma lit_point a : Re.lit_matches true point a = (point =? a).
Proof.
  unfold Re.lit_matches.
  change (lower point) with point.
  change (also_matches point) with (@nil Z).
  cbn [existsb]. rewrite Bool.orb_false_r. unfold lower.
  destruct ((65 <=? a) && (a <=? 90)) eqn:Hc; [|reflexivity].
  apply Bool.andb_true_iff in Hc. rewrite !Z.leb_le in Hc.
  rewrite (proj2 (Z.eqb_neq point (a + 32))), (proj2 (Z.eqb_neq point a));
    [reflexivity|unfold point; lia|unfold point; lia].
Qed.

Lemma lit_unit a :
  Re.lit_matches true letter_h a || Re.lit_matches true letter_m a
  || Re.lit_matches true letter_s a = matched_unit a.
Proof.
  unfold Re.lit_matches, matched_unit, Spec.is_unit.
  change (lower letter_h) with letter_h.
  change (lower letter_m) with letter_m.
  change (lower letter_s) with letter_s.
  change (also_matches letter_h) with (@nil Z).
  change (also_matches letter_m) with (@nil Z).
  change (also_matches letter_s) with [383].
  cbn [existsb]. rewrite !Bool.orb_false_r.
  rewrite (Z.eqb_sym letter_h), (Z.eqb_sym letter_m), (Z.eqb_sym letter_s).
  now rewrite Bool.orb_assoc.
Qed.

(** ** The greedy loop over one character class *)

Section Loop.
Context {A : Type}.
Implicit Types (k : @Re.cont A) (s : text) (c : Re.captures).

Lemma loop_one p fuel s c k :
  (length s <= fuel)%nat ->
  Re.loop (Re.one p) fuel s c k = star_one p s c k.
Proof.
  revert s c; induction fuel as [|fuel IH]; intros s c Hlen.
  - destruct s; [reflexivity | simpl in Hlen; lia].
  - destruct s as [|a s']; simpl.
    + reflexivity.
    + destruct (p a); [|reflexivity].
      replace (length s' <? S (length s'))%nat with true
        by (symmetry; apply Nat.ltb_lt; lia).
      rewrite IH by (simpl in Hlen; lia). reflexivity.
Qed.

(** A continuation that fails on every text whose head is in the class
    makes the loop take the whole run of the class. *)
Lemma star_one_all p s c k :
  (forall a t c', p a = true -> k (a :: t) c' = None) ->
  star_one p s c k = k (Spec.drop_while p s) c.
Proof.
  intros Hk; induction s as [|a s' IH]; simpl; [reflexivity|].
  destruct (p a) eqn:Hp; [|reflexivity].
  rewrite IH, (Hk a s' c Hp). destruct (k _ c); reflexivity.
Qed.

Lemma star_one_ext p s c k k' :
  (forall t c', k t c' = k' t c') -> star_one p s c k = star_one p s c k'.
Proof.
  intros Hk; induction s as [|a s' IH]; simpl; [apply Hk|].
  destruct (p a); [|apply Hk]. now rewrite IH, Hk.
Qed.
End Loop.

(** ** The pattern of the parser, piece by piece *)

Lemma run_unit s0 t c :
  Re.run true unit_re t c (k_end s0) = k_unit s0 t c.
Proof.
  destruct t as [|u rest]; [reflexivity|].
  unfold k_unit. rewrite <- lit_unit. cbn [Re.run unit_re Re.one].
  replace (length (u :: rest) - length rest)%nat with 1%nat
    by (simpl; lia).
  unfold k_end. cbn [take].
  destruct (Re.lit_matches true letter_h u), (Re.lit_matches true letter_m u),
    (Re.lit_matches true letter_s u); reflexivity.
Qed.

Lemma k_unit_space s0 a t c : is_space a = true -> k_unit s0 (a :: t) c = None.
Proof. intros H; unfold k_unit. now rewrite (space_not_unit a H). Qed.

Lemma run_tail s0 t c :
  Re.run true (Re.Cat (Re.Star Re.Space) unit_re) t c (k_end s0)
  = k_unit s0 (Spec.drop_while is_space t) c.
Proof.
  cbn [Re.run]. rewrite loop_one by lia.
  rewrite star_one_all.
  - apply run_unit.
  - intros a t' c' Ha. rewrite run_unit. now apply k_unit_space.
Qed.

Lemma k_tail_digit s0 a t c : is_digit a = true -> k_tail s0 (a :: t) c = None.
Proof.
  intros H; unfold k_tail. cbn [Spec.drop_while].
  rewrite (digit_not_space a H). unfold k_unit.
  now rewrite (digit_not_unit a H).
Qed.

Lemma k_tail_point s0 t c : k_tail s0 (point :: t) c = None.
Proof. reflexivity. Qed.

(** The whole pattern, as a loop over the leading digits whose
    continuation is the rest of the first group and the tail. *)
Lemma run_frac s0 t c :
  Re.run true (Re.Plus Re.Digit) t c
    (fun s1 c1 =>
       Re.run true (Re.Cat (Re.Star Re.Space) unit_re) s1
         ((1%nat, take (length s0 - length s1) s0) :: c1) (k_end s0))
  = k_frac s0 t c.
Proof.
  cbn [Re.run]. unfold Re.one at 1, k_frac.
  destruct t as [|a t']; [reflexivity|].
  destruct (is_digit a); [|reflexivity].
  rewrite loop_one by lia. rewrite star_one_all.
  - unfold k_tail. now rewrite <- run_tail.
  - intros b u c' Hb.
    change (Re.run true (Re.Cat (Re.Star Re.Space) unit_re) (b :: u)
              ((1%nat, take (length s0 - length (b :: u)) s0) :: c') (k_end s0)
            = None).
    rewrite run_tail. cbn [Spec.drop_while].
    rewrite (digit_not_space b Hb). unfold k_unit.
    now rewrite (digit_not_unit b Hb).
Qed.

Lemma run_point s0 t c :
  Re.run true (Re.Cat (Re.Opt (Re.Lit point)) (Re.Plus Re.Digit)) t c
    (fun s1 c1 =>
       Re.run true (Re.Cat (Re.Star Re.Space) unit_re) s1
         ((1%nat, take (length s0 - length s1) s0) :: c1) (k_end s0))
  = match t with
    | a :: t' =>
        if point =? a
        then Re.or_else (k_frac s0 t' c) (k_frac s0 t c)
        else k_frac s0 t c
    | [] => None
    end.
Proof.
  change (Re.run true (Re.Cat (Re.Opt (Re.Lit point)) (Re.Plus Re.Digit)) t c ?k)
    with (Re.or_else
            (Re.one (Re.lit_matches true point) t c
               (fun s' c' => Re.run true (Re.Plus Re.Digit) s' c' k))
            (Re.run true (Re.Plus Re.Digit) t c k)).
  rewrite run_frac. unfold Re.one.
  destruct t as [|a t']; [reflexivity|].
  rewrite lit_point. destruct (point =? a); [|reflexivity].
  now rewrite run_frac.
Qed.

Lemma or_else_None {A : Type} (x : option A) : Re.or_else x None = x.
Proof. now destruct x. Qed.

Lemma or_else_same {A : Type} (x : option A) : Re.or_else x x = x.
Proof. now destruct x. Qed.

Lemma run_point_k s0 t c :
  Re.run true (Re.Cat (Re.Opt (Re.Lit point)) (Re.Plus Re.Digit)) t c
    (fun s1 c1 =>
       Re.run true (Re.Cat (Re.Star Re.Space) unit_re) s1
         ((1%nat, take (length s0 - length s1) s0) :: c1) (k_end s0))
  = k_point s0 t c.
Proof.
  rewrite run_point. unfold k_point.
  destruct t as [|a t']; [reflexivity|].
  destruct (point =? a) eqn:Ha; [|reflexivity].
  apply Z.eqb_eq in Ha; subst a.
  change (k_frac s0 (point :: t') c) with (@None (nat * Re.captures)).
  apply or_else_None.
Qed.

Lemma star_number s0 s c :
  star_one is_digit s c (k_point s0) = number_result s0 s c.
Proof.
  induction s as [|a s' IH].
  - reflexivity.
  - cbn [star_one]. unfold number_result. cbn [Spec.drop_while].
    destruct (is_digit a) eqn:Ha.
    + rewrite IH. unfold k_point. rewrite (digit_not_point a Ha).
      unfold k_frac at 1. rewrite Ha.
      unfold number_result.
      destruct (Spec.drop_while is_digit s') as [|b r2].
      * destruct s' as [|b' ?]; [reflexivity|].
        destruct (is_digit b'); [apply or_else_same | reflexivity].
      * destruct (point =? b) eqn:Hb.
        -- apply Z.eqb_eq in Hb; subst b.
           rewrite k_tail_point. apply or_else_None.
        -- destruct s' as [|b' ?]; [reflexivity|].
           destruct (is_digit b'); [apply or_else_same | reflexivity].
    + unfold k_point, k_frac. rewrite Ha.
      destruct (point =? a); reflexivity.
Qed.

(** The match at the head of a text, in closed form. *)
Lemma match_here_duration s :
  Re.match_here true duration_re s = number_result s s [].
Proof.
  unfold Re.match_here.
  change (Re.run true duration_re s [] ?k)
    with (Re.loop (Re.one is_digit) (length s) s []
            (fun s1 c1 =>
               Re.run true (Re.Cat (Re.Opt (Re.Lit point)) (Re.Plus Re.Digit))
                 s1 c1
                 (fun s2 c2 =>
                    Re.run true (Re.Cat (Re.Star Re.Space) unit_re) s2
                      ((1%nat, take (length s - length s2) s) :: c2) k))).
  rewrite loop_one by lia.
  rewrite <- star_number. apply star_one_ext.
  intros t c. apply run_point_k.
Qed.

(** ** The matcher finds the occurrences of the specification *)

Lemma take_drop_while {A : Type} (p : A -> bool) (s : list A) :
  Spec.take_while p s ++ Spec.drop_while p s = s.
Proof.
  induction s as [|a s IH]; simpl; [reflexivity|].
  destruct (p a); simpl; [now rewrite IH | reflexivity].
Qed.

Lemma take_prefix (p r : text) :
  take (length (p ++ r) - length r) (p ++ r) = p.
Proof.
  rewrite length_app.
  replace (length p + length r - length r)%nat with (length p) by lia.
  now rewrite take_app_length.
Qed.

Lemma k_tail_spec s d r c :
  s = d ++ r ->
  k_tail s r c
  = match Spec.drop_while is_space r with
    | u :: rest =>
        if matched_unit u
        then Some ((length s - length rest)%nat,
                   (2%nat, [u]) :: (1%nat, d) :: c)
        else None
    | [] => None
    end.
Proof.
  intros ->. unfold k_tail, k_unit. now rewrite take_prefix.
Qed.

Lemma match_here_spec s :
  Re.match_here true duration_re s
  = match Spec.occurrence_with matched_unit true s with
    | Some (o, rest) =>
        Some ((length s - length rest)%nat,
              [(2%nat, [Spec.unit_letter o]); (1%nat, Spec.numeral o)])
    | None => None
    end.
Proof.
  rewrite match_here_duration.
  unfold number_result, Spec.occurrence_with, Spec.number_here.
  pose proof (take_drop_while is_digit s) as Hs.
  destruct (Spec.drop_while is_digit s) as [|a r2] eqn:Hr1.
  - destruct s as [|b s']; [reflexivity|].
    cbn [Spec.take_while] in *. destruct (is_digit b); [|reflexivity].
    cbn [Spec.whole_number].
    rewrite (k_tail_spec _ _ _ _ (eq_sym Hs)). reflexivity.
  - destruct (point =? a) eqn:Ha.
    + apply Z.eqb_eq in Ha; subst a.
      pose proof (take_drop_while is_digit r2) as Hr2.
      unfold k_frac. destruct r2 as [|b t']; [reflexivity|].
      cbn [Spec.take_while Spec.drop_while] in *.
      destruct (is_digit b); [|reflexivity].
      rewrite (k_tail_spec _
                 (Spec.take_while is_digit s
                    ++ point :: b :: Spec.take_while is_digit t')).
      * destruct (Spec.drop_while is_space (Spec.drop_while is_digit t'))
          as [|u rest]; [reflexivity|].
        destruct (matched_unit u); reflexivity.
      * rewrite <- Hs at 1. rewrite <- Hr2 at 1.
        now rewrite <- app_assoc.
    + destruct s as [|b s']; [discriminate|].
      cbn [Spec.take_while] in *. destruct (is_digit b).
      * cbn [Spec.whole_number].
        rewrite (k_tail_spec _ _ _ _ (eq_sym Hs)).
        destruct (Spec.drop_while is_space (a :: r2)) as [|u rest];
          [reflexivity|].
        destruct (matched_unit u); [|reflexivity].
        unfold Spec.numeral; cbn [Spec.int_part Spec.frac_part Spec.unit_letter].
        now rewrite app_nil_r.
      * reflexivity.
Qed.

Lemma findall_spec skip s :
  Re.findall_from true duration_re skip s
  = map groups_of (Spec.occurrences_with matched_unit true skip s).
Proof.
  revert skip; induction s as [|a s IH]; intros skip; [reflexivity|].
  cbn [Re.findall_from Spec.occurrences_with].
  destruct skip as [|n]; [|apply IH].
  rewrite match_here_spec.
  destruct (Spec.occurrence_with matched_unit true (a :: s)) as [[o rest]|].
  - cbn [map]. rewrite IH. reflexivity.
  - apply IH.
Qed.

Lemma take_while_all {A : Type} (p : A -> bool) s :
  Forall (fun a => p a = true) (Spec.take_while p s).
Proof.
  induction s as [|a s IH]; simpl; [constructor|].
  destruct (p a) eqn:Hp; constructor; assumption.
Qed.

Lemma take_while_digits s : all_digits (Spec.take_while is_digit s).
Proof. apply take_while_all. Qed.

(** An occurrence, and what the text is made of around it. *)
Lemma occurrence_with_shape unit spaces s o rest :
  (forall u, unit u = true -> matched_unit u = true) ->
  Spec.occurrence_with unit spaces s = Some (o, rest) ->
  well_formed o
  /\ unit (Spec.unit_letter o) = true
  /\ exists sp,
       s = Spec.numeral o ++ sp ++ Spec.unit_letter o :: rest
       /\ Forall (fun a => is_space a = true) sp.
Proof.
  intros Hsub. unfold Spec.occurrence_with.
  destruct (Spec.number_here s) as [[[d1 d2] r]|] eqn:Hn; [|discriminate].
  assert (Hnum : s = d1 ++ match d2 with
                            | Some d => point :: d
                            | None => []
                            end ++ r
                 /\ all_digits d1
                 /\ match d2 with
                    | Some d => all_digits d /\ d <> []
                    | None => d1 <> []
                    end).
  { unfold Spec.number_here in Hn.
    pose proof (take_drop_while is_digit s) as Hs.
    pose proof (take_while_digits s) as Hd1.
    assert (Hw : forall r1 x,
               Spec.whole_number (Spec.take_while is_digit s) r1 = Some x ->
               x = (Spec.take_while is_digit s, None, r1)
               /\ Spec.take_while is_digit s <> []).
    { intros r1 x. unfold Spec.whole_number.
      destruct (Spec.take_while is_digit s); [discriminate|].
      intros [= <-]. split; [reflexivity | discriminate]. }
    destruct (Spec.drop_while is_digit s) as [|a r2] eqn:Hdrop.
    - apply Hw in Hn as [[= -> -> ->] Hne]. cbn [app].
      rewrite app_nil_r in *. auto.
    - destruct (point =? a) eqn:Ha.
      + apply Z.eqb_eq in Ha; subst a.
        pose proof (take_drop_while is_digit r2) as Hr2.
        pose proof (take_while_digits r2) as Hd2.
        destruct (Spec.take_while is_digit r2) as [|b d] eqn:Hd;
          [discriminate|].
        injection Hn as <- <- <-. split; [|split; [exact Hd1|]].
        * rewrite <- Hs at 1. rewrite <- Hr2 at 1. reflexivity.
        * split; [exact Hd2|discriminate].
      + apply Hw in Hn as [[= -> -> ->] Hne]. cbn [app]. auto. }
  destruct Hnum as (Hs & Hd1 & Hd2).
  assert (Hsp : exists sp,
             r = sp ++ (if spaces then Spec.drop_while is_space r else r)
             /\ Forall (fun a => is_space a = true) sp).
  { destruct spaces.
    - exists (Spec.take_while is_space r).
      split; [symmetry; apply take_drop_while|apply take_while_all].
    - exists []. split; [reflexivity|constructor]. }
  destruct Hsp as (sp & Hr & Hsp).
  destruct (if spaces then _ else _) as [|u rest']; [discriminate|].
  destruct (unit u) eqn:Hu; [|discriminate].
  intros [= <- <-]. cbn [Spec.unit_letter].
  split; [|split; [exact Hu|]].
  - unfold well_formed; cbn. split; [exact Hd1|].
    split; [now apply Hsub|]. exact Hd2.
  - exists sp. split; [|exact Hsp].
    unfold Spec.numeral; cbn [Spec.int_part Spec.frac_part].
    rewrite Hs at 1. rewrite Hr at 1. now rewrite <- !app_assoc.
Qed.

Lemma occurrence_with_wf unit spaces s o rest :
  (forall u, unit u = true -> matched_unit u = true) ->
  Spec.occurrence_with unit spaces s = Some (o, rest) -> well_formed o.
Proof. intros Hsub Ho. now apply (occurrence_with_shape _ _ _ _ _ Hsub Ho). Qed.

Lemma occurrences_with_wf unit spaces skip s :
  (forall u, unit u = true -> matched_unit u = true) ->
  Forall well_formed (Spec.occurrences_with unit spaces skip s).
Proof.
  intros Hsub.
  revert skip; induction s as [|a s IH]; intros skip; [constructor|].
  cbn [Spec.occurrences_with]. destruct skip as [|n]; [|apply IH].
  destruct (Spec.occurrence_with unit spaces (a :: s)) as [[o rest]|] eqn:Ho.
  - constructor; [eapply occurrence_with_wf; eassumption | apply IH].
  - apply IH.
Qed.

Lemma occurrences_wf spaces skip s :
  Forall well_formed (Spec.occurrences_from spaces skip s).
Proof. apply occurrences_with_wf, unit_is_matched. Qed.

(** ** The long s: matched by the pattern, and no unit *)

Lemma take_drop_app {A : Type} (p : A -> bool) d a r :
  Forall (fun x => p x = true) d -> p a = false ->
  Spec.take_while p (d ++ a :: r) = d
  /\ Spec.drop_while p (d ++ a :: r) = a :: r.
Proof.
  intros Hd Ha. induction Hd as [|x d Hx _ IH]; cbn.
  - now rewrite Ha.
  - rewrite Hx. destruct IH as [-> ->]. auto.
Qed.

Lemma take_drop_all {A : Type} (p : A -> bool) d :
  Forall (fun x => p x = true) d ->
  Spec.take_while p d = d /\ Spec.drop_while p d = [].
Proof.
  intros Hd. induction Hd as [|x d Hx _ IH]; cbn; [auto|].
  rewrite Hx. destruct IH as [-> ->]. auto.
Qed.

Section LongS.
Variables (u : Z) (rest : text).
Hypothesis Hu : matched_unit u = true.
Hypothesis Hn : Spec.is_unit u = false.

Lemma long_s_class :
  is_digit u = false /\ is_space u = false /\ (point =? u) = false.
Proof.
  apply matched_unit_in in Hu. unfold unit_list in Hu. cbn [In] in Hu.
  destruct Hu as [<-|[<-|[<-|[<-|[<-|[<-|[<-|[]]]]]]]];
    try discriminate Hn; repeat split.
Qed.

Lemma shape_quiet m :
  shape m -> Spec.occurrence_with Spec.is_unit true (m ++ u :: rest) = None.
Proof.
  destruct long_s_class as (Hud & Hus & Hup).
  intros (d1 & x & sp & -> & Hd1 & Hsp & Hx).
  assert (Hdrop : Spec.drop_while is_space (sp ++ u :: rest) = u :: rest)
    by (now destruct (take_drop_app is_space sp u rest Hsp Hus)).
  unfold Spec.occurrence_with, Spec.number_here.
  rewrite <- !app_assoc.
  destruct Hx as [->|(d2 & -> & Hd2 & Hne)].
  - cbn [app]. destruct sp as [|b sp'].
    + cbn [app].
      destruct (take_drop_app is_digit d1 u rest Hd1 Hud) as [-> ->].
      rewrite Hup. unfold Spec.whole_number.
      destruct d1; [reflexivity|]. cbn [Spec.drop_while].
      now rewrite Hus, Hn.
    + assert (Hb : is_space b = true) by now inversion Hsp.
      cbn [app].
      destruct (take_drop_app is_digit d1 b (sp' ++ u :: rest) Hd1
                  (space_not_digit b Hb)) as [-> ->].
      replace (point =? b) with false
        by (symmetry; destruct (point =? b) eqn:E; [|reflexivity];
            apply Z.eqb_eq in E; subst b; discriminate Hb).
      unfold Spec.whole_number. destruct d1; [reflexivity|].
      change (b :: sp' ++ u :: rest) with ((b :: sp') ++ u :: rest).
      now rewrite Hdrop, Hn.
  - cbn [app].
    destruct (take_drop_app is_digit d1 point (d2 ++ sp ++ u :: rest) Hd1
                point_not_digit) as [-> ->].
    rewrite Z.eqb_refl.
    assert (Hd : Spec.take_while is_digit (d2 ++ sp ++ u :: rest) = d2
                 /\ Spec.drop_while is_digit (d2 ++ sp ++ u :: rest)
                    = sp ++ u :: rest).
    { destruct sp as [|b sp'].
      - apply take_drop_app; assumption.
      - cbn [app]. apply take_drop_app; [assumption|].
        apply space_not_digit. now inversion Hsp. }
    destruct Hd as [-> ->]. destruct d2; [easy|]. now rewrite Hdrop, Hn.
Qed.

Lemma shape_tail b m : shape (b :: m) -> shape m.
Proof.
  intros (d1 & x & sp & Heq & Hd1 & Hsp & Hx).
  destruct d1 as [|c d1].
  - destruct Hx as [->|(d2 & -> & Hd2 & Hne)].
    + destruct sp as [|c sp]; [discriminate|]. injection Heq as _ ->.
      exists [], [], sp. split; [reflexivity|]. split; [constructor|].
      split; [now inversion Hsp|now left].
    + injection Heq as _ ->.
      exists d2, [], sp. split; [reflexivity|]. split; [assumption|].
      split; [assumption|now left].
  - injection Heq as _ ->.
    exists d1, x, sp. split; [reflexivity|]. split; [now inversion Hd1|].
    split; assumption.
Qed.

Lemma skip_shape m :
  shape m ->
  Spec.occurrences_with Spec.is_unit true O (m ++ u :: rest)
  = Spec.occurrences_with Spec.is_unit true (S (length m)) (m ++ u :: rest).
Proof.
  induction m as [|b m IH]; intros Hm.
  - cbn [app length Spec.occurrences_with].
    pose proof (shape_quiet [] Hm) as Hq. cbn [app] in Hq.
    now rewrite Hq.
  - cbn [app length Spec.occurrences_with].
    pose proof (shape_quiet (b :: m) Hm) as Hq. cbn [app] in Hq.
    rewrite Hq. apply IH. now apply (shape_tail b).
Qed.
End LongS.

Lemma occurrences_filter skip s :
  List.filter (fun o => Spec.is_unit (Spec.unit_letter o))
    (Spec.occurrences_with matched_unit true skip s)
  = Spec.occurrences_with Spec.is_unit true skip s.
Proof.
  revert skip. induction s as [|a s IH]; intros skip; [reflexivity|].
  cbn [Spec.occurrences_with]. destruct skip as [|n]; [|apply IH].
  destruct (Spec.occurrence_with matched_unit true (a :: s))
    as [[o rest]|] eqn:Ho.
  - destruct (occurrence_with_shape _ _ _ _ _ (fun u H => H) Ho)
      as (Hwf & Hm & sp & Hs & Hsp).
    assert (Hsame : forall unit,
               Spec.occurrence_with unit true (a :: s)
               = if unit (Spec.unit_letter o) then Some (o, rest) else None).
    { intros unit. unfold Spec.occurrence_with in *.
      destruct (Spec.number_here (a :: s)) as [[[d1 d2] r]|]; [|discriminate].
      destruct (Spec.drop_while is_space r) as [|v r']; [discriminate|].
      destruct (matched_unit v); [|discriminate].
      injection Ho as <- <-. reflexivity. }
    cbn [List.filter]. rewrite (Hsame Spec.is_unit).
    destruct (Spec.is_unit (Spec.unit_letter o)) eqn:Hi.
    + now rewrite IH.
    + rewrite IH.
      assert (Hshape : shape (Spec.numeral o ++ sp)).
      { destruct Hwf as (Hd1 & _ & Hd2). unfold Spec.numeral.
        exists (Spec.int_part o),
          (match Spec.frac_part o with
           | Some d => point :: d
           | None => []
           end), sp.
        split; [now rewrite <- app_assoc|]. split; [exact Hd1|].
        split; [exact Hsp|].
        destruct (Spec.frac_part o) as [d|]; [right|now left].
        exists d. split; [reflexivity|exact Hd2]. }
      rewrite app_assoc in Hs.
      destruct (Spec.numeral o ++ sp) as [|b m] eqn:Hm0.
      { exfalso. destruct Hwf as (_ & _ & Hd2). unfold Spec.numeral in Hm0.
        destruct (Spec.int_part o); [|discriminate].
        destruct (Spec.frac_part o); [discriminate|]. now apply Hd2. }
      cbn [app] in Hs. injection Hs as -> ->.
      rewrite (skip_shape _ rest Hm Hi m (shape_tail b m Hshape)).
      f_equal. cbn [length]. rewrite length_app. cbn [length]. lia.
  - assert (Hnone : Spec.occurrence_with Spec.is_unit true (a :: s) = None).
    { unfold Spec.occurrence_with in *.
      destruct (Spec.number_here (a :: s)) as [[[d1 d2] r]|]; [|reflexivity].
      destruct (Spec.drop_while is_space r) as [|v r']; [reflexivity|].
      destruct (Spec.is_unit v) eqn:Hv; [|reflexivity].
      now rewrite (unit_is_matched v Hv) in Ho. }
    rewrite Hnone. apply IH.
Qed.

(** ** The value of a numeral *)

Lemma read_decimal_digits d m f t :
  all_digits d ->
  read_decimal m f (d ++ t)
  = read_decimal (fold_left (fun n a => 10 * n + digit_val a) d m)
      ((fun k => k + Z.of_nat (length d)) <$> f) t.
Proof.
  intros Hd; revert m f; induction Hd as [|a d Ha _ IH]; intros m f.
  - cbn. f_equal. destruct f; cbn; f_equal; lia.
  - cbn [app read_decimal fold_left]. rewrite Ha, IH. f_equal.
    destruct f; cbn [fmap option_fmap option_map]; f_equal.
    cbn [length]. lia.
Qed.

Lemma has_digit_numeral o : well_formed o -> has_digit (Spec.numeral o) = true.
Proof.
  intros (Hi & _ & Hf). unfold has_digit, Spec.numeral.
  rewrite existsb_app. apply orb_true_iff.
  destruct (Spec.frac_part o) as [d|].
  - right. destruct Hf as [Hd Hne]. destruct Hd as [|a d Ha _]; [easy|].
    cbn [existsb]. rewrite Ha. apply orb_true_r.
  - left. destruct Hi as [|a d Ha _]; [easy|]. cbn. now rewrite Ha.
Qed.

Lemma float_of_numeral o :
  well_formed o -> float_of_str (Spec.numeral o) = Ret (Spec.value o).
Proof.
  intros Hwf. unfold float_of_str. rewrite (has_digit_numeral o Hwf).
  destruct Hwf as (Hi & _ & Hf). unfold Spec.numeral, Spec.value.
  rewrite (read_decimal_digits _ _ _ _ Hi). cbn [fmap option_fmap option_map].
  destruct (Spec.frac_part o) as [d|]; cbn [default].
  - destruct Hf as [Hd _]. cbn [read_decimal].
    rewrite point_not_digit, Z.eqb_refl.
    rewrite <- (app_nil_r d) at 1.
    rewrite (read_decimal_digits _ _ _ _ Hd).
    cbn [read_decimal fmap option_fmap option_map default].
    unfold Spec.digits_to_Z. rewrite fold_left_app. reflexivity.
  - cbn. rewrite app_nil_r. reflexivity.
Qed.

(** ** The sum over the matches *)

Lemma unit_cases u :
  matched_unit u = true ->
  (Spec.is_unit u = true
   /\ (lower u = letter_h \/ lower u = letter_m \/ lower u = letter_s))
  \/ (Spec.is_unit u = false /\ lower u = 383).
Proof.
  intros H. apply matched_unit_in in H. unfold unit_list in H. cbn [In] in H.
  destruct H as [<-|[<-|[<-|[<-|[<-|[<-|[<-|[]]]]]]]]; vm_compute; auto.
Qed.

Lemma add_float t x :
  Py.add (Py.Float t) (Py.Float x) = Ret (Py.Float (Py.fadd t x)).
Proof. reflexivity. Qed.

Lemma add_zero x :
  Py.add (Py.Int 0) (Py.Float x)
  = Ret (Py.Float (Py.fadd (S754_zero false) x)).
Proof. reflexivity. Qed.

Lemma mul_3600 v :
  Py.mul (Py.Float v) (Py.Int 3600)
  = Ret (Py.Float (Py.fmul v (Py.Z2SF 3600))).
Proof. reflexivity. Qed.

Lemma mul_60 v :
  Py.mul (Py.Float v) (Py.Int 60) = Ret (Py.Float (Py.fmul v (Py.Z2SF 60))).
Proof. reflexivity. Qed.

Lemma add_match_spec total o :
  well_formed o ->
  add_match total (groups_of o)
  = if Spec.is_unit (Spec.unit_letter o)
    then Py.add total (Py.Float (Spec.seconds o))
    else Ret total.
Proof.
  intros Hwf. unfold add_match, groups_of.
  rewrite (float_of_numeral o Hwf). cbn [res_bind map].
  destruct Hwf as (_ & Hu & _). unfold Spec.seconds.
  destruct (unit_cases _ Hu) as [[-> [-> | [-> | ->]]] | [-> ->]].
  - rewrite mul_3600. reflexivity.
  - rewrite mul_60. reflexivity.
  - reflexivity.
  - reflexivity.
Qed.

Lemma sum_matches_float t os :
  Forall well_formed os ->
  sum_matches (Py.Float t) (map groups_of os)
  = Ret (Py.Float
           (fold_left (fun t o => Py.fadd t (Spec.seconds o))
              (List.filter (fun o => Spec.is_unit (Spec.unit_letter o)) os)
              t)).
Proof.
  intros Hos; revert t; induction Hos as [|o os Ho _ IH]; intros t.
  - reflexivity.
  - cbn [map sum_matches fold_left List.filter].
    rewrite (add_match_spec _ o Ho).
    destruct (Spec.is_unit (Spec.unit_letter o)).
    + rewrite add_float. cbn [res_bind fold_left]. apply IH.
    + cbn [res_bind]. apply IH.
Qed.

Lemma sum_matches_total os :
  Forall well_formed os ->
  res_bind (sum_matches (Py.Int 0) (map groups_of os)) Py.int
  = Py.int_of_float
      (Spec.total
         (List.filter (fun o => Spec.is_unit (Spec.unit_letter o)) os)).
Proof.
  intros Hos. induction Hos as [|o os Ho Hos IH]; [reflexivity|].
  cbn [map sum_matches List.filter].
  rewrite (add_match_spec _ o Ho).
  destruct (Spec.is_unit (Spec.unit_letter o)).
  - rewrite add_zero. cbn [res_bind].
    rewrite (sum_matches_float _ os Hos). reflexivity.
  - cbn [res_bind]. exact IH.
Qed.

Lemma parse_duration_refines s : parse_duration s = Spec.parse true s.
Proof.
  unfold parse_duration, Spec.parse, Spec.occurrences, Spec.occurrences_from,
    Re.findall.
  rewrite findall_spec, sum_matches_total
    by (apply occurrences_with_wf; auto).
  now rewrite occurrences_filter.
Qed.

(** ** Signs of floats *)

Lemma shr_1_nonneg mrs : 0 <= shr_m mrs -> 0 <= shr_m (shr_1 mrs).
Proof.
  destruct mrs as [m r s]; cbn [shr_m]; intros Hm.
  destruct m as [|[p|p|]|p]; cbn; lia.
Qed.

Lemma iter_shr_nonneg p mrs :
  0 <= shr_m mrs -> 0 <= shr_m (SpecFloat.iter_pos shr_1 p mrs).
Proof.
  revert mrs; induction p as [p IH|p IH|]; intros mrs Hm; cbn [SpecFloat.iter_pos].
  - apply IH, IH, shr_1_nonneg, Hm.
  - apply IH, IH, Hm.
  - apply shr_1_nonneg, Hm.
Qed.

Lemma shr_fexp_nonneg m e l :
  0 <= m -> 0 <= shr_m (fst (shr_fexp Py.prec Py.emax m e l)).
Proof.
  intros Hm. unfold shr_fexp, shr.
  assert (H0 : 0 <= shr_m (shr_record_of_loc m l))
    by (destruct l as [|[]]; exact Hm).
  destruct (_ - e); cbn [fst]; auto using iter_shr_nonneg.
Qed.

Lemma round_nearest_even_nonneg m l : 0 <= m -> 0 <= round_nearest_even m l.
Proof.
  intros Hm. destruct l as [|[]]; cbn; try lia. destruct (Z.even m); lia.
Qed.

Lemma binary_round_aux_nonneg m e l :
  0 <= m -> nonneg (binary_round_aux Py.prec Py.emax false m e l).
Proof.
  intros Hm. unfold binary_round_aux.
  pose proof (shr_fexp_nonneg m e l Hm) as H1.
  destruct (shr_fexp Py.prec Py.emax m e l) as [mrs' e']. cbn [fst] in H1.
  pose proof (shr_fexp_nonneg _ e' loc_Exact
                (round_nearest_even_nonneg _ (loc_of_shr_record mrs') H1))
    as H2.
  destruct (shr_fexp Py.prec Py.emax _ e' loc_Exact) as [mrs'' e''].
  cbn [fst] in H2.
  destruct (shr_m mrs'') as [|q|q]; [reflexivity| |lia].
  destruct (e'' <=? Py.emax - Py.prec); reflexivity.
Qed.

Lemma int_truediv_nonneg a b :
  0 <= a -> 0 < b -> nonneg (Py.int_truediv a b).
Proof.
  intros Ha Hb. unfold Py.int_truediv.
  replace (a <? 0) with false by (symmetry; apply Z.ltb_ge; lia).
  replace (b <? 0) with false by (symmetry; apply Z.ltb_ge; lia).
  cbn [xorb]. destruct a as [|a|a]; [reflexivity| |lia].
  unfold SFdiv_core_binary.
  set (m' := match _ - _ with Z0 => _ | Z.pos _ => _ | Z.neg _ => _ end).
  assert (Hm' : 0 <= m').
  { subst m'. destruct (_ - _); try lia. apply Z.shiftl_nonneg. lia. }
  pose proof (Z.div_pos m' (Z.abs b) Hm' ltac:(lia)) as Hq.
  unfold Z.div in Hq.
  destruct (Z.div_eucl m' (Z.abs b)) as [q r]. cbn [fst] in Hq.
  now apply binary_round_aux_nonneg.
Qed.

Lemma fmul_nonneg x m e :
  nonneg x -> nonneg (Py.fmul x (S754_finite false m e)).
Proof.
  destruct x as [s|s| |s mx ex]; cbn; try easy; try (now intros ->).
  intros ->. now apply binary_round_aux_nonneg.
Qed.

Lemma fadd_nonneg x y : nonneg x -> nonneg y -> nonneg (Py.fadd x y).
Proof.
  destruct x as [sx|sx| |sx mx ex], y as [sy|sy| |sy my ey];
    cbn [nonneg]; try easy; intros -> ->; try reflexivity.
  unfold Py.fadd, SFadd. cbn [cond_Zopp].
  unfold binary_normalize, binary_round.
  destruct (_ + _) as [|m|m] eqn:Hm; [reflexivity| |lia].
  destruct (shl_align m _ _) as [mz ez].
  now apply binary_round_aux_nonneg.
Qed.

Lemma int_of_nonneg f n : nonneg f -> Py.int_of_float f = Ret n -> 0 <= n.
Proof.
  destruct f as [s|s| |s m e]; cbn [nonneg Py.int_of_float]; try easy.
  - now intros _ [= <-].
  - intros -> [= <-]. unfold Py.trunc.
    destruct e as [|p|p]; try lia. apply Z.div_pos; lia.
Qed.

(** ** The total of the parser is never negative *)

Lemma digit_val_nonneg a : is_digit a = true -> 0 <= digit_val a.
Proof. intros H. now apply digit_val_range. Qed.

Lemma digits_nonneg d m :
  all_digits d -> 0 <= m ->
  0 <= fold_left (fun n a => 10 * n + digit_val a) d m.
Proof.
  intros Hd; revert m; induction Hd as [|a d Ha _ IH]; intros m Hm;
    cbn [fold_left]; [assumption|].
  apply IH. pose proof (digit_val_nonneg a Ha). lia.
Qed.

Lemma value_nonneg o : well_formed o -> nonneg (Spec.value o).
Proof.
  intros (Hi & _ & Hf). unfold Spec.value.
  apply int_truediv_nonneg.
  - apply digits_nonneg; [|lia]. apply Forall_app. split; [assumption|].
    destruct (Spec.frac_part o); [apply Hf | constructor].
  - apply Z.pow_pos_nonneg; lia.
Qed.

Lemma seconds_nonneg o : well_formed o -> nonneg (Spec.seconds o).
Proof.
  intros Hwf. pose proof (value_nonneg o Hwf) as Hv. unfold Spec.seconds.
  destruct (_ =? letter_h);
    [change (Py.Z2SF 3600)
       with (S754_finite false 7916483719987200 (-41));
     now apply fmul_nonneg|].
  destruct (_ =? letter_m);
    [change (Py.Z2SF 60) with (S754_finite false 8444249301319680 (-47));
     now apply fmul_nonneg|].
  assumption.
Qed.

Lemma total_nonneg os : Forall well_formed os -> nonneg (Spec.total os).
Proof.
  unfold Spec.total. assert (H0 : nonneg (S754_zero false)) by reflexivity.
  revert H0. generalize (S754_zero false).
  intros t Ht Hos; revert t Ht.
  induction Hos as [|o os Ho _ IH]; intros t Ht; [assumption|].
  cbn [fold_left]. apply IH. apply fadd_nonneg; auto using seconds_nonneg.
Qed.

(** ** Floats that hold their number *)

Lemma rounds_zero v : (v == 0)%Q -> rounds v (S754_zero false).
Proof.
  intros Hv. exists 0, 0, (-1074). split; [reflexivity|].
  rewrite Hv, F2Q_0. split; [lra|]. split.
  - change (0 + 1) with 1. unfold F2Q. change (inject_Z 1) with 1%Q.
    pose proof (bpow_pos (-1074)). lra.
  - split; [now left|]. split; [lia|]. split; lia.
Qed.

Lemma rounds_self m e :
  valid_binary Py.prec Py.emax (S754_finite false m e) = true ->
  rounds (F2Q (Z.pos m) e) (S754_finite false m e).
Proof.
  intros Hv. apply valid_binary_bounds in Hv as (Hm & He & Hn).
  exists (Z.pos m), (Z.pos m), e. split.
  - unfold pack.
    replace (Z.pos m <? 2 ^ 53) with true by (symmetry; apply Z.ltb_lt; lia).
    now replace (e <=? 971) with true by (symmetry; apply Z.leb_le; lia).
  - split; [lra|]. split; [apply F2Q_lt; lia|].
    split; [now left|]. split; [lia|]. split; [lia|exact Hn].
Qed.

Lemma fmul_rounds_nonneg x y :
  good x -> good y -> rounds (SF2Q x * SF2Q y) (Py.fmul x y).
Proof.
  intros (Hxn & Hxf & Hxv) (Hyn & Hyf & Hyv).
  destruct x as [sx|sx| |sx mx ex], y as [sy|sy| |sy my ey];
    try discriminate; cbn [nonneg] in *; subst; cbn [SF2Q].
  - apply rounds_zero. ring.
  - apply rounds_zero. ring.
  - apply rounds_zero. ring.
  - now apply fmul_rounds.
Qed.

Lemma fadd_rounds_nonneg x y :
  good x -> good y -> rounds (SF2Q x + SF2Q y) (Py.fadd x y).
Proof.
  intros (Hxn & Hxf & Hxv) (Hyn & Hyf & Hyv).
  destruct x as [sx|sx| |sx mx ex], y as [sy|sy| |sy my ey];
    try discriminate; cbn [nonneg] in *; subst; cbn [SF2Q].
  - apply rounds_zero. ring.
  - apply (rounds_ext (F2Q (Z.pos my) ey)); [ring|]. now apply rounds_self.
  - apply (rounds_ext (F2Q (Z.pos mx) ex)); [ring|]. now apply rounds_self.
  - apply fadd_rounds.
Qed.

Lemma int_truediv_rounds_nonneg a b :
  0 <= a -> 0 < b ->
  rounds (inject_Z a / inject_Z b) (Py.int_truediv a b).
Proof.
  intros Ha Hb. destruct (Z.eq_dec a 0) as [->|Hne].
  - unfold Py.int_truediv. cbn [Z.ltb Z.compare xorb].
    replace (b <? 0) with false by (symmetry; apply Z.ltb_ge; lia).
    apply rounds_zero. unfold Qdiv. ring.
  - apply int_truediv_rounds; lia.
Qed.

Lemma rounds_good v f : rounds v f -> Py.is_finite f = true -> good f.
Proof.
  intros H Hf. split; [now apply (rounds_nonneg v)|].
  split; [exact Hf|now apply (rounds_valid v)].
Qed.

Lemma good_zero : good (S754_zero false).
Proof. repeat split. Qed.

Lemma good_3600 : good (Py.Z2SF 3600) /\ (SF2Q (Py.Z2SF 3600) == 3600)%Q.
Proof. repeat split. Qed.

Lemma good_60 : good (Py.Z2SF 60) /\ (SF2Q (Py.Z2SF 60) == 60)%Q.
Proof. repeat split. Qed.

(** A whole number below [2^53] rounds to itself. *)
Lemma rounds_whole v f k :
  rounds v f -> (v == inject_Z k)%Q -> k < 2 ^ 53 ->
  good f /\ (SF2Q f == inject_Z k)%Q.
Proof.
  intros Hr Hv Hk.
  destruct (rounds_exact v f k 0 Hr) as [Hfin Hval];
    [now rewrite F2Q_int|exact Hk|lia|].
  split; [now apply (rounds_good v)|]. now rewrite Hval.
Qed.

Lemma int_of_good f k :
  good f -> (SF2Q f == inject_Z k)%Q -> Py.int_of_float f = Ret k.
Proof.
  intros (Hn & Hf & _) Hv.
  destruct f as [s|s| |s m e]; try discriminate; cbn [nonneg] in Hn; subst;
    cbn [Py.int_of_float SF2Q] in *.
  - f_equal. change 0%Q with (inject_Z 0) in Hv.
    symmetry. now apply inject_Z_injective.
  - f_equal. apply trunc_unique; rewrite Hv.
    + lra.
    + rewrite <- Zlt_Qlt. lia.
Qed.

Lemma rounds_of_good f : good f -> rounds (SF2Q f) f.
Proof.
  intros (Hn & Hf & Hv).
  destruct f as [s|s| |s m e]; try discriminate; cbn [nonneg] in Hn; subst.
  - now apply rounds_zero.
  - now apply rounds_self.
Qed.

(** ** The numbers of the parser *)

Lemma digits_to_Z_nonneg d : all_digits d -> 0 <= Spec.digits_to_Z d.
Proof. intros H. apply digits_nonneg; [exact H|lia]. Qed.

Lemma numeral_digits o :
  well_formed o ->
  all_digits (Spec.int_part o ++ default [] (Spec.frac_part o)).
Proof.
  intros (Hi & _ & Hf). apply Forall_app. split; [exact Hi|].
  destruct (Spec.frac_part o); [apply Hf|constructor].
Qed.

Lemma factor_cases o :
  Spec.factor o = 3600 \/ Spec.factor o = 60 \/ Spec.factor o = 1.
Proof.
  unfold Spec.factor.
  destruct (_ =? letter_h); [auto|]. destruct (_ =? letter_m); auto.
Qed.

Lemma number_nonneg o : well_formed o -> (0 <= Spec.number o)%Q.
Proof.
  intros Hwf. unfold Spec.number.
  pose proof (digits_to_Z_nonneg _ (numeral_digits o Hwf)) as Hn.
  assert (0 < 10 ^ Z.of_nat (length (default [] (Spec.frac_part o))))
    by (apply Z.pow_pos_nonneg; lia).
  apply Qle_shift_div_l; [now apply inject_Z_pos|].
  rewrite Qmult_0_l. change 0%Q with (inject_Z 0). now rewrite <- Zle_Qle.
Qed.

Lemma seconds_of_nonneg o : well_formed o -> (0 <= Spec.seconds_of o)%Q.
Proof.
  intros Hwf. unfold Spec.seconds_of.
  apply Qmult_le_0_compat; [now apply number_nonneg|].
  change 0%Q with (inject_Z 0). rewrite <- Zle_Qle.
  destruct (factor_cases o) as [->|[->| ->]]; lia.
Qed.

Lemma total_of_nonneg os :
  Forall well_formed os -> (0 <= Spec.total_of os)%Q.
Proof.
  induction 1 as [|o os Ho _ IH]; unfold Spec.total_of in *;
    cbn [fold_right]; [lra|].
  pose proof (seconds_of_nonneg o Ho). lra.
Qed.

Lemma value_rounds o :
  well_formed o -> rounds (Spec.number o) (Spec.value o).
Proof.
  intros Hwf. unfold Spec.number, Spec.value.
  apply int_truediv_rounds_nonneg.
  - apply digits_to_Z_nonneg, numeral_digits, Hwf.
  - apply Z.pow_pos_nonneg; lia.
Qed.

Lemma seconds_rounds o :
  good (Spec.value o) ->
  rounds (SF2Q (Spec.value o) * inject_Z (Spec.factor o)) (Spec.seconds o).
Proof.
  intros Hg. unfold Spec.seconds, Spec.factor.
  destruct (_ =? letter_h).
  - eapply rounds_ext;
      [|apply (fmul_rounds_nonneg _ _ Hg (proj1 good_3600))].
    now rewrite (proj2 good_3600).
  - destruct (_ =? letter_m).
    + eapply rounds_ext;
        [|apply (fmul_rounds_nonneg _ _ Hg (proj1 good_60))].
      now rewrite (proj2 good_60).
    + eapply rounds_ext; [|apply (rounds_of_good _ Hg)].
      change (inject_Z 1) with 1%Q. ring.
Qed.

(** ** Whole numbers are summed exactly *)

Lemma whole_number_value o :
  Spec.whole o ->
  (Spec.number o == inject_Z (Spec.digits_to_Z (Spec.int_part o)))%Q
  /\ (Spec.seconds_of o == inject_Z (whole_seconds o))%Q.
Proof.
  unfold Spec.whole, Spec.seconds_of, Spec.number, whole_seconds.
  intros ->. cbn [default length Z.of_nat]. rewrite app_nil_r.
  assert (E : (inject_Z (Spec.digits_to_Z (Spec.int_part o))
               / inject_Z (10 ^ 0)
               == inject_Z (Spec.digits_to_Z (Spec.int_part o)))%Q)
    by (change (inject_Z (10 ^ 0)) with 1%Q; field).
  split; [exact E|]. now rewrite E, inject_Z_mult.
Qed.

Lemma whole_seconds_nonneg o : well_formed o -> 0 <= whole_seconds o.
Proof.
  intros (Hi & _). unfold whole_seconds.
  pose proof (digits_to_Z_nonneg _ Hi).
  destruct (factor_cases o) as [->|[->| ->]]; lia.
Qed.

Lemma whole_total_nonneg os : Forall well_formed os -> 0 <= whole_total os.
Proof.
  induction 1 as [|o os Ho _ IH]; unfold whole_total in *;
    cbn [fold_right]; [lia|].
  pose proof (whole_seconds_nonneg o Ho). lia.
Qed.

Lemma total_of_whole os :
  Forall Spec.whole os ->
  (Spec.total_of os == inject_Z (whole_total os))%Q.
Proof.
  induction 1 as [|o os Ho _ IH]; unfold Spec.total_of, whole_total in *;
    cbn [fold_right]; [reflexivity|].
  rewrite inject_Z_plus, IH, (proj2 (whole_number_value o Ho)). reflexivity.
Qed.

Lemma whole_seconds_good o :
  well_formed o -> Spec.whole o -> whole_seconds o < 2 ^ 53 ->
  good (Spec.seconds o)
  /\ (SF2Q (Spec.seconds o) == inject_Z (whole_seconds o))%Q.
Proof.
  intros Hwf Hw Hlt. destruct (whole_number_value o Hw) as [Hn Hs].
  pose proof (digits_to_Z_nonneg _ (proj1 Hwf)) as Hd.
  assert (Hd53 : Spec.digits_to_Z (Spec.int_part o) < 2 ^ 53).
  { unfold whole_seconds in Hlt.
    destruct (factor_cases o) as [E|[E|E]]; rewrite E in Hlt; lia. }
  destruct (rounds_whole _ _ _ (value_rounds o Hwf) Hn Hd53) as [Hg Hv].
  apply (rounds_whole _ _ _ (seconds_rounds o Hg)); [|exact Hlt].
  rewrite Hv. unfold whole_seconds. now rewrite inject_Z_mult.
Qed.

Lemma whole_fold os acc a :
  Forall well_formed os -> Forall Spec.whole os ->
  good acc -> (SF2Q acc == inject_Z a)%Q -> 0 <= a ->
  a + whole_total os < 2 ^ 53 ->
  good (fold_left (fun t o => Py.fadd t (Spec.seconds o)) os acc)
  /\ (SF2Q (fold_left (fun t o => Py.fadd t (Spec.seconds o)) os acc)
      == inject_Z (a + whole_total os))%Q.
Proof.
  intros Hwf. revert acc a.
  induction Hwf as [|o os Ho Hos IH]; intros acc a Hw Hg Hv Ha Hlt.
  - cbn. rewrite Z.add_0_r. auto.
  - inversion Hw as [|? ? Hwo Hwos]; subst. cbn [fold_left whole_total fold_right] in *.
    fold (whole_total os) in *.
    pose proof (whole_seconds_nonneg o Ho) as Hs0.
    pose proof (whole_total_nonneg os Hos) as Ht0.
    destruct (whole_seconds_good o Ho Hwo ltac:(lia)) as [Hsg Hsv].
    destruct (rounds_whole _ _ (a + whole_seconds o)
                (fadd_rounds_nonneg _ _ Hg Hsg)) as [Hg' Hv'];
      [now rewrite Hv, Hsv, inject_Z_plus|lia|].
    destruct (IH _ (a + whole_seconds o) Hwos Hg' Hv' ltac:(lia) ltac:(lia))
      as [Hgf Hvf].
    split; [exact Hgf|]. rewrite Hvf. now rewrite Z.add_assoc.
Qed.

Lemma parse_whole (s : text) :
  let os := Spec.occurrences true s in
  Forall Spec.whole os -> whole_total os < 2 ^ 53 ->
  parse_duration s = Ret (whole_total os).
Proof.
  intros os Hw Hlt. rewrite parse_duration_refines. unfold Spec.parse.
  fold os. unfold Spec.total.
  destruct (whole_fold os (S754_zero false) 0
              (occurrences_wf true O s) Hw good_zero
              ltac:(reflexivity) ltac:(lia) ltac:(lia)) as [Hg Hv].
  now apply int_of_good.
Qed.

(** ** Numbers with a fraction are summed nearly *)

Lemma tiny_pos : (0 < tiny)%Q.
Proof. apply bpow_pos. Qed.

Lemma tiny_small : (tiny <= 1 # 77371252455336267181195264)%Q.
Proof.
  assert (bpow (-86) == 1 # 77371252455336267181195264)%Q as <-
    by reflexivity.
  apply bpow_le. lia.
Qed.

Lemma rounds_near v f :
  rounds v f -> Py.is_finite f = true -> near eps tiny (SF2Q f) v.
Proof.
  intros Hr Hf. pose proof (rounds_pos v f Hr) as Hv.
  pose proof (rounds_value_nonneg v f Hr) as HF.
  pose proof tiny_pos as Ht. unfold near, eps.
  destruct (rounds_error v f Hr Hf) as [[H1 H2]|[H1 H2]];
    rewrite ?bpow_m52 in *; fold tiny in *; split; lra.
Qed.

Lemma fadd_finite x y :
  nonneg x -> nonneg y -> Py.is_finite (Py.fadd x y) = true ->
  Py.is_finite x = true /\ Py.is_finite y = true.
Proof.
  destruct x as [sx|sx| |sx mx ex], y as [sy|sy| |sy my ey];
    cbn [nonneg]; try easy; intros -> ->; cbn; auto.
Qed.

Lemma seconds_finite o :
  Py.is_finite (Spec.seconds o) = true -> Py.is_finite (Spec.value o) = true.
Proof.
  unfold Spec.seconds.
  destruct (_ =? letter_h); [|destruct (_ =? letter_m); [|auto]];
    destruct (Spec.value o) as [s|s| |s m e]; auto.
Qed.

Lemma fold_head_finite os acc :
  Forall well_formed os -> nonneg acc ->
  Py.is_finite (fold_left (fun t o => Py.fadd t (Spec.seconds o)) os acc)
  = true ->
  Py.is_finite acc = true.
Proof.
  intros Hos. revert acc.
  induction Hos as [|o os Ho _ IH]; intros acc Hn Hf; [exact Hf|].
  cbn [fold_left] in Hf. pose proof (seconds_nonneg o Ho) as Hs.
  apply IH in Hf; [|now apply fadd_nonneg].
  now apply (fadd_finite acc (Spec.seconds o)).
Qed.

(** The seconds of one occurrence. *)
Lemma term_near o :
  well_formed o -> Py.is_finite (Spec.seconds o) = true ->
  good (Spec.seconds o)
  /\ near (3 * eps) (3602 * tiny) (SF2Q (Spec.seconds o)) (Spec.seconds_of o).
Proof.
  intros Hwf Hf.
  pose proof (value_rounds o Hwf) as Hv.
  pose proof (seconds_finite o Hf) as Hvf.
  pose proof (rounds_good _ _ Hv Hvf) as Hg.
  pose proof (seconds_rounds o Hg) as Hs.
  split; [now apply (rounds_good _ _ Hs)|].
  pose proof (rounds_near _ _ Hv Hvf) as [V1 V2].
  pose proof (rounds_near _ _ Hs Hf) as [S1 S2].
  pose proof (number_nonneg o Hwf) as Hn.
  pose proof tiny_pos as Ht.
  unfold near, Spec.seconds_of, eps in *.
  set (v := Spec.number o) in *. set (V := SF2Q (Spec.value o)) in *.
  set (SS := SF2Q (Spec.seconds o)) in *.
  destruct (factor_cases o) as [E|[E|E]]; rewrite E in *.
  - change (inject_Z 3600) with 3600%Q in *. split; lra.
  - change (inject_Z 60) with 60%Q in *. split; lra.
  - change (inject_Z 1) with 1%Q in *. split; lra.
Qed.

(** One more occurrence: two more parts in [2^52], and 3604 more of the
    least steps. *)
Lemma near_step (A S F SS R d h : Q) :
  (0 <= A)%Q -> (0 <= S)%Q -> (3 * eps <= d)%Q -> (d <= 1)%Q ->
  (0 <= h)%Q -> (h <= 2251799813685248 * tiny)%Q ->
  near d h F A -> near (3 * eps) (3602 * tiny) SS S ->
  near eps tiny R (F + SS) ->
  near (d + 2 * eps) (h + 3604 * tiny) R (A + S).
Proof.
  unfold near, eps. intros HA HS Hd3 Hd1 Hh0 Hh [F1 F2] [S1 S2] [R1 R2].
  pose proof tiny_pos as Ht.
  assert (Had1 : (d * A <= 1 * A)%Q) by (apply Qmult_le_compat_r; lra).
  assert (Hsd : (3 * (1 # 4503599627370496) * S <= d * S)%Q)
    by (apply Qmult_le_compat_r; lra).
  assert (Hsd1 : (d * S <= 1 * S)%Q) by (apply Qmult_le_compat_r; lra).
  assert (Had : (0 * A <= d * A)%Q) by (apply Qmult_le_compat_r; lra).
  split; lra.
Qed.

Lemma near_fold os :
  Forall well_formed os ->
  forall acc (A d h : Q),
    let n := inject_Z (Z.of_nat (length os)) in
    good acc -> (0 <= A)%Q -> (3 * eps <= d)%Q ->
    (d + 2 * n * eps <= 1)%Q -> (0 <= h)%Q ->
    (h + n * 3604 * tiny <= 2251799813685248 * tiny)%Q ->
    near d h (SF2Q acc) A ->
    Py.is_finite (fold_left (fun t o => Py.fadd t (Spec.seconds o)) os acc)
    = true ->
    near (d + 2 * n * eps) (h + n * 3604 * tiny)
      (SF2Q (fold_left (fun t o => Py.fadd t (Spec.seconds o)) os acc))
      (A + Spec.total_of os).
Proof.
  induction 1 as [|o os Ho Hos IH]; intros acc A d h n Hg HA Hd3 Hd1 Hh0 Hh Hn Hf.
  - subst n. cbn [length fold_left] in *.
    change (inject_Z (Z.of_nat 0)) with 0%Q in *.
    unfold Spec.total_of. cbn [fold_right].
    unfold near in *. split; lra.
  - cbn [fold_left] in *.
    assert (En : (n == inject_Z (Z.of_nat (length os)) + 1)%Q).
    { subst n. cbn [length]. rewrite Nat2Z.inj_succ, <- Z.add_1_r.
      now rewrite inject_Z_plus. }
    clearbody n.
    set (m := inject_Z (Z.of_nat (length os))) in *.
    assert (Hm : (0 <= m)%Q).
    { subst m. change 0%Q with (inject_Z 0). rewrite <- Zle_Qle. lia. }
    pose proof tiny_pos as Ht. unfold eps in *.
    assert (Hmt : (0 <= m * tiny)%Q) by (apply Qmult_le_0_compat; lra).
    rewrite En in Hd1, Hh.
    pose proof (seconds_nonneg o Ho) as Hsn.
    destruct Hg as (Hgn & Hgf & Hgv).
    pose proof (fold_head_finite os _ Hos (fadd_nonneg _ _ Hgn Hsn) Hf)
      as Hrf.
    destruct (fadd_finite _ _ Hgn Hsn Hrf) as [_ Hsf].
    destruct (term_near o Ho Hsf) as [Hsg Hs].
    pose proof (fadd_rounds_nonneg _ _ (conj Hgn (conj Hgf Hgv)) Hsg) as Hr.
    pose proof (rounds_near _ _ Hr Hrf) as Hrn.
    pose proof (seconds_of_nonneg o Ho) as HS.
    pose proof (total_of_nonneg os Hos) as HT.
    assert (Hstep := near_step A (Spec.seconds_of o) _ _ _ d h HA HS
                       Hd3 ltac:(lra) Hh0 ltac:(lra) Hn Hs Hrn).
    specialize (IH _ (A + Spec.seconds_of o)%Q
                  (d + 2 * (1 # 4503599627370496))%Q (h + 3604 * tiny)%Q
                  (rounds_good _ _ Hr Hrf) ltac:(lra) ltac:(unfold eps; lra)
                  ltac:(fold m; unfold eps; lra) ltac:(lra)
                  ltac:(fold m; lra) Hstep Hf).
    fold m in IH. unfold Spec.total_of in *. cbn [fold_right].
    set (T := fold_right _ _ os) in *. set (S := Spec.seconds_of o) in *.
    set (F := SF2Q _) in *.
    unfold near, eps in *. rewrite En. split; lra.
Qed.

Lemma int_of_float_floor f n :
  nonneg f -> Py.int_of_float f = Ret n ->
  (inject_Z n <= SF2Q f)%Q /\ (SF2Q f < inject_Z (n + 1))%Q.
Proof.
  destruct f as [s|s| |s m e]; cbn [nonneg Py.int_of_float SF2Q];
    try discriminate.
  - intros _ [= <-]. split; [apply Qle_refl|reflexivity].
  - intros -> [= <-]. apply trunc_floor.
Qed.

(** A total that is not within one part in [2^30] of a whole number is
    cut to the whole number below it. *)
Lemma parse_near (s : text) (n k : Z) :
  let os := Spec.occurrences true s in
  Z.of_nat (length os) <= 2 ^ 20 ->
  parse_duration s = Ret n ->
  (inject_Z k <= Spec.total_of os * (1 - (1 # 1073741824)))%Q ->
  (Spec.total_of os * (1 + (1 # 1073741824)) < inject_Z (k + 1))%Q ->
  n = k.
Proof.
  intros os Hlen Hp Hk1 Hk2.
  rewrite parse_duration_refines in Hp. unfold Spec.parse in Hp. fold os in Hp.
  pose proof (occurrences_wf true O s) as Hwf. fold (Spec.occurrences true s) in Hwf.
  fold os in Hwf.
  pose proof (total_nonneg os Hwf) as Hnn.
  assert (Hfin : Py.is_finite (Spec.total os) = true)
    by (destruct (Spec.total os); try discriminate; reflexivity).
  destruct (int_of_float_floor _ _ Hnn Hp) as [Hlo Hhi].
  pose proof (total_of_nonneg os Hwf) as HT.
  pose proof tiny_pos as Ht. pose proof tiny_small as Hts.
  assert (Hm : (0 <= inject_Z (Z.of_nat (length os)) <= 1048576)%Q).
  { split.
    - change 0%Q with (inject_Z 0). rewrite <- Zle_Qle. lia.
    - change 1048576%Q with (inject_Z 1048576). rewrite <- Zle_Qle. lia. }
  unfold Spec.total in *.
  pose proof (near_fold os Hwf (S754_zero false) 0 (3 * eps) 0 good_zero)
    as Hnf.
  cbv zeta in Hnf. unfold eps in *.
  set (m := inject_Z (Z.of_nat (length os))) in *.
  assert (Hmt : (0 * tiny <= m * tiny)%Q)
    by (apply Qmult_le_compat_r; lra).
  assert (Hmt' : (m * tiny <= 1048576 * tiny)%Q)
    by (apply Qmult_le_compat_r; lra).
  destruct Hnf as [N1 N2]; try lra; try exact Hfin.
  { unfold near. cbn [SF2Q]. lra. }
  set (F := SF2Q _) in *. set (T := Spec.total_of os) in *.
  set (D := (3 * (1 # 4503599627370496)
             + 2 * m * (1 # 4503599627370496))%Q) in *.
  assert (HD : (0 <= D <= (1 # 1073741824) - (1 # 4503599627370496))%Q)
    by (subst D; split; lra).
  assert (Hp0 : (0 * T <= D * T)%Q) by (apply Qmult_le_compat_r; lra).
  assert (Hp1 : (D * T <= ((1 # 1073741824) - (1 # 4503599627370496)) * T)%Q)
    by (apply Qmult_le_compat_r; lra).
  assert (HF0 : (0 <= F)%Q).
  { subst F. destruct (fold_left _ os _) as [b|b| |b mm e]; cbn in *; try lra.
    subst b. apply F2Q_nonneg. lia. }
  assert (Hlow : (inject_Z k <= F)%Q).
  { destruct (Qlt_le_dec T (1 # 2)) as [Hs|Hb].
    - assert (inject_Z k < inject_Z 1)%Q
        by (change (inject_Z 1) with 1%Q; lra).
      rewrite <- Zlt_Qlt in H.
      assert (inject_Z k <= inject_Z 0)%Q by (rewrite <- Zle_Qle; lia).
      change (inject_Z 0) with 0%Q in H0. lra.
    - lra. }
  assert (Hupp : (F < inject_Z (k + 1))%Q).
  { destruct (Qlt_le_dec T (1 # 2)) as [Hs|Hb].
    - assert (inject_Z 0 < inject_Z (k + 1))%Q
        by (change (inject_Z 0) with 0%Q; lra).
      rewrite <- Zlt_Qlt in H.
      assert (inject_Z 1 <= inject_Z (k + 1))%Q by (rewrite <- Zle_Qle; lia).
      change (inject_Z 1) with 1%Q in H0. lra.
    - lra. }
  assert (inject_Z n < inject_Z (k + 1))%Q by lra.
  assert (inject_Z k < inject_Z (n + 1))%Q by lra.
  rewrite <- Zlt_Qlt in *. lia.
Qed.

(** ** The duration parser: what it sums and what it returns *)

(** C3, as amended.  For every text, [parse_duration] sums the
    occurrences of a decimal number followed, after any white space, by
    one of the letters h, m, s in either case, for 3600, 60 and 1
    seconds, and skips everything else.  When it returns, the result is
    not negative and is the total cut toward zero: it is the whole
    number [k] whenever the total lies between [k] and [k + 1] and not
    within one part in [2^30] of either, in a text of at most [2^20]
    occurrences.  When it does not return it raises [OverflowError].
    When every number is written without a point and the total is below
    [2^53], it returns, and returns the total. *)
Theorem parse_duration_sums_spaced_occurrences (s : text) :
  let os := Spec.occurrences true s in
  match parse_duration s with
  | Ret n =>
      0 <= n
      /\ (Z.of_nat (length os) <= 2 ^ 20 ->
          forall k,
            (inject_Z k <= Spec.total_of os * (1 - bpow (-30)))%Q ->
            (Spec.total_of os * (1 + bpow (-30)) < inject_Z (k + 1))%Q ->
            n = k)
  | Raise e => e = OverflowError
  end
  /\ (Forall Spec.whole os ->
      (Spec.total_of os < inject_Z (2 ^ 53))%Q ->
      exists n,
        parse_duration s = Ret n /\ (inject_Z n == Spec.total_of os)%Q).
Proof.
  intros os. split.
  - pose proof (parse_near s) as Hnear. fold os in Hnear.
    rewrite parse_duration_refines in *. unfold Spec.parse in *.
    fold os in Hnear |- *.
    pose proof (total_nonneg _ (occurrences_wf true O s)) as Hnn.
    fold (Spec.occurrences true s) in Hnn. fold os in Hnn.
    pose proof (int_of_nonneg (Spec.total os)) as Hint.
    destruct (Spec.total os) as [b|b| |b m e];
      cbn [Py.int_of_float nonneg] in *.
    + split; [lia|]. intros Hlen k Hk1 Hk2.
      now apply (Hnear 0 k Hlen eq_refl).
    + reflexivity.
    + contradiction.
    + split; [now apply Hint|]. intros Hlen k Hk1 Hk2.
      now apply (Hnear _ k Hlen eq_refl).
  - intros Hw Hlt. exists (whole_total os).
    rewrite (total_of_whole os Hw) in *. rewrite <- Zlt_Qlt in Hlt.
    split; [now apply parse_whole|reflexivity].
Qed.

Lemma parse_duration_sums_spaced_occurrences_witness :
  parse_duration "1h 0.7s" = Ret 3600
  /\ parse_duration "1h 20m 30s" = Ret 4830.
Proof.
  split.
  - destruct (parse_duration_sums_spaced_occurrences "1h 0.7s") as [H _].
    destruct (parse_duration "1h 0.7s") as [n|e] eqn:E;
      [|vm_compute in E; discriminate E].
    destruct H as [_ H]. f_equal. apply H.
    + vm_compute. discriminate.
    + unfold Qle. vm_compute. discriminate.
    + unfold Qlt. vm_compute. reflexivity.
  - destruct (parse_duration_sums_spaced_occurrences "1h 20m 30s")
      as [_ H].
    destruct H as (n & -> & Hn).
    + repeat constructor.
    + unfold Qlt. vm_compute. reflexivity.
    + f_equal.
      assert (E : (Spec.total_of (Spec.occurrences true "1h 20m 30s")
                   == inject_Z 4830)%Q) by (vm_compute; reflexivity).
      rewrite E in Hn. now apply inject_Z_injective.
Defined.

(** C3 as written fails: in "5 m" no number is immediately followed by
    a unit letter, and the parser returns 300; 4.1 minutes are 246
    seconds, and the parser returns 245; and on a number of 310 digits
    it does not return at all. *)
Lemma parse_duration_takes_spaced_unit :
  parse_duration "5 m" = Ret 300
  /\ Spec.occurrences false "5 m" = []
  /\ parse_duration "4.1m" = Ret 245
  /\ (Spec.total_of (Spec.occurrences false "4.1m") == 246)%Q
  /\ parse_duration many_nines = Raise OverflowError.
Proof. repeat split; vm_compute; reflexivity. Qed.

Lemma drop_while_incl {A : Type} (p : A -> bool) (s : list A) a :
  In a (Spec.drop_while p s) -> In a s.
Proof.
  induction s as [|b s IH]; simpl; [easy|].
  destruct (p b); [right; now apply IH | easy].
Qed.

(** An occurrence ends on a unit letter of the text. *)
Lemma occurrence_here_unit spaces s o rest :
  Spec.occurrence_here spaces s = Some (o, rest) ->
  exists u, In u s /\ Spec.is_unit u = true.
Proof.
  unfold Spec.occurrence_here, Spec.occurrence_with.
  destruct (Spec.number_here s) as [[[d1 d2] r]|] eqn:Hn; [|discriminate].
  assert (Hr : forall a, In a r -> In a s).
  { unfold Spec.number_here, Spec.whole_number in Hn. intros a Ha.
    destruct (Spec.drop_while is_digit s) as [|b r2] eqn:Hd.
    - destruct (Spec.take_while is_digit s); [discriminate|].
      injection Hn as _ _ <-. destruct Ha.
    - apply (drop_while_incl is_digit). rewrite Hd.
      destruct (point =? b).
      + destruct (Spec.take_while is_digit r2); [discriminate|].
        injection Hn as _ _ <-. right.
        now apply (drop_while_incl is_digit).
      + destruct (Spec.take_while is_digit s); [discriminate|].
        now injection Hn as _ _ <-. }
  destruct (if spaces then _ else _) as [|u rest'] eqn:Hu; [discriminate|].
  destruct (Spec.is_unit u) eqn:Hunit; [|discriminate].
  intros _. exists u. split; [|assumption]. apply Hr.
  destruct spaces.
  - apply (drop_while_incl is_space). rewrite Hu. now left.
  - rewrite Hu. now left.
Qed.

Lemma no_unit_no_occurrence spaces skip s :
  Forall (fun a => Spec.is_unit a = false) s ->
  Spec.occurrences_from spaces skip s = [].
Proof.
  revert skip; induction s as [|a s IH]; intros skip Hs; [reflexivity|].
  unfold Spec.occurrences_from in *. cbn [Spec.occurrences_with].
  assert (Hs' : Forall (fun a => Spec.is_unit a = false) s)
    by now inversion Hs.
  destruct skip as [|n]; [|now apply IH].
  destruct (Spec.occurrence_with Spec.is_unit spaces (a :: s))
    as [[o rest]|] eqn:Ho; [|now apply IH].
  apply occurrence_here_unit in Ho as (u & Hin & Hu).
  rewrite Forall_forall in Hs. apply list_elem_of_In, Hs in Hin. congruence.
Qed.

Lemma parse_no_occurrence s :
  Spec.occurrences true s = [] -> parse_duration s = Ret 0.
Proof.
  intros H. rewrite parse_duration_refines. unfold Spec.parse.
  now rewrite H.
Qed.

(** ** Starting a timer *)

Lemma emit_state o w :
  active_timers (fst (emit o w)) = active_timers w
  /\ views (fst (emit o w)) = views w
  /\ tasks (fst (emit o w)) = tasks w.
Proof. repeat split. Qed.

Lemma time_invalid interaction duration user now w n :
  parse_duration duration = Ret n -> n <= 0 ->
  time interaction duration user now w = emit (Respond ValidDurationPlease) w.
Proof.
  intros Hp Hn. unfold time, mbind, M_bind, lift. rewrite Hp.
  now replace (n <=? 0) with true by (symmetry; apply Z.leb_le; lia).
Qed.

(** C4.  The four results of the specification; a text with no number
    followed by a unit (and so any text without one of the letters
    h, m, s) gives 0; and [/time] answers a total that is not positive
    with a refusal, leaving the timers, the views and the tasks as they
    were. *)
Theorem parse_duration_examples_and_refusal :
  (parse_duration "1h 20m 30s" = Ret 4830
   /\ parse_duration "90s" = Ret 90
   /\ parse_duration "2.5m" = Ret 150
   /\ parse_duration "" = Ret 0)
  /\ (forall s, Spec.occurrences true s = [] -> parse_duration s = Ret 0)
  /\ (forall s,
        Forall (fun a => Spec.is_unit a = false) s ->
        parse_duration s = Ret 0)
  /\ (forall interaction duration user now w n,
        parse_duration duration = Ret n -> n <= 0 ->
        let w' := fst (time interaction duration user now w) in
        snd (time interaction duration user now w) = Ret tt
        /\ active_timers w' = active_timers w
        /\ views w' = views w
        /\ tasks w' = tasks w
        /\ sent w' = Respond ValidDurationPlease :: sent w).
Proof.
  split; [repeat split; vm_compute; reflexivity|].
  split; [exact parse_no_occurrence|].
  split.
  - intros s Hs. apply parse_no_occurrence.
    now apply no_unit_no_occurrence.
  - intros interaction duration user now w n Hp Hn.
    rewrite (time_invalid _ _ _ _ _ _ Hp Hn). repeat split.
Qed.

Lemma parse_duration_examples_and_refusal_witness :
  parse_duration "later" = Ret 0
  /\ parse_duration "12 : 30" = Ret 0
  /\ parse_duration "0.5s" = Ret 0
  /\ active_timers (fst (time someone "0.5s" None 0 initial_world)) = ∅
  /\ sent (fst (time someone "0.5s" None 0 initial_world))
     = [Respond ValidDurationPlease].
Proof.
  pose proof parse_duration_examples_and_refusal
    as (_ & Hnone & Hunit & Htime).
  split; [apply Hunit; repeat constructor|].
  split; [apply Hnone; vm_compute; reflexivity|].
  split; [vm_compute; reflexivity|].
  destruct (Htime someone "0.5s"%string None 0 initial_world 0
              ltac:(vm_compute; reflexivity) ltac:(lia))
    as (_ & Ha & _ & _ & Hs).
  split; [exact Ha | exact Hs].
Defined.

(** ** A full bar at the start *)

Lemma int_truediv_same n :
  0 < n -> Py.int_truediv n n = S754_finite false 4503599627370496 (-52).
Proof.
  intros Hn. destruct n as [|p|p]; try lia.
  unfold Py.int_truediv, SFdiv_core_binary.
  replace (Zdigits2 (Z.abs (Z.pos p)) + 0 - (Zdigits2 (Z.abs (Z.pos p)) + 0))
    with 0 by lia.
  change (Z.min (fexp Py.prec Py.emax 0) (0 - 0)) with (-53).
  change (0 - 0 - -53) with 53.
  cbv iota beta.
  assert (Hd : Z.div_eucl (Z.shiftl (Z.abs (Z.pos p)) 53) (Z.abs (Z.pos p))
               = (9007199254740992, 0)).
  { pose proof (Z.div_eucl_eq (Z.shiftl (Z.pos p) 53) (Z.pos p) ltac:(lia))
      as He.
    pose proof (Z.mod_pos_bound (Z.shiftl (Z.pos p) 53) (Z.pos p) ltac:(lia))
      as Hb.
    unfold Z.modulo in Hb. change (Z.abs (Z.pos p)) with (Z.pos p).
    destruct (Z.div_eucl (Z.shiftl (Z.pos p) 53) (Z.pos p)) as [q r].
    rewrite Z.shiftl_mul_pow2 in He by lia.
    assert (q = 2 ^ 53) by nia. assert (r = 0) by nia.
    subst. reflexivity. }
  rewrite Hd. unfold new_location.
  destruct (Z.even (Z.abs (Z.pos p))); reflexivity.
Qed.

Lemma filled_length_full n :
  0 < n -> TimerView.filled_length n (Py.Int n) = Ret 25.
Proof.
  intros Hn. unfold TimerView.filled_length.
  replace (0 <? n) with true by (symmetry; apply Z.ltb_lt; lia).
  unfold Py.max0, Py.gt_int.
  replace (0 <? n) with true by (symmetry; apply Z.ltb_lt; lia).
  unfold Py.truediv_int. rewrite (int_truediv_same n Hn). reflexivity.
Qed.

Lemma starting_embed_made interaction user n now message :
  0 < n ->
  TimerView.create_timer_embed
    (started_view interaction user n now message) (Py.Int n)
    Starting 0x3498db
  = Ret (starting_embed interaction user n).
Proof.
  intros Hn. unfold TimerView.create_timer_embed.
  cbn [Py.int mbind res_mbind res_bind started_view
       ViewObject.initial_duration ViewObject.user ViewObject.interaction].
  rewrite (filled_length_full n Hn). reflexivity.
Qed.

Lemma time_collision interaction duration user now w n :
  parse_duration duration = Ret n -> 0 < n ->
  is_Some (active_timers w
           !! make_timer_id interaction
                (default (Interaction.user interaction) user)) ->
  time interaction duration user now w
  = emit (Respond (AlreadyActive
                     (default (Interaction.user interaction) user))) w.
Proof.
  intros Hp Hn Hin. unfold time, mbind, M_bind, lift. rewrite Hp.
  replace (n <=? 0) with false by (symmetry; apply Z.leb_gt; lia).
  cbn [get]. now rewrite bool_decide_eq_true_2.
Qed.

Lemma time_starts interaction duration user now w n :
  parse_duration duration = Ret n -> 0 < n ->
  n / 86400 <= 999999999 ->
  now + n * Dt.second <= Dt.max -> 0 <= now ->
  active_timers w
  !! make_timer_id interaction (default (Interaction.user interaction) user)
  = None ->
  time interaction duration user now w
  = (started_world interaction
       (default (Interaction.user interaction) user) n now w, Ret tt).
Proof.
  intros Hp Hn Hdays Hmax Hnow Hfree.
  unfold time, mbind, M_bind, lift. rewrite Hp.
  replace (n <=? 0) with false by (symmetry; apply Z.leb_gt; lia).
  cbn [get]. rewrite bool_decide_eq_false_2
    by (rewrite Hfree; apply is_Some_None).
  unfold TimerView.init, mbind, M_bind, lift, Dt.timedelta.
  replace (Z.abs (n / 86400) <=? 999999999) with true
    by (symmetry; apply Z.leb_le;
        pose proof (Z.div_pos n 86400 ltac:(lia) ltac:(lia)); lia).
  unfold Dt.add.
  replace ((0 <=? now + n * Dt.second) && (now + n * Dt.second <=? Dt.max))
    with true
    by (symmetry; apply andb_true_iff; split; apply Z.leb_le;
        unfold Dt.second in *; lia).
  unfold new_view, get_view, set_views. cbn [fst views].
  rewrite lookup_insert_eq.
  fold (started_view interaction
          (default (Interaction.user interaction) user) n now None).
  rewrite (starting_embed_made _ _ _ _ _ Hn).
  unfold new_message, emit, TimerView.update, mbind, M_bind, get_view,
    set_views.
  cbn [views active_timers tasks next_message sent].
  rewrite lookup_insert_eq.
  unfold create_task, new_task, set_tasks, set_active_timers.
  cbn [fst views active_timers tasks next_message sent].
  rewrite insert_insert_eq. reflexivity.
Qed.

(** ** Properties that code keeps *)

Section Preserves.
Context (P : world -> Prop).

Lemma preserves_bind {A B : Type} (m : M A) (k : A -> M B) :
  preserves P m -> (forall a, preserves P (k a)) -> preserves P (m ≫= k).
Proof.
  intros Hm Hk w Hw. unfold mbind, M_bind.
  specialize (Hm w Hw). destruct (m w) as [w' [a|e]]; cbn [fst] in *.
  - now apply Hk.
  - assumption.
Qed.

Lemma preserves_ret {A : Type} (a : A) : preserves P (mret a).
Proof. intros w Hw. exact Hw. Qed.

Lemma preserves_raise {A : Type} (e : exn) : preserves P (@raise A e).
Proof. intros w Hw. exact Hw. Qed.

Lemma preserves_lift {A : Type} (r : res A) : preserves P (lift r).
Proof. intros w Hw. exact Hw. Qed.

Lemma preserves_get : preserves P get.
Proof. intros w Hw. exact Hw. Qed.

Lemma preserves_get_view self : preserves P (get_view self).
Proof. intros w Hw. unfold get_view. now destruct (views w !! self). Qed.

Lemma preserves_get_task self : preserves P (get_task self).
Proof. intros w Hw. unfold get_task. now destruct (tasks w !! self). Qed.

Lemma preserves_lookup_timer id : preserves P (lookup_timer id).
Proof.
  intros w Hw. unfold lookup_timer. now destruct (active_timers w !! id).
Qed.
End Preserves.

Create HintDb preserves.

#[local] Hint Resolve preserves_ret preserves_raise preserves_lift
  preserves_get preserves_get_view preserves_get_task
  preserves_lookup_timer : preserves.

Ltac pres_step :=
  match goal with
  | |- preserves _ (mbind _ _) => apply preserves_bind; [|intros ?]
  | |- preserves _ (match ?x with _ => _ end) => destruct x
  | |- preserves _ (if ?x then _ else _) => destruct x
  | |- preserves _ (let '(_, _) := ?x in _) => destruct x
  end.

Ltac pres := repeat (first [solve [eauto with preserves] | pres_step]).

(** What runs after a piece of code that has made [Q] true, and keeps
    it, leaves it true. *)
Lemma establish_bind {A B : Type} (P Q : world -> Prop)
    (m : M A) (k : A -> M B) :
  (forall w, P w -> Q (fst (m w))) -> (forall a, preserves Q (k a)) ->
  forall w, P w -> Q (fst ((m ≫= k) w)).
Proof.
  intros Hm Hk w Hw. unfold mbind, M_bind.
  specialize (Hm w Hw). destruct (m w) as [w' [a|e]]; cbn [fst] in *.
  - now apply Hk.
  - assumption.
Qed.

(** ** A timer that is not registered stays so *)

Section Absent.
Context (id : string).

Lemma absent_emit o : preserves (timer_absent id) (emit o).
Proof. intros w Hw. exact Hw. Qed.

Lemma absent_set_views f : preserves (timer_absent id) (set_views f).
Proof. intros w Hw. exact Hw. Qed.

Lemma absent_set_tasks f : preserves (timer_absent id) (set_tasks f).
Proof. intros w Hw. exact Hw. Qed.

Lemma absent_delete id' :
  preserves (timer_absent id) (set_active_timers (delete id')).
Proof.
  intros w Hw. unfold timer_absent in *. cbn.
  destruct (decide (id' = id)) as [->|Hne].
  - apply lookup_delete_eq.
  - now rewrite lookup_delete_ne.
Qed.

Lemma absent_cancel self : preserves (timer_absent id) (cancel self).
Proof.
  intros w Hw. unfold cancel. destruct (tasks w !! self) as [t|]; [|exact Hw].
  destruct (TaskObject.status t); exact Hw.
Qed.

Hint Resolve absent_emit absent_set_views absent_set_tasks absent_delete
  absent_cancel : preserves.

Lemma absent_view_update self f :
  preserves (timer_absent id) (TimerView.update self f).
Proof. unfold TimerView.update. pres. Qed.

Lemma absent_task_update self f :
  preserves (timer_absent id) (Task.update self f).
Proof. unfold Task.update. pres. Qed.

Hint Resolve absent_view_update absent_task_update : preserves.

Lemma absent_disable_children self :
  preserves (timer_absent id) (TimerView.disable_children self).
Proof. unfold TimerView.disable_children. pres. Qed.

Lemma absent_stop_timer self :
  preserves (timer_absent id) (TimerView.stop_timer self).
Proof.
  unfold TimerView.stop_timer.
  apply preserves_bind; [pres|]. intros v.
  intros w Hw. unfold mbind, M_bind, get.
  destruct (active_timers w !! ViewObject.timer_id v); [|exact Hw].
  apply (preserves_bind _ _ (fun _ => _)); pres.
Qed.
End Absent.

#[local] Hint Resolve absent_emit absent_set_views absent_set_tasks
  absent_delete absent_cancel absent_view_update absent_task_update
  absent_disable_children absent_stop_timer : preserves.

Lemma stop_timer_removes self v w :
  views w !! self = Some v ->
  timer_absent (ViewObject.timer_id v) (fst (TimerView.stop_timer self w)).
Proof.
  intros Hv. unfold TimerView.stop_timer, mbind, M_bind, get_view, get.
  rewrite Hv.
  destruct (active_timers w !! ViewObject.timer_id v) as [d|] eqn:Hd;
    [|exact Hd].
  pose proof (absent_cancel (ViewObject.timer_id v) (task d)) as Hc.
  destruct (cancel (task d) w) as [w' [[]|e]] eqn:Hw'.
  - unfold timer_absent. cbn. apply lookup_delete_eq.
  - unfold cancel in Hw'. destruct (tasks w !! task d) as [t|];
      [destruct (TaskObject.status t)|]; discriminate.
Qed.

Lemma end_button_removes self v w :
  views w !! self = Some v ->
  timer_absent (ViewObject.timer_id v) (fst (TimerView.end_button self w)).
Proof.
  intros Hv. unfold TimerView.end_button.
  apply (establish_bind (fun w => views w !! self = Some v)); [| |exact Hv].
  - intros w' Hw'. now apply stop_timer_removes.
  - intros []. pres.
Qed.

Lemma time_is_up_removes self t v w :
  views w !! TaskObject.view t = Some v ->
  ViewObject.timer_id v = TaskObject.timer_id t ->
  timer_absent (TaskObject.timer_id t) (fst (time_is_up self t w)).
Proof.
  intros Hv <-. unfold time_is_up.
  unfold mbind at 1, M_bind at 1. cbn [emit].
  apply (establish_bind
           (fun w => views w !! TaskObject.view t = Some v)); [| |exact Hv].
  - intros w' Hw'. now apply stop_timer_removes.
  - intros []. pres.
Qed.

Lemma bind_ret {A B : Type} (m : M A) (k : A -> M B) w w1 a :
  m w = (w1, Ret a) -> (m ≫= k) w = k a w1.
Proof. intros H. unfold mbind, M_bind. now rewrite H. Qed.

Lemma one_minute_warning_runs self t r w :
  tasks w !! self = Some t ->
  exists w1, one_minute_warning self t r w = (w1, Ret tt)
             /\ views w1 = views w /\ active_timers w1 = active_timers w.
Proof.
  intros Ht. unfold one_minute_warning. destruct (_ && _).
  - unfold emit, Task.update, get_task, set_tasks, mbind, M_bind.
    cbn [tasks]. rewrite Ht. cbn. eauto.
  - eexists. split; [reflexivity|]. split; reflexivity.
Qed.

Lemma round_finishes self t d v now w :
  tasks w !! self = Some t ->
  TaskObject.status t = TaskObject.Looping ->
  active_timers w !! TaskObject.timer_id t = Some d ->
  paused d = false ->
  Py.le_int (Dt.total_seconds (TaskObject.end_time t - now)) 0 = true ->
  views w !! TaskObject.view t = Some v ->
  ViewObject.timer_id v = TaskObject.timer_id t ->
  timer_absent (TaskObject.timer_id t) (fst (timer_task_round self now w)).
Proof.
  intros Ht Hs Hd Hp Hle Hv Hid.
  unfold timer_task_round, Task.resume. rewrite Ht, Hs. cbn [Task.is_looping].
  unfold mbind at 1, M_bind at 1, lookup_timer at 1. rewrite Hd, Hp.
  cbn [negb]. rewrite Hle.
  destruct (one_minute_warning_runs self t
              (Dt.total_seconds (TaskObject.end_time t - now)) w Ht)
    as (w1 & Hw1 & Hviews & _).
  unfold mbind at 1, M_bind at 1. rewrite (bind_ret _ _ _ _ _ Hw1).
  pose proof (time_is_up_removes self t v w1) as Hup.
  rewrite Hviews in Hup. specialize (Hup Hv Hid).
  unfold mbind at 1, M_bind at 1.
  destruct (time_is_up self t w1) as [w2 [[]|e]]; cbn [fst] in *.
  - exact Hup.
  - now apply absent_task_update.
Qed.

(** ** The one-minute notice is sent once *)

Lemma warned_once_initial : warned_once initial_world.
Proof.
  split.
  - intros k. cbn. rewrite lookup_empty, map_size_empty. split; [lia | easy].
  - intros k. now left.
Qed.

Lemma warned_tasks_insert w k x :
  warned_once w ->
  (forall t, tasks w !! k = Some t ->
     (TaskObject.one_minute_warning_sent t = true ->
      TaskObject.one_minute_warning_sent x = true)
     /\ (Task.is_created (TaskObject.status t) = false ->
         Task.is_created (TaskObject.status x) = false)) ->
  is_Some (tasks w !! k) ->
  warned_once (fst (set_tasks (insert k x) w)).
Proof.
  intros [Hnum Hw] Hx Hk. split; cbn [fst set_tasks tasks sent].
  - intros j. rewrite map_size_insert_Some by exact Hk.
    rewrite <- Hnum. destruct (decide (k = j)) as [->|Hne].
    + rewrite lookup_insert_eq. destruct Hk as [t Ht]. rewrite Ht.
      split; discriminate.
    + now rewrite lookup_insert_ne.
  - intros j. destruct (Hw j) as [H0 | (H1 & t & Ht & Hflag & Hst)];
      [now left | right]. split; [exact H1|].
    destruct (decide (k = j)) as [->|Hne].
    + exists x. rewrite lookup_insert_eq. destruct (Hx t Ht) as [Hf Hs].
      auto.
    + exists t. now rewrite lookup_insert_ne.
Qed.

Lemma warned_set_views f : preserves warned_once (set_views f).
Proof. intros w Hw. exact Hw. Qed.

Lemma warned_set_active_timers f :
  preserves warned_once (set_active_timers f).
Proof. intros w Hw. exact Hw. Qed.

Lemma warned_new_message : preserves warned_once new_message.
Proof. intros w Hw. exact Hw. Qed.

Lemma warned_new_view v : preserves warned_once (new_view v).
Proof. intros w Hw. exact Hw. Qed.

Lemma warned_emit o :
  (forall k, is_warning k o = false) -> preserves warned_once (emit o).
Proof.
  intros Ho w [Hnum Hw]. split; [exact Hnum|]. intros k.
  cbn [fst emit sent tasks]. unfold warnings in *.
  rewrite filter_cons_False by (rewrite Ho; discriminate). apply Hw.
Qed.

Lemma warned_cancel self : preserves warned_once (cancel self).
Proof.
  intros w Hw. unfold cancel.
  destruct (tasks w !! self) as [t|] eqn:Ht; [|exact Hw].
  destruct (TaskObject.status t) eqn:Hs; try exact Hw;
    (apply warned_tasks_insert; [exact Hw | | now rewrite Ht]);
    intros t' Ht'; cbn; rewrite Ht in Ht'; injection Ht' as <-; auto.
Qed.

Lemma warned_task_update self f :
  keeps_warned f -> preserves warned_once (Task.update self f).
Proof.
  intros Hf w Hw. unfold Task.update, mbind, M_bind, get_task.
  destruct (tasks w !! self) as [t|] eqn:Ht; [|exact Hw].
  apply warned_tasks_insert; [exact Hw | | now rewrite Ht].
  intros t' Ht'. rewrite Ht in Ht'; injection Ht' as <-. apply Hf.
Qed.

Lemma warned_new_task t :
  TaskObject.one_minute_warning_sent t = false ->
  preserves warned_once (new_task t).
Proof.
  intros Hflag w [Hnum Hw]. unfold new_task.
  assert (Hfresh : tasks w !! size (tasks w) = None) by (apply Hnum; lia).
  split; cbn [fst set_tasks tasks sent].
  - intros j. rewrite map_size_insert_None by exact Hfresh.
    destruct (decide (size (tasks w) = j)) as [<-|Hne].
    + rewrite lookup_insert_eq. split; [discriminate | lia].
    + rewrite lookup_insert_ne by exact Hne. rewrite Hnum. lia.
  - intros j. destruct (Hw j) as [H0 | (H1 & x & Hx & Hf & Hs)];
      [now left | right]. split; [exact H1|]. exists x.
    rewrite lookup_insert_ne; [auto|]. intros <-. congruence.
Qed.

#[local] Hint Resolve warned_set_views warned_set_active_timers
  warned_new_message warned_new_view warned_cancel : preserves.
#[local] Hint Extern 1 (preserves warned_once (emit _)) =>
  apply warned_emit; intros; reflexivity : preserves.
#[local] Hint Extern 1 (preserves warned_once (Task.update _ _)) =>
  apply warned_task_update; intros ?; split; cbn; auto : preserves.

Lemma warned_view_update self f :
  preserves warned_once (TimerView.update self f).
Proof. unfold TimerView.update. pres. Qed.

#[local] Hint Resolve warned_view_update : preserves.

Lemma warned_store_paused id b : preserves warned_once (store_paused id b).
Proof. unfold store_paused. pres. Qed.

Lemma warned_disable_children self :
  preserves warned_once (TimerView.disable_children self).
Proof. unfold TimerView.disable_children. pres. Qed.

Lemma warned_stop_timer self : preserves warned_once (TimerView.stop_timer self).
Proof. unfold TimerView.stop_timer. pres. Qed.

#[local] Hint Resolve warned_store_paused warned_disable_children
  warned_stop_timer : preserves.

Lemma warned_update_embed self now found :
  preserves warned_once (TimerView.update_embed self now found).
Proof. unfold TimerView.update_embed. pres. Qed.

Lemma warned_pause_button self message now :
  preserves warned_once (TimerView.pause_button self message now).
Proof. unfold TimerView.pause_button. pres. Qed.

Lemma warned_end_button self :
  preserves warned_once (TimerView.end_button self).
Proof. unfold TimerView.end_button. pres. Qed.

Lemma warned_time interaction duration user now :
  preserves warned_once (time interaction duration user now).
Proof.
  unfold time, TimerView.init, create_task. pres.
  apply warned_new_task. reflexivity.
Qed.

Lemma warned_time_is_up self t : preserves warned_once (time_is_up self t).
Proof.
  unfold time_is_up. pres.
  all: apply warned_task_update; intros x; split;
    destruct (TaskObject.status x) eqn:E; cbn; rewrite ?E; auto.
Qed.

Lemma warnings_cons k o out :
  warnings k (o :: out)
  = ((if is_warning k o then 1 else 0) + warnings k out)%nat.
Proof.
  unfold warnings. destruct (is_warning k o) eqn:Ho.
  - now rewrite filter_cons_True by exact Ho.
  - now rewrite filter_cons_False by (rewrite Ho; discriminate).
Qed.

Lemma warned_one_minute_warning self t r w :
  warned_once w ->
  tasks w !! self = Some t ->
  Task.is_created (TaskObject.status t) = false ->
  warned_once (fst (one_minute_warning self t r w)).
Proof.
  intros Hw Ht Hst. unfold one_minute_warning.
  destruct (Py.le_int r 60); cbn [andb]; [|exact Hw].
  destruct (TaskObject.one_minute_warning_sent t) eqn:Hflag; cbn [negb];
    [exact Hw|].
  unfold emit, Task.update, get_task, set_tasks, mbind, M_bind.
  cbn [tasks]. rewrite Ht. cbn [fst].
  destruct Hw as [Hnum Hw]. split; cbn [tasks sent].
  - intros j. rewrite map_size_insert_Some by (now rewrite Ht).
    rewrite <- Hnum. destruct (decide (self = j)) as [<-|Hne].
    + rewrite lookup_insert_eq, Ht. split; discriminate.
    + now rewrite lookup_insert_ne.
  - intros j. rewrite warnings_cons. cbn [is_warning].
    destruct (decide (self = j)) as [<-|Hne].
    + rewrite Nat.eqb_refl. right.
      destruct (Hw self) as [-> | (_ & x & Hx & Hf & _)];
        [|congruence].
      split; [reflexivity|]. eexists. rewrite lookup_insert_eq.
      split; [reflexivity|]. split; [reflexivity | exact Hst].
    + replace (Nat.eqb self j) with false
        by (symmetry; now apply Nat.eqb_neq).
      rewrite lookup_insert_ne by exact Hne. apply Hw.
Qed.

Lemma resume_keeps (P : world -> Prop) self at_state body :
  (forall x w, P w -> tasks w !! self = Some x -> at_state (TaskObject.status x) = true ->
     P (fst (body x w))) ->
  (forall e, preserves P
     (Task.update self (fun x =>
        Task.with_state (TaskObject.end_time x)
          (TaskObject.one_minute_warning_sent x) (TaskObject.Failed e) x))) ->
  preserves P (Task.resume self at_state body).
Proof.
  intros Hbody Hfail w Hw. unfold Task.resume.
  destruct (tasks w !! self) as [x|] eqn:Hx; [|exact Hw].
  destruct (at_state (TaskObject.status x)) eqn:Hat; [|exact Hw].
  specialize (Hbody x w Hw Hx Hat).
  destruct (body x w) as [w' [[]|e]]; cbn [fst] in *; [exact Hbody|].
  now apply Hfail.
Qed.

Lemma warned_begin self now : preserves warned_once (timer_task_begin self now).
Proof.
  unfold timer_task_begin. apply resume_keeps; [|intros e; pres].
  intros x w Hw Hx Hst.
  unfold mbind, M_bind, lift.
  destruct (Dt.timedelta _) as [d|e]; [|exact Hw].
  destruct (Dt.add now d) as [end_time|e]; [|exact Hw].
  unfold Task.update, mbind, M_bind, get_task. rewrite Hx.
  destruct Hw as [Hnum Hw]. split; cbn [fst set_tasks tasks sent].
  - intros j. rewrite map_size_insert_Some by (now rewrite Hx).
    rewrite <- Hnum. destruct (decide (self = j)) as [<-|Hne].
    + rewrite lookup_insert_eq, Hx. split; discriminate.
    + now rewrite lookup_insert_ne.
  - intros j. destruct (Hw j) as [H0 | (H1 & t & Ht & Hf & Hs)];
      [now left | right]. split; [exact H1|]. exists t.
    rewrite lookup_insert_ne; [auto|]. intros <-. congruence.
Qed.

Lemma warned_round self now : preserves warned_once (timer_task_round self now).
Proof.
  unfold timer_task_round. apply resume_keeps; [|intros e; pres].
  intros t w Hw Ht Hst.
  assert (Hnew : Task.is_created (TaskObject.status t) = false)
    by (destruct (TaskObject.status t); easy).
  unfold mbind at 1, M_bind at 1, lookup_timer at 1.
  destruct (active_timers w !! TaskObject.timer_id t) as [d|]; [|exact Hw].
  apply (establish_bind
           (fun w => warned_once w /\ tasks w !! self = Some t));
    [| |split; assumption].
  - intros w0 [Hw0 Ht0]. destruct (negb (paused d)); [|exact Hw0].
    apply (establish_bind
             (fun w => warned_once w /\ tasks w !! self = Some t));
      [| |split; assumption].
    + intros w1 [Hw1 Ht1]. now apply warned_one_minute_warning.
    + intros []. pres; apply warned_time_is_up.
  - intros over. pres.
    apply warned_task_update; intros ?; split; cbn; auto.
Qed.

Lemma warned_perform e : preserves warned_once (perform e).
Proof.
  destruct e; cbn [perform];
    auto using warned_time, warned_pause_button, warned_end_button,
      warned_update_embed, warned_begin, warned_round.
Qed.

Lemma warned_run es w : warned_once w -> warned_once (run es w).
Proof.
  revert w; induction es as [|e es IH]; intros w Hw; [exact Hw|].
  cbn [run fold_left]. apply IH. now apply warned_perform.
Qed.

(** C7.  In every run of the bot, whatever the commands, the presses
    of the buttons and the instants at which the tasks wake, a task
    sends the notice of the last minute at most once: [timer_task] sets
    its flag when it sends the notice and nothing unsets it. *)
Theorem one_minute_warning_at_most_once (es : list event) (task : nat) :
  (warnings task (sent (run es initial_world)) <= 1)%nat.
Proof.
  destruct (warned_run es initial_world warned_once_initial) as [_ Hw].
  destruct (Hw task) as [-> | [-> _]]; lia.
Qed.

(** ** A task that can run is the registered one *)

Lemma bind_rule {A B : Type} (P R Q : world -> Prop) (m : M A)
    (k : A -> M B) :
  (forall w, P w -> R (fst (m w))) ->
  (forall w, R w -> Q w) ->
  (forall a w, R w -> Q (fst (k a w))) ->
  forall w, P w -> Q (fst ((m ≫= k) w)).
Proof.
  intros Hm HRQ Hk w Hw. unfold mbind, M_bind.
  specialize (Hm w Hw). destruct (m w) as [w' [a|e]]; cbn [fst] in *; auto.
Qed.

Lemma registered_initial : tasks_registered initial_world.
Proof. intros k t Ht. cbn in Ht. now rewrite lookup_empty in Ht. Qed.

Lemma registered_emit o : preserves tasks_registered (emit o).
Proof. intros w Hw. exact Hw. Qed.

Lemma registered_set_views f : preserves tasks_registered (set_views f).
Proof. intros w Hw. exact Hw. Qed.

Lemma registered_new_message : preserves tasks_registered new_message.
Proof. intros w Hw. exact Hw. Qed.

Lemma registered_new_view v : preserves tasks_registered (new_view v).
Proof. intros w Hw. exact Hw. Qed.

Lemma registered_store_paused id b :
  preserves tasks_registered (store_paused id b).
Proof.
  intros w Hw. unfold store_paused, mbind, M_bind, lookup_timer.
  destruct (active_timers w !! id) as [d|] eqn:Hd; [|exact Hw].
  intros k t Ht Ha. cbn in Ht |- *.
  destruct (Hw k t Ht Ha) as (d' & Hd' & Hk).
  destruct (decide (id = TaskObject.timer_id t)) as [->|Hne].
  - rewrite lookup_insert_eq. eexists; split; [reflexivity|]. cbn. congruence.
  - rewrite lookup_insert_ne by exact Hne. eauto.
Qed.

Lemma registered_task_insert w k x :
  tasks_registered w ->
  (forall t, tasks w !! k = Some t ->
     TaskObject.timer_id x = TaskObject.timer_id t
     /\ (alive (TaskObject.status t) = false ->
         alive (TaskObject.status x) = false)) ->
  is_Some (tasks w !! k) ->
  tasks_registered (fst (set_tasks (insert k x) w)).
Proof.
  intros Hw Hx [t Ht] j y. cbn [fst set_tasks tasks active_timers].
  destruct (decide (k = j)) as [<-|Hne].
  - rewrite lookup_insert_eq. intros [= <-] Ha.
    destruct (Hx t Ht) as [Hid Hdead]. rewrite Hid. apply Hw; [exact Ht|].
    destruct (alive (TaskObject.status t)) eqn:Hat; [reflexivity|].
    rewrite Hdead in Ha by reflexivity. discriminate.
  - rewrite lookup_insert_ne by exact Hne. apply Hw.
Qed.

Lemma registered_cancel self : preserves tasks_registered (cancel self).
Proof.
  intros w Hw. unfold cancel.
  destruct (tasks w !! self) as [t|] eqn:Ht; [|exact Hw].
  destruct (TaskObject.status t) eqn:Hs; try exact Hw;
    (apply registered_task_insert; [exact Hw | | now rewrite Ht]);
    intros t' Ht'; rewrite Ht in Ht'; injection Ht' as <-; cbn;
    (split; [reflexivity | rewrite Hs; discriminate]).
Qed.

Lemma registered_task_update self f :
  keeps_timer f -> preserves tasks_registered (Task.update self f).
Proof.
  intros Hf w Hw. unfold Task.update, mbind, M_bind, get_task.
  destruct (tasks w !! self) as [t|] eqn:Ht; [|exact Hw].
  apply registered_task_insert; [exact Hw | | now rewrite Ht].
  intros t' Ht'. rewrite Ht in Ht'; injection Ht' as <-. apply Hf.
Qed.

#[local] Hint Resolve registered_emit registered_set_views
  registered_new_message registered_new_view registered_store_paused
  registered_cancel : preserves.
#[local] Hint Extern 1 (preserves tasks_registered (Task.update _ _)) =>
  apply registered_task_update; intros ?; split; cbn; auto : preserves.

Lemma registered_view_update self f :
  preserves tasks_registered (TimerView.update self f).
Proof. unfold TimerView.update. pres. Qed.

#[local] Hint Resolve registered_view_update : preserves.

Lemma registered_disable_children self :
  preserves tasks_registered (TimerView.disable_children self).
Proof. unfold TimerView.disable_children. pres. Qed.

(** The task of the entry is cancelled before the entry goes. *)
Lemma registered_unregister id d w :
  tasks_registered w -> active_timers w !! id = Some d ->
  tasks_registered
    (fst ((cancel (task d) ≫= fun _ => set_active_timers (delete id)) w)).
Proof.
  intros Hw Hd. unfold mbind, M_bind, cancel.
  assert (Hdel : forall w',
             active_timers w' = active_timers w ->
             (forall k t, tasks w' !! k = Some t ->
                alive (TaskObject.status t) = true ->
                tasks w !! k = Some t /\ k <> task d) ->
             tasks_registered (fst (set_active_timers (delete id) w'))).
  { intros w' Ha Ht k t Hk Halive. cbn in Hk |- *.
    destruct (Ht k t Hk Halive) as [Hk' Hne].
    destruct (Hw k t Hk' Halive) as (d' & Hd' & Htask).
    rewrite Ha. rewrite lookup_delete_ne; [eauto|].
    intros Heq. rewrite Heq in Hd. congruence. }
  destruct (tasks w !! task d) as [t|] eqn:Ht.
  - destruct (TaskObject.status t) eqn:Hs; cbn [set_tasks fst];
      apply Hdel; try reflexivity; cbn [tasks];
      intros k y Hk Halive;
      (destruct (decide (task d = k)) as [<-|Hne];
       [first [ rewrite lookup_insert_eq in Hk; injection Hk as <-;
                discriminate
              | rewrite Ht in Hk; injection Hk as <-; rewrite Hs in Halive;
                discriminate ]
       | first [ rewrite lookup_insert_ne in Hk by exact Hne; auto
               | auto ]]).
  - apply Hdel; [reflexivity|]. intros k y Hk Halive. split; [exact Hk|].
    intros ->. congruence.
Qed.

Lemma registered_stop_timer self :
  preserves tasks_registered (TimerView.stop_timer self).
Proof.
  unfold TimerView.stop_timer.
  apply preserves_bind; [pres|]. intros v w Hw.
  unfold mbind at 1, M_bind at 1, get.
  destruct (active_timers w !! ViewObject.timer_id v) as [d|] eqn:Hd;
    [|exact Hw].
  now apply registered_unregister.
Qed.

#[local] Hint Resolve registered_disable_children registered_stop_timer
  : preserves.

Lemma registered_update_embed self now found :
  preserves tasks_registered (TimerView.update_embed self now found).
Proof. unfold TimerView.update_embed. pres. Qed.

Lemma registered_pause_button self message now :
  preserves tasks_registered (TimerView.pause_button self message now).
Proof. unfold TimerView.pause_button. pres. Qed.

Lemma registered_end_button self :
  preserves tasks_registered (TimerView.end_button self).
Proof. unfold TimerView.end_button. pres. Qed.

Lemma registered_time_is_up self t :
  preserves tasks_registered (time_is_up self t).
Proof.
  unfold time_is_up. pres.
  all: apply registered_task_update; intros x; split;
    destruct (TaskObject.status x) eqn:E; cbn; rewrite ?E; auto.
Qed.

Lemma registered_one_minute_warning self t r :
  preserves tasks_registered (one_minute_warning self t r).
Proof. unfold one_minute_warning. pres. Qed.

Lemma registered_begin self now :
  preserves tasks_registered (timer_task_begin self now).
Proof.
  unfold timer_task_begin. apply resume_keeps; [|intros e; pres].
  intros x w Hw Hx Hst. unfold mbind, M_bind, lift.
  destruct (Dt.timedelta _) as [d|e]; [|exact Hw].
  destruct (Dt.add now d) as [end_time|e]; [|exact Hw].
  unfold Task.update, mbind, M_bind, get_task. rewrite Hx.
  apply registered_task_insert; [exact Hw | | now rewrite Hx].
  intros t Ht. rewrite Hx in Ht; injection Ht as <-. split; [reflexivity|].
  destruct (TaskObject.status x); discriminate.
Qed.

Lemma registered_round self now :
  preserves tasks_registered (timer_task_round self now).
Proof.
  unfold timer_task_round. apply resume_keeps; [|intros e; pres].
  intros t w Hw _ _. revert w Hw.
  change (preserves tasks_registered
            (d ← lookup_timer (TaskObject.timer_id t);
             over ←
               (if negb (paused d)
                then
                  one_minute_warning self t
                    (Dt.total_seconds (TaskObject.end_time t - now));;
                  if Py.le_int
                       (Dt.total_seconds (TaskObject.end_time t - now)) 0
                  then time_is_up self t;; mret true
                  else mret false
                else mret false);
             if over : bool then mret tt
             else
               d ← lookup_timer (TaskObject.timer_id t);
               if paused d
               then
                 end_time' ← lift (Dt.add (TaskObject.end_time t) Dt.second);
                 Task.update self (fun t =>
                   Task.with_state end_time'
                     (TaskObject.one_minute_warning_sent t)
                     (TaskObject.status t) t)
               else mret tt)).
  pres; auto using registered_one_minute_warning, registered_time_is_up.
Qed.

(** The task that [/time] makes is registered at once. *)
Lemma registered_register id user n channel view w :
  tasks_registered w -> active_timers w !! id = None ->
  tasks_registered
    (fst ((create_task id user n channel view ≫= fun task =>
           set_active_timers
             (insert id {| task := task; view := view; paused := false |}))
            w)).
Proof.
  intros Hw Hfree. unfold create_task, new_task, mbind, M_bind.
  cbn [fst set_tasks set_active_timers tasks active_timers].
  intros k t. cbn [tasks active_timers].
  destruct (decide (size (tasks w) = k)) as [<-|Hne].
  - rewrite lookup_insert_eq. intros [= <-] _. cbn.
    rewrite lookup_insert_eq. eauto.
  - rewrite lookup_insert_ne by exact Hne. intros Ht Ha.
    destruct (Hw k t Ht Ha) as (d & Hd & Hk).
    rewrite lookup_insert_ne; [eauto|]. intros Heq.
    rewrite Heq in Hfree. congruence.
Qed.

Lemma registered_time interaction duration user now :
  preserves tasks_registered (time interaction duration user now).
Proof.
  unfold time.
  apply preserves_bind; [pres|]. intros n.
  destruct (n <=? 0); [pres|].
  intros w Hw. unfold mbind at 1, M_bind at 1, get.
  destruct (bool_decide _) eqn:Hin; [now apply registered_emit|].
  apply bool_decide_eq_false_1 in Hin.
  assert (Hfree : timer_absent
                    (make_timer_id interaction
                       (default (Interaction.user interaction) user)) w).
  { unfold timer_absent.
    destruct (active_timers w !! _); [exfalso; eauto | reflexivity]. }
  clear Hin. revert w Hw Hfree.
  set (id := make_timer_id interaction _).
  enough (Hgoal : forall w, tasks_registered w /\ timer_absent id w ->
            tasks_registered
              (fst ((view ← TimerView.init id interaction n
                               (default (Interaction.user interaction) user)
                               now;
                     v ← get_view view;
                     embed ← lift (TimerView.create_timer_embed v (Py.Int n)
                                     Starting 0x3498db);
                     message ← new_message;
                     emit (SendTimer message embed view);;
                     TimerView.update view
                       (TimerView.with_message (Some message));;
                     task ← create_task id
                              (default (Interaction.user interaction) user) n
                              (Interaction.channel_id interaction) view;
                     set_active_timers
                       (insert id {| task := task; view := view;
                                     paused := false |})) w)))
    by (intros w Hw Hfree; apply Hgoal; now split).
  set (P := fun w => tasks_registered w /\ timer_absent id w).
  assert (HPQ : forall w, P w -> tasks_registered w) by (intros w [H _]; exact H).
  assert (Hkeep : forall A (m : M A),
             preserves tasks_registered m -> preserves (timer_absent id) m ->
             forall w, P w -> P (fst (m w)))
    by (intros A m H1 H2 w [Hw1 Hw2]; split; auto).
  apply (bind_rule P P); [|exact HPQ|].
  { apply Hkeep; unfold TimerView.init; pres. }
  intros view. apply (bind_rule P P); [|exact HPQ|].
  { apply Hkeep; pres. }
  intros v. apply (bind_rule P P); [|exact HPQ|].
  { apply Hkeep; pres. }
  intros embed. apply (bind_rule P P); [|exact HPQ|].
  { apply Hkeep; pres. }
  intros message. apply (bind_rule P P); [|exact HPQ|].
  { apply Hkeep; pres. }
  intros []. apply (bind_rule P P); [|exact HPQ|].
  { apply Hkeep; pres. }
  intros [] w [Hw Hfree]. now apply registered_register.
Qed.

Lemma registered_perform e : preserves tasks_registered (perform e).
Proof.
  destruct e; cbn [perform];
    auto using registered_time, registered_pause_button,
      registered_end_button, registered_update_embed, registered_begin,
      registered_round.
Qed.

Lemma registered_run es w : tasks_registered w -> tasks_registered (run es w).
Proof.
  revert w; induction es as [|e es IH]; intros w Hw; [exact Hw|].
  cbn [run fold_left]. apply IH. now apply registered_perform.
Qed.

(** ** One timer for an identity *)

(** What does hold of the identities when every command runs in one
    piece: two tasks that can still run never belong to the same
    identity; a start on an identity that is registered is refused, and
    the timers, the views and the tasks stay as they were; once the End
    button has been pressed on the timer of an identity, or the
    background task has found its time elapsed, the identity is free
    and a start with a valid duration registers a new timer for it, not
    paused. *)
Lemma one_timer_per_identity :
  (forall es k1 k2 t1 t2,
     let w := run es initial_world in
     tasks w !! k1 = Some t1 -> tasks w !! k2 = Some t2 ->
     alive (TaskObject.status t1) = true ->
     alive (TaskObject.status t2) = true ->
     TaskObject.timer_id t1 = TaskObject.timer_id t2 ->
     k1 = k2)
  /\ (forall interaction duration user now w n,
     let u := default (Interaction.user interaction) user in
     parse_duration duration = Ret n -> 0 < n ->
     is_Some (active_timers w !! make_timer_id interaction u) ->
     let w' := fst (time interaction duration user now w) in
     snd (time interaction duration user now w) = Ret tt
     /\ active_timers w' = active_timers w
     /\ views w' = views w
     /\ tasks w' = tasks w
     /\ sent w' = Respond (AlreadyActive u) :: sent w)
  /\ (forall interaction duration user now w n self v,
        let u := default (Interaction.user interaction) user in
        parse_duration duration = Ret n -> 0 < n ->
        n / 86400 <= 999999999 -> now + n * Dt.second <= Dt.max -> 0 <= now ->
        views w !! self = Some v ->
        ViewObject.timer_id v = make_timer_id interaction u ->
        let w1 := fst (TimerView.end_button self w) in
        let w2 := fst (time interaction duration user now w1) in
        active_timers w1 !! make_timer_id interaction u = None
        /\ snd (time interaction duration user now w1) = Ret tt
        /\ active_timers w2 !! make_timer_id interaction u
           = Some {| task := size (tasks w1); view := size (views w1);
                     paused := false |})
  /\ (forall interaction duration user now w n self t d v now0,
        let u := default (Interaction.user interaction) user in
        parse_duration duration = Ret n -> 0 < n ->
        n / 86400 <= 999999999 -> now + n * Dt.second <= Dt.max -> 0 <= now ->
        tasks w !! self = Some t ->
        TaskObject.status t = TaskObject.Looping ->
        active_timers w !! TaskObject.timer_id t = Some d ->
        paused d = false ->
        Py.le_int (Dt.total_seconds (TaskObject.end_time t - now0)) 0 = true ->
        views w !! TaskObject.view t = Some v ->
        ViewObject.timer_id v = TaskObject.timer_id t ->
        TaskObject.timer_id t = make_timer_id interaction u ->
        let w1 := fst (timer_task_round self now0 w) in
        let w2 := fst (time interaction duration user now w1) in
        active_timers w1 !! make_timer_id interaction u = None
        /\ snd (time interaction duration user now w1) = Ret tt
        /\ active_timers w2 !! make_timer_id interaction u
           = Some {| task := size (tasks w1); view := size (views w1);
                     paused := false |}).
Proof.
  split; [|split; [|split]].
  - intros es k1 k2 t1 t2 w H1 H2 Ha1 Ha2 Hid.
    pose proof (registered_run es initial_world registered_initial) as Hreg.
    destruct (Hreg k1 t1 H1 Ha1) as (d1 & Hd1 & <-).
    destruct (Hreg k2 t2 H2 Ha2) as (d2 & Hd2 & <-).
    congruence.
  - intros interaction duration user now w n u Hp Hn Hin.
    rewrite (time_collision _ _ _ _ _ _ Hp Hn Hin). repeat split.
  - intros interaction duration user now w n self v u Hp Hn Hd Hmax Hnow
      Hv Hid w1.
    assert (Hfree : timer_absent (make_timer_id interaction u) w1)
      by (rewrite <- Hid; now apply end_button_removes).
    rewrite (time_starts _ _ _ _ _ _ Hp Hn Hd Hmax Hnow Hfree).
    split; [exact Hfree|]. split; [reflexivity|]. apply lookup_insert_eq.
  - intros interaction duration user now w n self t d v now0 u Hp Hn Hd Hmax
      Hnow Ht Hs Hreg Hpa Hle Hv Hid Hkey w1.
    assert (Hfree : timer_absent (make_timer_id interaction u) w1)
      by (rewrite <- Hkey; eapply round_finishes; eassumption).
    rewrite (time_starts _ _ _ _ _ _ Hp Hn Hd Hmax Hnow Hfree).
    split; [exact Hfree|]. split; [reflexivity|]. apply lookup_insert_eq.
Qed.

Lemma one_timer_per_identity_witness :
  let w := run [TimeCommand someone "90s" None 0] initial_world in
  let w1 := fst (TimerView.end_button 0 w) in
  let w' := run [TimeCommand someone "1s" None 0; TaskBegin 0 0]
              initial_world in
  let w1' := fst (timer_task_round 0 1000000 w') in
  0%nat = 0%nat
  /\ sent (fst (time someone "45s" None 5000000 w))
     = Respond (AlreadyActive 3) :: sent w
  /\ active_timers (fst (time someone "45s" None 5000000 w1)) !! "1-2-3"%string
     = Some {| task := 1; view := 1; paused := false |}
  /\ active_timers (fst (time someone "45s" None 5000000 w1'))
     !! "1-2-3"%string
     = Some {| task := 1; view := 1; paused := false |}.
Proof.
  intros w w1 w' w1'.
  pose proof one_timer_per_identity as (Hone & Hbusy & Hended & Hfinished).
  split; [|split; [|split]].
  - apply (Hone [TimeCommand someone "90s" None 0] 0%nat 0%nat
             (started_task someone 3 90 0) (started_task someone 3 90 0));
      vm_compute; reflexivity.
  - apply (Hbusy someone "45s"%string None 5000000 w 45).
    + vm_compute; reflexivity.
    + lia.
    + vm_compute. eexists; reflexivity.
  - apply (Hended someone "45s"%string None 5000000 w 45 0%nat
             (started_view someone 3 90 0 (Some 0%nat))).
    + vm_compute; reflexivity.
    + lia.
    + vm_compute; discriminate.
    + vm_compute; discriminate.
    + lia.
    + vm_compute; reflexivity.
    + vm_compute; reflexivity.
  - apply (Hfinished someone "45s"%string None 5000000 w' 45 0%nat
             (Task.with_state 1000000 false TaskObject.Looping
                (started_task someone 3 1 0))
             {| task := 0; view := 0; paused := false |}
             (started_view someone 3 1 0 (Some 0%nat)) 1000000).
    + vm_compute; reflexivity.
    + lia.
    + vm_compute; discriminate.
    + vm_compute; discriminate.
    + lia.
    + vm_compute; reflexivity.
    + reflexivity.
    + vm_compute; reflexivity.
    + reflexivity.
    + vm_compute; reflexivity.
    + vm_compute; reflexivity.
    + reflexivity.
    + vm_compute; reflexivity.
Defined.

(** ** Pressing End twice *)

Lemma stop_timer_run w self v :
  views w !! self = Some v ->
  exists w0,
    TimerView.stop_timer self w = (w0, Ret tt)
    /\ views w0 = views w /\ sent w0 = sent w
    /\ timer_absent (ViewObject.timer_id v) w0
    /\ (timer_absent (ViewObject.timer_id v) w -> w0 = w).
Proof.
  intros Hv. pose proof (stop_timer_removes self v w Hv) as Habs.
  unfold TimerView.stop_timer, mbind, M_bind, get_view, get in *.
  rewrite Hv in *.
  destruct (active_timers w !! ViewObject.timer_id v) as [d|] eqn:Hd.
  - unfold cancel in *. destruct (tasks w !! task d) as [t|].
    + destruct (TaskObject.status t); cbn in *;
        (eexists; split; [reflexivity|]; repeat split; [exact Habs|];
         unfold timer_absent; congruence).
    + cbn in *. eexists; split; [reflexivity|]; repeat split;
        [exact Habs|]. unfold timer_absent; congruence.
  - exists w. repeat split; auto.
Qed.

Lemma end_button_after_stop w w0 self v :
  TimerView.stop_timer self w = (w0, Ret tt) ->
  views w0 !! self = Some v ->
  TimerView.end_button self w = ended self v w0.
Proof.
  intros Hstop Hv. unfold TimerView.end_button.
  rewrite (bind_ret _ _ _ _ _ Hstop).
  unfold TimerView.disable_children, TimerView.update, get_view, set_views,
    mbind, M_bind, lift, emit, raise.
  cbn [views]. rewrite Hv. cbn [views]. rewrite lookup_insert_eq.
  unfold ended, emit. fold (disabled_view v).
  destruct (TimerView.create_timer_embed (disabled_view v) (Py.Int 0) Ended _);
    [|reflexivity].
  change (ViewObject.message (disabled_view v)) with (ViewObject.message v).
  destruct (ViewObject.message v); reflexivity.
Qed.

Lemma disabled_view_twice v : disabled_view (disabled_view v) = disabled_view v.
Proof. reflexivity. Qed.

Lemma ended_state self v w0 :
  active_timers (fst (ended self v w0)) = active_timers w0
  /\ views (fst (ended self v w0)) = <[self := disabled_view v]> (views w0)
  /\ tasks (fst (ended self v w0)) = tasks w0
  /\ exists new, sent (fst (ended self v w0)) = new ++ sent w0
                 /\ notices new = [].
Proof.
  unfold ended.
  destruct (TimerView.create_timer_embed _ _ _ _) as [embed|e].
  - destruct (ViewObject.message v) as [m|]; cbn.
    + repeat split. now exists [EditBoth m embed self; Respond TimerEnded].
    + repeat split. now exists [Respond TimerEnded].
  - cbn. repeat split. now exists [Respond TimerEnded].
Qed.

Lemma ended_result self v w0 w1 :
  snd (ended self (disabled_view v) w1) = snd (ended self v w0).
Proof.
  unfold ended. rewrite disabled_view_twice.
  destruct (TimerView.create_timer_embed _ _ _ _) as [embed|e];
    [|reflexivity].
  change (ViewObject.message (disabled_view v)) with (ViewObject.message v).
  destruct (ViewObject.message v); reflexivity.
Qed.

(** What does hold of a second press: pressed again with nothing in
    between, End leaves the registry, the views and the tasks as the
    first press left them, ends the same way, and sends no notice to
    the channel. *)
Lemma end_button_twice (w : world) (self : nat) :
  let w1 := fst (TimerView.end_button self w) in
  let w2 := fst (TimerView.end_button self w1) in
  active_timers w2 = active_timers w1
  /\ views w2 = views w1
  /\ tasks w2 = tasks w1
  /\ snd (TimerView.end_button self w1) = snd (TimerView.end_button self w)
  /\ exists new, sent w2 = new ++ sent w1 /\ notices new = [].
Proof.
  intros w1 w2. subst w1 w2.
  destruct (views w !! self) as [v|] eqn:Hv.
  - destruct (stop_timer_run w self v Hv)
      as (w0 & Hstop & Hviews & _ & Habs & _).
    rewrite <- Hviews in Hv.
    rewrite (end_button_after_stop w w0 self v Hstop Hv).
    destruct (ended_state self v w0) as (Ha & Hvs & Ht & _).
    set (w1 := fst (ended self v w0)) in *.
    assert (Hv1 : views w1 !! self = Some (disabled_view v))
      by (rewrite Hvs; apply lookup_insert_eq).
    assert (Habs1 : timer_absent (ViewObject.timer_id (disabled_view v)) w1)
      by (unfold timer_absent; rewrite Ha; exact Habs).
    destruct (stop_timer_run w1 self _ Hv1) as (w1' & Hstop1 & _ & _ & _ & Hsame).
    rewrite (Hsame Habs1) in Hstop1.
    rewrite (end_button_after_stop w1 w1 self _ Hstop1 Hv1).
    destruct (ended_state self (disabled_view v) w1) as (Ha2 & Hvs2 & Ht2 & Hs2).
    split; [exact Ha2|]. split.
    { rewrite Hvs2, disabled_view_twice. now apply insert_id. }
    split; [exact Ht2|]. split; [apply ended_result | exact Hs2].
  - assert (He : TimerView.end_button self w = (w, Raise NoSuchObject)).
    { unfold TimerView.end_button, TimerView.stop_timer, mbind, M_bind,
        get_view. now rewrite Hv. }
    rewrite He. cbn [fst snd]. rewrite He. cbn [fst snd].
    repeat split. now exists [].
Qed.

(** ** The progress bar *)

Lemma Z2SF_nonneg z : 0 <= z -> nonneg (Py.Z2SF z).
Proof.
  intros Hz. unfold Py.Z2SF, binary_normalize, binary_round.
  destruct z as [|p|p]; [reflexivity| |lia].
  destruct (shl_align p 0 _) as [mz ez]. now apply binary_round_aux_nonneg.
Qed.

Lemma gt_zero_positive f : SFltb (Py.Z2SF 0) f = true -> positive_float f.
Proof.
  change (Py.Z2SF 0) with (S754_zero false).
  destruct f as [s|[]| |[] m e]; cbn; easy.
Qed.

Lemma fdiv_nonneg x y :
  positive_float x -> nonneg y -> Py.is_finite y = true ->
  nonneg (Py.fdiv x y).
Proof.
  destruct x as [sx|sx| |sx mx ex], y as [sy|sy| |sy my ey];
    cbn [positive_float nonneg Py.is_finite]; try easy;
    intros -> -> _; try reflexivity.
  unfold Py.fdiv, SFdiv, SFdiv_core_binary. cbn [xorb].
  set (m' := match _ - _ - _ with Z0 => _ | Z.pos _ => _ | Z.neg _ => _ end).
  assert (Hm' : 0 <= m').
  { subst m'. destruct (_ - _ - _); try lia. apply Z.shiftl_nonneg. lia. }
  pose proof (Z.div_pos m' (Z.pos my) Hm' ltac:(lia)) as Hq.
  unfold Z.div in Hq.
  destruct (Z.div_eucl m' (Z.pos my)) as [q r]. cbn [fst] in Hq.
  now apply binary_round_aux_nonneg.
Qed.

Lemma fmul_nonneg_l m e y :
  nonneg y -> nonneg (Py.fmul (S754_finite false m e) y).
Proof.
  destruct y as [s|s| |s my ey]; cbn; try easy; try (now intros ->).
  intros ->. now apply binary_round_aux_nonneg.
Qed.

Lemma times_25 q :
  nonneg q ->
  match res_bind (Py.mul (Py.Int 25) (Py.Float q)) Py.int with
  | Ret filled => 0 <= filled
  | Raise e => e = OverflowError
  end.
Proof.
  intros Hq.
  change (Py.mul (Py.Int 25) (Py.Float q))
    with (Ret (Py.Float (Py.fmul (S754_finite false 7036874417766400 (-48)) q))).
  cbn [res_bind Py.int].
  pose proof (fmul_nonneg_l 7036874417766400 (-48) q Hq) as Hn.
  pose proof (int_of_nonneg (Py.fmul (S754_finite false 7036874417766400 (-48)) q))
    as Hi.
  destruct (Py.fmul _ q) as [s|s| |s m e]; cbn [Py.int_of_float nonneg] in *.
  - lia.
  - reflexivity.
  - contradiction.
  - now apply Hi.
Qed.

Lemma filled_length_none initial remaining :
  initial <= 0 \/ Py.gt_int remaining 0 = false ->
  TimerView.filled_length initial remaining = Ret 0.
Proof.
  unfold TimerView.filled_length. intros [Hi|Hr].
  - now replace (0 <? initial) with false by (symmetry; apply Z.ltb_ge; lia).
  - destruct (0 <? initial) eqn:Hi; [|reflexivity]. apply Z.ltb_lt in Hi.
    unfold Py.max0. rewrite Hr. cbn [mbind res_mbind Py.truediv_int].
    replace (Py.int_truediv 0 initial) with (S754_zero false); [reflexivity|].
    unfold Py.int_truediv. cbn [Z.ltb Z.compare xorb].
    now replace (initial <? 0) with false by (symmetry; apply Z.ltb_ge; lia).
Qed.

Lemma filled_length_range initial remaining :
  match TimerView.filled_length initial remaining with
  | Ret filled => 0 <= filled
  | Raise e => e = OverflowError
  end.
Proof.
  destruct (0 <? initial) eqn:Hi;
    [|rewrite filled_length_none by (left; apply Z.ltb_ge in Hi; lia); lia].
  destruct (Py.gt_int remaining 0) eqn:Hgt;
    [|rewrite filled_length_none by (now right); lia].
  unfold TimerView.filled_length. rewrite Hi.
  apply Z.ltb_lt in Hi.
  cbn [mbind res_mbind]. unfold Py.max0. rewrite Hgt.
  destruct remaining as [a|f]; cbn [Py.truediv_int Py.gt_int] in *.
    + apply Z.ltb_lt in Hgt.
      pose proof (int_truediv_nonneg a initial ltac:(lia) Hi) as Hq.
      destruct (Py.is_finite (Py.int_truediv a initial)); [|reflexivity].
      cbn [res_bind]. now apply times_25.
    + unfold Py.float_of_int.
      destruct (Py.is_finite (Py.Z2SF initial)) eqn:Hfin; [|reflexivity].
      cbn [res_bind]. apply times_25. apply fdiv_nonneg; auto.
      * now apply gt_zero_positive.
      * apply Z2SF_nonneg. lia.
Qed.

Lemma bar_length filled :
  0 <= filled ->
  length (TimerView.bar filled) = Z.to_nat (Z.max 25 filled).
Proof.
  intros Hf. unfold TimerView.bar.
  rewrite length_app, !repeat_length. lia.
Qed.


Lemma max_0_pos q : (0 < q)%Q -> max_0 q = q.
Proof.
  intros H. unfold max_0. destruct (Qle_bool q 0) eqn:E; [|reflexivity].
  apply Qle_bool_iff in E. lra.
Qed.

Lemma max_0_neg q : (q <= 0)%Q -> max_0 q = 0%Q.
Proof.
  intros H. unfold max_0. destruct (Qle_bool q 0) eqn:E; [reflexivity|].
  apply Qle_bool_iff in H. congruence.
Qed.

Lemma gt_int_value rs n :
  Py.int rs = Ret n ->
  Py.gt_int rs 0 = false <-> (value rs <= 0)%Q.
Proof.
  destruct rs as [a|f]; cbn [Py.gt_int value Py.int].
  - intros _. rewrite Z.ltb_ge, (Zle_Qle a 0). reflexivity.
  - change (Py.Z2SF 0) with (S754_zero false).
    destruct f as [s|s| |[] m e]; cbn; try discriminate; intros _;
      try (split; [intros _; lra|reflexivity]).
    + pose proof (F2Q_lt 0 (Z.pos m) e ltac:(lia)) as H.
      rewrite F2Q_0 in H. split; [intros _; lra|reflexivity].
    + pose proof (F2Q_lt 0 (Z.pos m) e ltac:(lia)) as H.
      rewrite F2Q_0 in H. split; [discriminate|intros; lra].
Qed.

(** What [filled_length] returns, when there is an embed. *)
Lemma filled_length_spec initial rs n filled :
  Py.int rs = Ret n ->
  TimerView.filled_length initial rs = Ret filled ->
  0 <= filled
  /\ (initial <= 0 \/ (value rs <= 0)%Q -> filled = 0)
  /\ (0 < initial ->
      (forall k,
         (inject_Z k <= fill rs initial * (1 - bpow (-50)))%Q ->
         (fill rs initial * (1 + bpow (-50)) < inject_Z (k + 1))%Q ->
         filled = k)
      /\ (valid rs -> (value rs <= inject_Z initial)%Q -> filled <= 25)
      /\ (valid rs -> (value rs == inject_Z initial)%Q -> filled = 25)).
Proof.
  intros Hint Hf.
  pose proof (filled_length_range initial rs) as Hrange.
  pose proof (filled_length_none initial rs) as Hnone.
  rewrite Hf in Hrange.
  split; [exact Hrange|]. split.
  { intros [H|H]; [|apply (gt_int_value rs n Hint) in H];
      rewrite Hnone in Hf by auto; congruence. }
  intros Hi. pose proof (inject_Z_pos initial Hi) as Hdq.
  pose proof bpow_m50 as E50.
  destruct (Py.gt_int rs 0) eqn:Hgt.
  2:{ rewrite Hnone in Hf by auto. injection Hf as <-.
      pose proof (proj1 (gt_int_value rs n Hint) Hgt) as Hv.
      split; [|split; [lia|]].
      - intros k. unfold fill. rewrite (max_0_neg _ Hv), E50.
        intros Hk1 Hk2.
        assert (E0 : (25 * 0 / inject_Z initial == 0)%Q) by (field; lra).
        rewrite E0 in Hk1, Hk2.
        assert (inject_Z k < inject_Z 1)%Q
          by (change (inject_Z 1) with 1%Q; lra).
        assert (inject_Z 0 < inject_Z (k + 1))%Q
          by (change (inject_Z 0) with 0%Q; lra).
        rewrite <- Zlt_Qlt in *. lia.
      - intros _ Heq. lra. }
  unfold TimerView.filled_length in Hf.
  replace (0 <? initial) with true in Hf by (symmetry; now apply Z.ltb_lt).
  unfold Py.max0 in Hf. rewrite Hgt in Hf. cbn [mbind res_mbind] in Hf.
  destruct (Py.truediv_int rs initial) as [progress|] eqn:Hdiv;
    [|discriminate].
  cbn [res_bind] in Hf.
  destruct (truediv_rounds rs initial n progress Hi Hgt Hint Hdiv)
    as (q & u & -> & Hq & Hu1 & Hu2 & Hpos & Hle & Heq).
  fold (res_bind (Py.mul (Py.Int 25) (Py.Float q)) Py.int) in Hf.
  destruct (times_25_rounds u q filled Hq Hf) as (T1 & T2 & T3).
  split; [|split].
  - intros k Hk1 Hk2. unfold fill in Hk1, Hk2.
    rewrite (max_0_pos _ Hpos) in Hk1, Hk2.
    assert (E : (25 * value rs / inject_Z initial
                 == 25 * (value rs / inject_Z initial))%Q) by (field; lra).
    rewrite E in Hk1, Hk2.
    exact (T3 (value rs / inject_Z initial)%Q k Hu1 Hu2 Hk1 Hk2).
  - intros Hv Hl. apply T1, Hle; assumption.
  - intros Hv Hl. apply T2, Heq; assumption.
Qed.

(** C6, as amended.  In every embed that is made, the bar is
    [filled] full cells followed by [25 - filled] light ones, none when
    that is negative, and [filled] is never negative.  [filled] is 0
    when the initial duration or the time left is not positive.  When
    the initial duration is positive, [filled] is [25 * max(0,
    remaining) / initial] cut toward zero, not rounded: it is the whole
    number [k] whenever that quotient lies between [k] and [k + 1] and
    not within one part in [2^50] of either.  The time left is not
    capped at the initial duration, so the bar has the larger of 25 and
    [filled] cells: it has 25 cells whenever the time left is at most
    the initial duration, all of them full when the two are equal. *)
Theorem progress_bar_cells (v : ViewObject.t) (remaining_seconds : Py.num)
    (status : Status) (color : Z) (e : Embed) :
  let initial := ViewObject.initial_duration v in
  TimerView.create_timer_embed v remaining_seconds status color = Ret e ->
  exists filled,
    TimerView.filled_length initial remaining_seconds = Ret filled
    /\ progress_bar e
       = repeat Full (Z.to_nat filled) ++ repeat Light (Z.to_nat (25 - filled))
    /\ 0 <= filled
    /\ length (progress_bar e) = Z.to_nat (Z.max 25 filled)
    /\ (initial <= 0 \/ (value remaining_seconds <= 0)%Q -> filled = 0)
    /\ (0 < initial ->
        (forall k,
           (inject_Z k
            <= fill remaining_seconds initial * (1 - bpow (-50)))%Q ->
           (fill remaining_seconds initial * (1 + bpow (-50))
            < inject_Z (k + 1))%Q ->
           filled = k)
        /\ (valid remaining_seconds ->
            (value remaining_seconds <= inject_Z initial)%Q ->
            filled <= 25 /\ length (progress_bar e) = 25%nat)
        /\ (valid remaining_seconds ->
            (value remaining_seconds == inject_Z initial)%Q ->
            filled = 25)).
Proof.
  intros initial. unfold TimerView.create_timer_embed.
  cbn [mbind res_mbind].
  destruct (Py.int remaining_seconds) as [n|?] eqn:Hint; [|discriminate].
  cbn [res_bind]. fold initial.
  destruct (TimerView.filled_length initial remaining_seconds)
    as [filled|?] eqn:Hf; [|discriminate].
  cbn [res_bind]. intros [= <-]. exists filled. cbn [progress_bar].
  destruct (filled_length_spec initial remaining_seconds n filled Hint Hf)
    as (H0 & Hnone & Hpos).
  split; [reflexivity|]. split; [reflexivity|]. split; [exact H0|].
  split; [now apply bar_length|]. split; [exact Hnone|].
  intros Hi. destruct (Hpos Hi) as (Hk & Hle & Heq).
  split; [exact Hk|]. split; [|exact Heq].
  intros Hv Hl. specialize (Hle Hv Hl). split; [exact Hle|].
  rewrite bar_length by exact H0. lia.
Qed.

Lemma progress_bar_cells_witness :
  TimerView.filled_length 60 (Dt.total_seconds 59000000) = Ret 24.
Proof.
  destruct (progress_bar_cells (started_view someone 3 60 0 None)
              (Dt.total_seconds 59000000) Running 0x2ecc71
              {| title := 3; time_str := "00:00:59";
                 progress_bar := repeat Full 24 ++ [Light];
                 color := 0x2ecc71; status := Running;
                 footer := Interaction.user someone |})
    as (filled & Hf & _ & _ & _ & _ & Hpos).
  - vm_compute. reflexivity.
  - destruct Hpos as (Hk & _); [cbn; lia|].
    change (TimerView.filled_length 60 (Dt.total_seconds 59000000)
            = Ret filled) in Hf.
    rewrite Hf. f_equal. apply Hk.
    + unfold Qle. vm_compute. discriminate.
    + unfold Qlt. vm_compute. reflexivity.
Defined.

(** C6 as written fails: with 59 seconds left of 60 the bar has 24
    full cells, where rounding 24.58 gives 25; and a time left above
    the initial duration gives a bar of more than 25 cells. *)
Lemma bar_truncates_and_overflows :
  TimerView.filled_length 60 (Py.Int 59) = Ret 24
  /\ TimerView.filled_length 60 (Dt.total_seconds 59000000) = Ret 24
  /\ BarSpec.filled_cells 59 60 = 25
  /\ TimerView.filled_length 60 (Py.Int 120) = Ret 50
  /\ length (TimerView.bar 50) = 50%nat
  /\ BarSpec.cells = 25%nat.
Proof. repeat split; vm_compute; reflexivity. Qed.

(** The margin in the fill is needed: the float for 0.12 s lies just
    below 0.12, so 25 times it lies just below 3, and the float
    product rounds to 3.0: three cells, where the exact quotient
    truncates to 2. *)
Lemma fill_next_to_a_whole_number :
  TimerView.filled_length 1 (Dt.total_seconds 120000) = Ret 3
  /\ (fill (Dt.total_seconds 120000) 1 < 3)%Q
  /\ (3 * (1 - bpow (-50)) < fill (Dt.total_seconds 120000) 1)%Q.
Proof.
  split; [vm_compute; reflexivity|].
  split; unfold Qlt; vm_compute; reflexivity.
Qed.

(** ** Where the code is not what the specification describes *)

(** ** No code writes [duration_seconds] *)

Lemma durations_initial : durations_kept initial_world.
Proof. intros k v Hv. cbn in Hv. now rewrite lookup_empty in Hv. Qed.

Lemma durations_emit o : preserves durations_kept (emit o).
Proof. intros w Hw. exact Hw. Qed.

Lemma durations_set_tasks f : preserves durations_kept (set_tasks f).
Proof. intros w Hw. exact Hw. Qed.

Lemma durations_set_active_timers f :
  preserves durations_kept (set_active_timers f).
Proof. intros w Hw. exact Hw. Qed.

Lemma durations_new_message : preserves durations_kept new_message.
Proof. intros w Hw. exact Hw. Qed.

Lemma durations_new_task t : preserves durations_kept (new_task t).
Proof. intros w Hw. exact Hw. Qed.

Lemma durations_cancel self : preserves durations_kept (cancel self).
Proof.
  intros w Hw. unfold cancel. destruct (tasks w !! self) as [t|]; [|exact Hw].
  destruct (TaskObject.status t); exact Hw.
Qed.

Lemma durations_view_update self f :
  keeps_duration f -> preserves durations_kept (TimerView.update self f).
Proof.
  intros Hf w Hw. unfold TimerView.update, mbind, M_bind, get_view.
  destruct (views w !! self) as [v|] eqn:Hv; [|exact Hw].
  intros k v'. cbn [fst set_views views].
  destruct (decide (self = k)) as [<-|Hne].
  - rewrite lookup_insert_eq. intros [= <-].
    destruct (Hf v) as [-> ->]. now apply (Hw self).
  - rewrite lookup_insert_ne by exact Hne. apply Hw.
Qed.

Lemma durations_new_view v :
  ViewObject.duration_seconds v = ViewObject.initial_duration v ->
  0 < ViewObject.initial_duration v ->
  preserves durations_kept (new_view v).
Proof.
  intros Hd Hi w Hw k v'. unfold new_view. cbn [fst set_views views].
  destruct (decide (size (views w) = k)) as [<-|Hne].
  - rewrite lookup_insert_eq. now intros [= <-].
  - rewrite lookup_insert_ne by exact Hne. apply Hw.
Qed.

#[local] Hint Resolve durations_emit durations_set_tasks
  durations_set_active_timers durations_new_message durations_new_task
  durations_cancel : preserves.
#[local] Hint Extern 1 (preserves durations_kept (TimerView.update _ _)) =>
  apply durations_view_update; intros ?; split; reflexivity : preserves.
#[local] Hint Extern 1 (preserves durations_kept (Task.update _ _)) =>
  unfold Task.update : preserves.

Lemma durations_task_update self f :
  preserves durations_kept (Task.update self f).
Proof. unfold Task.update. pres. Qed.

Lemma durations_store_paused id b : preserves durations_kept (store_paused id b).
Proof. unfold store_paused. pres. Qed.

Lemma durations_disable_children self :
  preserves durations_kept (TimerView.disable_children self).
Proof. unfold TimerView.disable_children. pres. Qed.

Lemma durations_stop_timer self :
  preserves durations_kept (TimerView.stop_timer self).
Proof. unfold TimerView.stop_timer. pres. Qed.

#[local] Hint Resolve durations_task_update durations_store_paused
  durations_disable_children durations_stop_timer : preserves.

Lemma durations_time_is_up self t : preserves durations_kept (time_is_up self t).
Proof. unfold time_is_up. pres. Qed.

Lemma durations_perform e : preserves durations_kept (perform e).
Proof.
  destruct e as [i duration user now | self message now | self
                | self now found | self now | self now]; cbn [perform].
  - unfold time. apply preserves_bind; [pres|]. intros n.
    destruct (n <=? 0) eqn:Hn; [pres|]. apply Z.leb_gt in Hn.
    unfold TimerView.init, create_task. pres.
    apply durations_new_view; [reflexivity | exact Hn].
  - unfold TimerView.pause_button. pres.
  - unfold TimerView.end_button. pres.
  - unfold TimerView.update_embed. pres.
  - unfold timer_task_begin. apply resume_keeps; [|intros; pres].
    intros x w Hw _ _. revert w Hw.
    change (preserves durations_kept
              (d ← lift (Dt.timedelta (TaskObject.duration_seconds x));
               end_time ← lift (Dt.add now d);
               Task.update self
                 (Task.with_state end_time false TaskObject.Looping))).
    pres.
  - unfold timer_task_round. apply resume_keeps; [|intros; pres].
    intros x w Hw _ _. revert w Hw.
    match goal with
    | |- forall w, durations_kept w -> durations_kept (fst (?m w)) =>
        change (preserves durations_kept m)
    end.
    unfold one_minute_warning. pres; apply durations_time_is_up.
Qed.

Lemma durations_run es w : durations_kept w -> durations_kept (run es w).
Proof.
  revert w; induction es as [|e es IH]; intros w Hw; [exact Hw|].
  cbn [run fold_left]. apply IH. now apply durations_perform.
Qed.

(** While a view is paused, [update_embed] shows [duration_seconds],
    which nothing writes after [__init__]: in every run, a paused view
    is shown with its initial duration. *)
Lemma shown_paused v now :
  ViewObject.paused v = true -> 0 < ViewObject.duration_seconds v ->
  TimerView.shown v now
  = (Py.Int (ViewObject.duration_seconds v), Paused, 0xffa500).
Proof.
  intros Hp Hd. unfold TimerView.shown. rewrite Hp. cbn [Py.le_int].
  now replace (ViewObject.duration_seconds v <=? 0) with false
    by (symmetry; apply Z.leb_gt; lia).
Qed.

Lemma paused_view_shows_initial_duration es k v now :
  views (run es initial_world) !! k = Some v ->
  ViewObject.paused v = true ->
  TimerView.shown v now
  = (Py.Int (ViewObject.initial_duration v), Paused, 0xffa500).
Proof.
  intros Hv Hp.
  destruct (durations_run es initial_world durations_initial k v Hv)
    as [Hd Hi].
  rewrite <- Hd. apply shown_paused; [exact Hp | lia].
Qed.

(** A press of Pause on a view whose timer is not registered writes the
    view and raises [KeyError] before any answer. *)
Lemma pause_button_unregistered self message v now w :
  views w !! self = Some v ->
  ViewObject.paused v = false ->
  timer_absent (ViewObject.timer_id v) w ->
  let r := TimerView.pause_button self message now w in
  snd r = Raise KeyError
  /\ sent (fst r) = sent w
  /\ active_timers (fst r) = active_timers w
  /\ (ViewObject.paused <$> views (fst r) !! self) = Some true.
Proof.
  intros Hv Hp Habs.
  unfold TimerView.pause_button, mbind, M_bind, get_view. rewrite Hv, Hp.
  unfold TimerView.update, mbind, M_bind, get_view, set_views.
  cbn [views]. rewrite Hv. cbn [views]. rewrite lookup_insert_eq.
  unfold store_paused, mbind, M_bind, lookup_timer.
  cbn [active_timers]. rewrite Habs. cbn [fst snd views sent active_timers].
  rewrite !lookup_insert_eq. repeat split.
Qed.

(** C1 (the code differs).  A timer of 90 seconds is paused when 60
    seconds are left; nothing records the 60 seconds, and the refresh
    one second later shows 00:01:30 and a full bar, the initial
    duration. *)
Theorem paused_display_shows_initial_duration :
  let w := run paused_at_30 initial_world in
  (ViewObject.paused <$> views w !! 0%nat) = Some true
  /\ ((fun v => ViewObject.end_time v - 30000000) <$> views w !! 0%nat)
     = Some (60 * Dt.second)
  /\ (ViewObject.duration_seconds <$> views w !! 0%nat) = Some 90
  /\ ((fun v => TimerView.shown v 31000000) <$> views w !! 0%nat)
     = Some (Py.Int 90, Paused, 0xffa500)
  /\ sent (fst (TimerView.update_embed 0 31000000 true w))
     = EditEmbed 0
         {| title := 3; time_str := "00:01:30";
            progress_bar := repeat Full 25;
            color := 0xffa500; status := Paused; footer := 3 |}
       :: sent w.
Proof. vm_compute. repeat split; reflexivity. Qed.

(** What does hold of pauses: a round that finds the timer paused sends
    nothing and moves the end of the task by a second, and a resume
    moves the end of the view by the length of the pause. *)
Lemma round_while_paused self t d now w :
  tasks w !! self = Some t ->
  TaskObject.status t = TaskObject.Looping ->
  active_timers w !! TaskObject.timer_id t = Some d ->
  paused d = true ->
  0 <= TaskObject.end_time t + Dt.second <= Dt.max ->
  timer_task_round self now w
  = (fst (set_tasks
            (insert self
               (Task.with_state (TaskObject.end_time t + Dt.second)
                  (TaskObject.one_minute_warning_sent t)
                  TaskObject.Looping t)) w), Ret tt).
Proof.
  intros Ht Hs Hd Hp Hrange.
  unfold timer_task_round, Task.resume. rewrite Ht, Hs. cbn [Task.is_looping].
  unfold mbind, M_bind, lookup_timer, lift, Dt.add. rewrite Hd, Hp.
  cbn [negb mret M_ret]. rewrite Hd, Hp.
  replace ((0 <=? TaskObject.end_time t + Dt.second)
           && (TaskObject.end_time t + Dt.second <=? Dt.max)) with true
    by (symmetry; apply andb_true_iff; split; apply Z.leb_le; lia).
  unfold Task.update, mbind, M_bind, get_task. rewrite Ht, Hs. reflexivity.
Qed.

Lemma resume_moves_end self message v d start now w :
  views w !! self = Some v ->
  ViewObject.paused v = true ->
  ViewObject.pause_start_time v = Some start ->
  active_timers w !! ViewObject.timer_id v = Some d ->
  0 <= ViewObject.end_time v + (now - start) <= Dt.max ->
  let w' := fst (TimerView.pause_button self message now w) in
  snd (TimerView.pause_button self message now w) = Ret tt
  /\ (ViewObject.end_time <$> views w' !! self)
     = Some (ViewObject.end_time v + (now - start))
  /\ (ViewObject.paused <$> views w' !! self) = Some false
  /\ (paused <$> active_timers w' !! ViewObject.timer_id v) = Some false.
Proof.
  intros Hv Hp Hstart Hd Hrange.
  unfold TimerView.pause_button, mbind, M_bind, get_view. rewrite Hv, Hp.
  unfold TimerView.update, mbind, M_bind, get_view, set_views, lift, Dt.add.
  cbn [views]. rewrite Hv, Hstart. cbn [mret M_ret views].
  replace ((0 <=? ViewObject.end_time v + (now - start))
           && (ViewObject.end_time v + (now - start) <=? Dt.max)) with true
    by (symmetry; apply andb_true_iff; split; apply Z.leb_le; lia).
  rewrite !lookup_insert_eq. cbn [views]. rewrite !lookup_insert_eq.
  unfold store_paused, mbind, M_bind, lookup_timer, set_active_timers, emit.
  cbn [active_timers views]. rewrite Hd.
  cbn [fst snd views active_timers].
  rewrite !lookup_insert_eq. repeat split.
Qed.

(** C2 (the code differs).  A timer of 3 seconds is paused for 0.6
    seconds between two rounds of its task.  The view moves its own end
    by the 0.6 seconds, to 3.6 seconds; the task never sees the pause,
    keeps its end at 3 seconds, and at 3 seconds sends the notice that
    the time is up and stops the timer: the timer has run for 2.4
    seconds. *)
Theorem paused_time_counts_toward_expiry :
  let w := run paused_between_rounds initial_world in
  let w' := fst (timer_task_round 0 3000000 w) in
  (ViewObject.end_time <$> views w !! 0%nat) = Some 3600000
  /\ (ViewObject.paused <$> views w !! 0%nat) = Some false
  /\ (TaskObject.end_time <$> tasks w !! 0%nat) = Some 3000000
  /\ (TaskObject.status <$> tasks w !! 0%nat) = Some TaskObject.Looping
  /\ sent w' = EditView 0 0 :: Notify 0 2 TimesUp 3 :: sent w
  /\ active_timers w' = ∅
  /\ ((fun v => fst (fst (TimerView.shown v 3000000))) <$> views w !! 0%nat)
     = Some (Dt.total_seconds 600000).
Proof. vm_compute. repeat split; reflexivity. Qed.

(** C8 (the code differs).  On a timer that has been ended, the press
    of Pause writes the view (paused, the instant of the pause, the
    label) and then raises [KeyError] on the registry: no answer is
    sent. *)
Theorem pause_button_on_ended_timer :
  let w := run started_and_ended initial_world in
  let r := TimerView.pause_button 0 0 6000000 w in
  active_timers w = ∅
  /\ snd r = Raise KeyError
  /\ sent (fst r) = sent w
  /\ active_timers (fst r) = ∅
  /\ (ViewObject.paused <$> views w !! 0%nat) = Some false
  /\ (ViewObject.paused <$> views (fst r) !! 0%nat) = Some true
  /\ (ViewObject.pause_start_time <$> views (fst r) !! 0%nat)
     = Some (Some 6000000)
  /\ (label <$> (ViewObject.pause_item <$> views (fst r) !! 0%nat))
     = Some ResumeLabel.
Proof. vm_compute. repeat split; reflexivity. Qed.

(** ** When the two flags agree *)

Lemma agree_initial : flags_agree initial_world.
Proof.
  split.
  - intros k. cbn. rewrite lookup_empty, map_size_empty. split; [lia | easy].
  - intros id d Hd. cbn in Hd. now rewrite lookup_empty in Hd.
Qed.

Lemma agree_emit o : preserves flags_agree (emit o).
Proof. intros w Hw. exact Hw. Qed.

Lemma agree_set_tasks f : preserves flags_agree (set_tasks f).
Proof. intros w Hw. exact Hw. Qed.

Lemma agree_new_message : preserves flags_agree new_message.
Proof. intros w Hw. exact Hw. Qed.

Lemma agree_cancel self : preserves flags_agree (cancel self).
Proof.
  intros w Hw. unfold cancel. destruct (tasks w !! self) as [t|]; [|exact Hw].
  destruct (TaskObject.status t); exact Hw.
Qed.

Lemma agree_delete id : preserves flags_agree (set_active_timers (delete id)).
Proof.
  intros w [Hnum Hw]. split; [exact Hnum|]. intros id' d. cbn.
  destruct (decide (id = id')) as [<-|Hne].
  - now rewrite lookup_delete_eq.
  - rewrite lookup_delete_ne by exact Hne. apply Hw.
Qed.

Lemma agree_views_insert w k x :
  flags_agree w ->
  (forall v, views w !! k = Some v ->
     ViewObject.timer_id x = ViewObject.timer_id v
     /\ ViewObject.paused x = ViewObject.paused v) ->
  is_Some (views w !! k) ->
  flags_agree (fst (set_views (insert k x) w)).
Proof.
  intros [Hnum Hw] Hx Hk. split; cbn [fst set_views views active_timers].
  - intros j. rewrite map_size_insert_Some by exact Hk.
    rewrite <- Hnum. destruct (decide (k = j)) as [<-|Hne].
    + rewrite lookup_insert_eq. destruct Hk as [v Hv]. rewrite Hv.
      split; discriminate.
    + now rewrite lookup_insert_ne.
  - intros id d Hd. destruct (Hw id d Hd) as (v & Hv & Hid & Hp).
    destruct (decide (k = view d)) as [->|Hne].
    + exists x. rewrite lookup_insert_eq. destruct (Hx v Hv) as [-> ->].
      auto.
    + exists v. now rewrite lookup_insert_ne.
Qed.

Lemma agree_view_update self f :
  keeps_flag f -> preserves flags_agree (TimerView.update self f).
Proof.
  intros Hf w Hw. unfold TimerView.update, mbind, M_bind, get_view.
  destruct (views w !! self) as [v|] eqn:Hv; [|exact Hw].
  apply agree_views_insert; [exact Hw | | now rewrite Hv].
  intros v' Hv'. rewrite Hv in Hv'; injection Hv' as <-. apply Hf.
Qed.

#[local] Hint Resolve agree_emit agree_set_tasks agree_new_message
  agree_cancel agree_delete : preserves.
#[local] Hint Extern 1 (preserves flags_agree (TimerView.update _ _)) =>
  apply agree_view_update; intros ?; split; reflexivity : preserves.

Lemma agree_task_update self f : preserves flags_agree (Task.update self f).
Proof. unfold Task.update. pres. Qed.

Lemma agree_disable_children self :
  preserves flags_agree (TimerView.disable_children self).
Proof. unfold TimerView.disable_children. pres. Qed.

Lemma agree_stop_timer self : preserves flags_agree (TimerView.stop_timer self).
Proof. unfold TimerView.stop_timer. pres. Qed.

#[local] Hint Resolve agree_task_update agree_disable_children
  agree_stop_timer : preserves.

Lemma agree_time_is_up self t : preserves flags_agree (time_is_up self t).
Proof. unfold time_is_up. pres. Qed.

(** What [/time] leaves: the state as it was, one more answer, or a
    timer started on a free identity. *)
Lemma time_outcome interaction duration user now w :
  let u := default (Interaction.user interaction) user in
  let w' := fst (time interaction duration user now w) in
  w' = w
  \/ (exists o, w' = fst (emit (Respond o) w))
  \/ (exists n, timer_absent (make_timer_id interaction u) w
                /\ 0 < n /\ w' = started_world interaction u n now w).
Proof.
  intros u w'. subst w'.
  destruct (parse_duration duration) as [n|e] eqn:Hp.
  2:{ left. unfold time, mbind, M_bind, lift. now rewrite Hp. }
  destruct (Z.leb_spec n 0) as [Hn|Hn].
  { right; left. rewrite (time_invalid _ _ _ _ _ _ Hp Hn). eauto. }
  destruct (active_timers w !! make_timer_id interaction u) as [d|] eqn:Hd.
  { right; left. rewrite (time_collision _ _ _ _ _ _ Hp Hn) by (now exists d).
    eauto. }
  destruct (Dt.timedelta n) as [dt|e] eqn:Hdt.
  2:{ left. unfold time, mbind, M_bind, lift. rewrite Hp.
      replace (n <=? 0) with false by (symmetry; apply Z.leb_gt; lia).
      cbn [get]. fold u. rewrite bool_decide_eq_false_2
        by (rewrite Hd; apply is_Some_None).
      unfold TimerView.init, mbind, M_bind, lift. now rewrite Hdt. }
  destruct (Dt.add now dt) as [end_time|e] eqn:Hadd.
  2:{ left. unfold time, mbind, M_bind, lift. rewrite Hp.
      replace (n <=? 0) with false by (symmetry; apply Z.leb_gt; lia).
      cbn [get]. fold u. rewrite bool_decide_eq_false_2
        by (rewrite Hd; apply is_Some_None).
      unfold TimerView.init, mbind, M_bind, lift. now rewrite Hdt, Hadd. }
  right; right. exists n. split; [exact Hd|]. split; [exact Hn|].
  unfold Dt.timedelta in Hdt.
  destruct (Z.abs (n / 86400) <=? 999999999) eqn:Hdays; [|discriminate].
  injection Hdt as <-. unfold Dt.add in Hadd.
  destruct ((0 <=? now + n * Dt.second) && (now + n * Dt.second <=? Dt.max))
    eqn:Hrange; [|discriminate].
  apply andb_true_iff in Hrange as [H0 Hmax].
  apply Z.leb_le in H0, Hmax, Hdays.
  unfold time, mbind, M_bind, lift. rewrite Hp.
  replace (n <=? 0) with false by (symmetry; apply Z.leb_gt; lia).
  cbn [get]. fold u. rewrite bool_decide_eq_false_2
    by (rewrite Hd; apply is_Some_None).
  unfold TimerView.init, mbind, M_bind, lift, Dt.timedelta.
  replace (Z.abs (n / 86400) <=? 999999999) with true
    by (symmetry; now apply Z.leb_le).
  unfold Dt.add.
  replace ((0 <=? now + n * Dt.second) && (now + n * Dt.second <=? Dt.max))
    with true
    by (symmetry; apply andb_true_iff; split; now apply Z.leb_le).
  unfold new_view, get_view, set_views. cbn [fst views].
  rewrite lookup_insert_eq.
  fold (started_view interaction u n now None).
  rewrite (starting_embed_made _ _ _ _ _ Hn).
  unfold new_message, emit, TimerView.update, mbind, M_bind, get_view,
    set_views.
  cbn [views active_timers tasks next_message sent].
  rewrite lookup_insert_eq.
  unfold create_task, new_task, set_tasks, set_active_timers.
  cbn [fst views active_timers tasks next_message sent].
  rewrite insert_insert_eq. reflexivity.
Qed.

Lemma agree_started interaction u n now w :
  flags_agree w -> timer_absent (make_timer_id interaction u) w ->
  flags_agree (started_world interaction u n now w).
Proof.
  intros [Hnum Hw] Hfree.
  assert (Hfresh : views w !! size (views w) = None) by (apply Hnum; lia).
  split; cbn [started_world views active_timers].
  - intros j. rewrite map_size_insert_None by exact Hfresh.
    destruct (decide (size (views w) = j)) as [<-|Hne].
    + rewrite lookup_insert_eq. split; [discriminate | lia].
    + rewrite lookup_insert_ne by exact Hne. rewrite Hnum. lia.
  - intros id d.
    destruct (decide (make_timer_id interaction u = id)) as [<-|Hne].
    + rewrite lookup_insert_eq. intros [= <-]. cbn [view paused].
      rewrite lookup_insert_eq. eexists. split; [reflexivity|].
      split; reflexivity.
    + rewrite lookup_insert_ne by exact Hne. intros Hd.
      destruct (Hw id d Hd) as (v & Hv & Hid & Hp). exists v.
      rewrite lookup_insert_ne; [auto|]. intros Heq.
      rewrite <- Heq in Hv. congruence.
Qed.

Lemma agree_time interaction duration user now :
  preserves flags_agree (time interaction duration user now).
Proof.
  intros w Hw.
  destruct (time_outcome interaction duration user now w)
    as [-> | [[o ->] | (n & Hfree & _ & ->)]];
    [exact Hw | exact Hw | now apply agree_started].
Qed.

(** The press that the registry answers for writes the view and the
    entry alike. *)
Lemma agree_live_press self message now w :
  flags_agree w ->
  live_press (PauseButton self message now) w ->
  flags_agree (fst (TimerView.pause_button self message now w)).
Proof.
  intros [Hnum Hw] [(v & d & Hv & Hd & Hview) Hret].
  cbn [perform] in Hret. revert Hret.
  assert (Hagree : forall x b,
    ViewObject.timer_id x = ViewObject.timer_id v ->
    ViewObject.paused x = b ->
    flags_agree
      {| active_timers :=
           <[ViewObject.timer_id v :=
               {| task := task d; view := view d; paused := b |}]>
             (active_timers w);
         views := <[self := x]> (views w);
         tasks := tasks w;
         next_message := next_message w;
         sent := sent w |}).
  { intros x b Hid Hb. split; cbn [views active_timers].
    - intros j. rewrite map_size_insert_Some by (now rewrite Hv).
      rewrite <- Hnum. destruct (decide (self = j)) as [<-|Hne].
      + rewrite lookup_insert_eq, Hv. split; discriminate.
      + now rewrite lookup_insert_ne.
    - intros id d'.
      destruct (decide (ViewObject.timer_id v = id)) as [<-|Hne].
      + rewrite lookup_insert_eq. intros [= <-]. cbn [view paused].
        rewrite Hview, lookup_insert_eq. eauto.
      + rewrite lookup_insert_ne by exact Hne. intros Hd'.
        destruct (Hw id d' Hd') as (v' & Hv' & Hid' & Hp'). exists v'.
        rewrite lookup_insert_ne; [auto|]. intros Heq.
        rewrite <- Heq, Hv in Hv'. congruence. }
  destruct (ViewObject.paused v) eqn:Hp.
  - unfold TimerView.pause_button, mbind, M_bind, get_view. rewrite Hv, Hp.
    unfold TimerView.update, mbind, M_bind, get_view, set_views, lift.
    cbn [views]. rewrite Hv.
    destruct (ViewObject.pause_start_time v) as [start|];
      [|cbn; discriminate].
    cbn [mret M_ret views].
    destruct (Dt.add (ViewObject.end_time v) (now - start)) as [e'|e];
      [|cbn; discriminate].
    rewrite !lookup_insert_eq. cbn [views]. rewrite !lookup_insert_eq.
    unfold store_paused, mbind, M_bind, lookup_timer, set_active_timers, emit.
    cbn [active_timers views]. rewrite Hd.
    cbn [fst snd views active_timers tasks next_message sent].
    intros _. rewrite !insert_insert_eq.
    match goal with
    | |- flags_agree {| active_timers := _; views := <[self := ?x]> _;
                        tasks := _; next_message := _; sent := _ |} =>
        destruct (Hagree x false eq_refl eq_refl) as [H1 H2]
    end.
    split; [exact H1 | exact H2].
  - unfold TimerView.pause_button, mbind, M_bind, get_view. rewrite Hv, Hp.
    unfold TimerView.update, mbind, M_bind, get_view, set_views, lift.
    cbn [views]. rewrite Hv. cbn [views]. rewrite !lookup_insert_eq.
    unfold store_paused, mbind, M_bind, lookup_timer, set_active_timers, emit.
    cbn [active_timers views]. rewrite Hd.
    cbn [fst snd views active_timers tasks next_message sent].
    intros _. rewrite !insert_insert_eq.
    match goal with
    | |- flags_agree {| active_timers := _; views := <[self := ?x]> _;
                        tasks := _; next_message := _; sent := _ |} =>
        destruct (Hagree x true eq_refl eq_refl) as [H1 H2]
    end.
    split; [exact H1 | exact H2].
Qed.

Lemma agree_perform e w :
  flags_agree w -> live_press e w -> flags_agree (fst (perform e w)).
Proof.
  intros Hw Hlive.
  destruct e as [i duration user now | self message now | self
                | self now found | self now | self now]; cbn [perform].
  - now apply agree_time.
  - now apply agree_live_press.
  - clear Hlive; revert w Hw. fold (preserves flags_agree (TimerView.end_button self)).
    unfold TimerView.end_button. pres.
  - clear Hlive; revert w Hw.
    fold (preserves flags_agree (TimerView.update_embed self now found)).
    unfold TimerView.update_embed. pres.
  - clear Hlive; revert w Hw.
    fold (preserves flags_agree (timer_task_begin self now)).
    unfold timer_task_begin. apply resume_keeps; [|intros; pres].
    intros x w Hw _ _. revert w Hw.
    change (preserves flags_agree
              (d ← lift (Dt.timedelta (TaskObject.duration_seconds x));
               end_time ← lift (Dt.add now d);
               Task.update self
                 (Task.with_state end_time false TaskObject.Looping))).
    pres.
  - clear Hlive; revert w Hw.
    fold (preserves flags_agree (timer_task_round self now)).
    unfold timer_task_round. apply resume_keeps; [|intros; pres].
    intros x w Hw _ _. revert w Hw.
    match goal with
    | |- forall w, flags_agree w -> flags_agree (fst (?m w)) =>
        change (preserves flags_agree m)
    end.
    unfold one_minute_warning. pres; apply agree_time_is_up.
Qed.

(** In a run whose presses of Pause all fall on the view that the
    registry holds for its identity, and return, the flag of every
    entry is the [paused] of its view. *)
Lemma flags_agree_run es w :
  flags_agree w -> live_presses es w -> flags_agree (run es w).
Proof.
  revert w; induction es as [|e es IH]; intros w Hw Hlive; [exact Hw|].
  destruct Hlive as [He Hes]. cbn [run fold_left]. apply IH; [|exact Hes].
  now apply agree_perform.
Qed.

(** C10 (the code differs).  After a timer has been ended and another
    started for the same identity, a press of Pause on the first
    message sets the flag of the registry, which belongs to the second
    timer, and leaves the view of the second timer running. *)
Theorem stale_press_desynchronises_flags :
  let w := run stale_press initial_world in
  active_timers w !! "1-2-3"%string
  = Some {| task := 1; view := 1; paused := true |}
  /\ (ViewObject.paused <$> views w !! 1%nat) = Some false
  /\ (ViewObject.paused <$> views w !! 0%nat) = Some true.
Proof. vm_compute. repeat split; reflexivity. Qed.

(** ** Two starts at once, and End on a message that is over *)

(** [time] is its two halves, one after the other. *)
Lemma time_in_two_halves interaction duration user now w :
  time interaction duration user now w
  = (p ← time_begin interaction duration user now;
     match p with
     | Some p => time_finish interaction p
     | None => mret tt
     end) w.
Proof.
  unfold time, time_begin, time_finish, mbind, M_bind, lift.
  destruct (parse_duration duration) as [n|e]; [|reflexivity].
  destruct (n <=? 0); [reflexivity|]. cbn [get].
  destruct (bool_decide _); [reflexivity|].
  destruct (TimerView.init _ _ _ _ _ w) as [w1 [view|e]]; [|reflexivity].
  destruct (get_view view w1) as [w2 [v|e]]; [|reflexivity].
  destruct (TimerView.create_timer_embed _ _ _ _) as [embed|e];
    [|reflexivity].
  reflexivity.
Qed.

(** C5 (the code differs).  [/time] looks the identity up in the
    registry, and registers its timer only after it has waited for its
    message twice.  A second [/time] for the same guild, channel and
    user that arrives during the wait finds the registry still empty:
    neither command is refused, both send a timer message, and once
    both have finished there are two views and two background tasks for
    the one identity, both running, while the registry holds the second
    only. *)
Theorem concurrent_starts_both_register :
  let r1 := time_begin someone "90s" None 0 initial_world in
  let r2 := time_begin someone "90s" None 1000000 (fst r1) in
  let w := run [TaskBegin 0 2000000; TaskBegin 1 2000000]
             two_starts_finished in
  snd r1 = Ret (Some first_start)
  /\ snd r2 = Ret (Some second_start)
  /\ active_timers (fst r2) = ∅
  /\ active_timers w !! "1-2-3"%string
     = Some {| task := 1; view := 1; paused := false |}
  /\ ((fun t => (TaskObject.timer_id t, TaskObject.status t))
        <$> tasks w !! 0%nat)
     = Some ("1-2-3"%string, TaskObject.Looping)
  /\ ((fun t => (TaskObject.timer_id t, TaskObject.status t))
        <$> tasks w !! 1%nat)
     = Some ("1-2-3"%string, TaskObject.Looping)
  /\ (ViewObject.timer_id <$> views w !! 0%nat) = Some "1-2-3"%string
  /\ (ViewObject.timer_id <$> views w !! 1%nat) = Some "1-2-3"%string
  /\ length (sent w) = 2%nat.
Proof. vm_compute. repeat split; reflexivity. Qed.

(** C9 (the code differs).  [stop_timer] removes and cancels what is
    registered under the key of its view, whatever view the entry
    holds.  After a timer has been ended and another started for the
    same identity, a second press of End on the first message, the
    message of the timer that is over, removes the entry of the second
    timer and cancels its task. *)
Theorem second_end_stops_the_new_timer :
  let w := run ended_and_restarted initial_world in
  let r := TimerView.end_button 0 w in
  active_timers w !! "1-2-3"%string
  = Some {| task := 1; view := 1; paused := false |}
  /\ (TaskObject.status <$> tasks w !! 1%nat) = Some TaskObject.Created
  /\ (TaskObject.status <$> tasks w !! 0%nat) = Some TaskObject.Cancelled
  /\ snd r = Ret tt
  /\ active_timers (fst r) = ∅
  /\ (TaskObject.status <$> tasks (fst r) !! 1%nat)
     = Some TaskObject.Cancelled
  /\ ((fun v => (ViewObject.paused v, disabled (ViewObject.end_item v)))
        <$> views (fst r) !! 1%nat)
     = Some (false, false).
Proof. vm_compute. repeat split; reflexivity. Qed.

(** The view and the task count from two readings of the clock, the
    task from a later one.  Between the two ends the message shows the
    timer finished, and the identity is still registered: a new [/time]
    for it is refused. *)
Lemma finished_on_the_message_and_refused :
  let w := run refreshed_past_the_end initial_world in
  let r := time someone "90s" None 90300000 w in
  (exists e,
     head (sent w) = Some (EditEmbed 0 e)
     /\ status e = Finished /\ time_str e = "00:00:00"%string)
  /\ is_Some (active_timers w !! "1-2-3"%string)
  /\ sent (fst r) = Respond (AlreadyActive 3) :: sent w
  /\ active_timers (fst r) = active_timers w.
Proof.
  vm_compute. split; [eexists; repeat split|].
  split; [eexists; reflexivity|]. split; reflexivity.
Qed.

(** * Further properties of the timer *)

(** ** Decimal numerals *)

Lemma digits_to_Z_snoc d a :
  Decimal.digits_to_Z (d ++ [a]) = 10 * Decimal.digits_to_Z d + Decimal.digit_val a.
Proof. unfold Decimal.digits_to_Z. now rewrite fold_left_app. Qed.

Lemma pretty_N_char_digit x :
  (x < 10)%N ->
  Decimal.is_digit (pretty_N_char x) = true
  /\ Decimal.digit_val (pretty_N_char x) = Z.of_N x.
Proof.
  intros Hx.
  assert (x = 0 \/ x = 1 \/ x = 2 \/ x = 3 \/ x = 4 \/ x = 5 \/ x = 6
          \/ x = 7 \/ x = 8 \/ x = 9)%N as H by lia.
  repeat (destruct H as [->|H]; [now vm_compute|]). subst. now vm_compute.
Qed.

Lemma string_app_cons a s t : String a s +:+ t = String a (s +:+ t).
Proof. reflexivity. Qed.

Lemma string_app_snoc d c s :
  string_of_list_ascii d +:+ String c s
  = string_of_list_ascii (d ++ [c]) +:+ s.
Proof.
  induction d as [|a d IHd]; [reflexivity|].
  cbn [string_of_list_ascii app]. now rewrite !string_app_cons, IHd.
Qed.

Lemma string_app_empty s : s +:+ "" = s.
Proof.
  induction s as [|a s IHs]; [reflexivity|].
  now rewrite string_app_cons, IHs.
Qed.

(** The numeral of a number: digits only, as many as the number needs,
    and the number is what they read. *)
Lemma pretty_N_go_digits x :
  exists d,
    Decimal.all_digits d /\ Decimal.digits_to_Z d = Z.of_N x
    /\ ((0 < x)%N -> d <> [])
    /\ forall s, pretty_N_go x s = string_of_list_ascii d +:+ s.
Proof.
  induction (N.lt_wf_0 x) as [x _ IH].
  destruct (N.eq_dec x 0%N) as [->|Hx].
  - exists []. split; [constructor|]. split; [reflexivity|].
    split; [lia|]. intros s. apply pretty_N_go_0.
  - assert (Hpos : (0 < x)%N) by lia.
    destruct (IH (x `div` 10)%N) as (d & Hd & Hval & _ & Hgo).
    { apply N.div_lt; lia. }
    destruct (pretty_N_char_digit (x `mod` 10)%N) as [Hc Hv].
    { apply N.mod_lt; lia. }
    exists (d ++ [pretty_N_char (x `mod` 10)]).
    split; [apply Forall_app; split; [exact Hd | now constructor]|].
    split.
    { rewrite digits_to_Z_snoc, Hval, Hv.
      rewrite (N.div_mod x 10) at 3 by lia. lia. }
    split; [intros _; now destruct d|].
    intros s. rewrite pretty_N_go_step by exact Hpos. rewrite Hgo.
    apply string_app_snoc.
Qed.

Lemma pretty_Z_digits z :
  0 <= z ->
  exists d,
    Decimal.all_digits d /\ d <> [] /\ Decimal.digits_to_Z d = z
    /\ pretty z = string_of_list_ascii d.
Proof.
  intros Hz. destruct z as [|p|p]; [| |lia].
  - exists ["0"%char]. repeat split; [|discriminate].
    repeat constructor.
  - destruct (pretty_N_go_digits (N.pos p)) as (d & Hd & Hval & Hne & Hgo).
    exists d. split; [exact Hd|]. split; [apply Hne; lia|].
    split; [exact Hval|].
    unfold pretty, pretty_Z, pretty, pretty_positive, pretty, pretty_N.
    rewrite decide_False by discriminate. rewrite Hgo.
    apply string_app_empty.
Qed.

Lemma list_ascii_app s t :
  list_ascii_of_string (s +:+ t)
  = list_ascii_of_string s ++ list_ascii_of_string t.
Proof.
  induction s as [|a s IHs]; [reflexivity|].
  rewrite string_app_cons. cbn [list_ascii_of_string app]. now rewrite IHs.
Qed.

Lemma digits_then d a r :
  Decimal.all_digits d -> Decimal.is_digit a = false ->
  Spec.take_while Decimal.is_digit (d ++ a :: r) = d
  /\ Spec.drop_while Decimal.is_digit (d ++ a :: r) = a :: r.
Proof.
  intros Hd Ha. induction Hd as [|b d Hb Hd IH]; cbn.
  - now rewrite Ha.
  - rewrite Hb. destruct IH as [-> ->]. split; reflexivity.
Qed.

(** ** The key of a timer *)

Lemma digits_split a a' r r' :
  Decimal.all_digits a -> Decimal.all_digits a' ->
  a ++ "-"%char :: r = a' ++ "-"%char :: r' -> a = a' /\ r = r'.
Proof.
  intros Ha. revert a'. induction Ha as [|x a Hx Ha IH]; intros a' Ha' Heq.
  - destruct Ha' as [|y a' Hy Ha']; cbn in Heq.
    + injection Heq as <-. split; reflexivity.
    + injection Heq as <- _. discriminate Hy.
  - destruct Ha' as [|y a' Hy Ha']; cbn in Heq.
    + injection Heq as -> _. discriminate Hx.
    + injection Heq as <- Heq. destruct (IH a' Ha' Heq) as [-> ->].
      split; reflexivity.
Qed.

(** X1.  The key under which a timer is registered tells the guild,
    the channel and the user apart: two identities with the same key
    are the same identity (ids are not negative). *)
Theorem timer_id_identifies (i1 i2 : Interaction.t) (u1 u2 : Z) :
  0 <= Interaction.guild_id i1 -> 0 <= Interaction.channel_id i1 ->
  0 <= u1 ->
  0 <= Interaction.guild_id i2 -> 0 <= Interaction.channel_id i2 ->
  0 <= u2 ->
  make_timer_id i1 u1 = make_timer_id i2 u2 ->
  Interaction.guild_id i1 = Interaction.guild_id i2
  /\ Interaction.channel_id i1 = Interaction.channel_id i2
  /\ u1 = u2.
Proof.
  intros Hg1 Hc1 Hu1 Hg2 Hc2 Hu2 Heq.
  destruct (pretty_Z_digits _ Hg1) as (g1 & Dg1 & _ & Vg1 & Pg1).
  destruct (pretty_Z_digits _ Hc1) as (c1 & Dc1 & _ & Vc1 & Pc1).
  destruct (pretty_Z_digits _ Hu1) as (d1 & Dd1 & _ & Vd1 & Pd1).
  destruct (pretty_Z_digits _ Hg2) as (g2 & Dg2 & _ & Vg2 & Pg2).
  destruct (pretty_Z_digits _ Hc2) as (c2 & Dc2 & _ & Vc2 & Pc2).
  destruct (pretty_Z_digits _ Hu2) as (d2 & Dd2 & _ & Vd2 & Pd2).
  apply (f_equal list_ascii_of_string) in Heq.
  unfold make_timer_id in Heq.
  rewrite Pg1, Pc1, Pd1, Pg2, Pc2, Pd2 in Heq.
  rewrite !list_ascii_app, !list_ascii_of_string_of_list_ascii in Heq.
  cbn [list_ascii_of_string] in Heq. rewrite <- ?app_assoc in Heq.
  cbn [app] in Heq.
  apply digits_split in Heq as [<- Heq]; [|assumption..].
  apply digits_split in Heq as [<- <-]; [|assumption..].
  repeat split; congruence.
Qed.

Lemma timer_id_identifies_witness :
  Interaction.guild_id someone = 1 /\ Interaction.channel_id someone = 2
  /\ 3 = 3.
Proof.
  apply (timer_id_identifies someone
           {| Interaction.guild_id := 1; Interaction.channel_id := 2;
              Interaction.user := 7 |} 3 3);
    [vm_compute; discriminate .. | reflexivity].
Defined.

(** ** The clock of the embed *)

Lemma digits_to_Z_zero d :
  Decimal.digits_to_Z ("0"%char :: d) = Decimal.digits_to_Z d.
Proof. reflexivity. Qed.

Lemma forallb_digits d : Decimal.all_digits d -> forallb Decimal.is_digit d = true.
Proof.
  intros Hd. induction Hd as [|a d Ha Hd IH]; [reflexivity|].
  cbn [forallb]. now rewrite Ha, IH.
Qed.

(** [f"{x:02}"] for an [x] that is not negative: digits that read [x],
    and two of them below 100. *)
Lemma fmt02_digits x :
  0 <= x ->
  exists d,
    Decimal.all_digits d /\ Decimal.digits_to_Z d = x
    /\ TimerView.fmt02 x = string_of_list_ascii d.
Proof.
  intros Hx. destruct (pretty_Z_digits x Hx) as (d & Hd & _ & Hv & Hp).
  unfold TimerView.fmt02. destruct (_ <? _)%nat.
  - exists ("0"%char :: d). split; [constructor; [reflexivity|exact Hd]|].
    split; [now rewrite digits_to_Z_zero|]. now rewrite Hp.
  - exists d. auto.
Qed.

Lemma fmt02_length x :
  0 <= x < 100 -> String.length (TimerView.fmt02 x) = 2%nat.
Proof.
  intros Hx.
  assert (Hall : forallb (fun k =>
                    Nat.eqb (String.length (TimerView.fmt02 (Z.of_nat k))) 2)
                   (seq 0 100) = true) by (vm_compute; reflexivity).
  pose proof (proj1 (forallb_forall _ _) Hall (Z.to_nat x)) as H.
  cbv beta in H. rewrite Z2Nat.id in H by lia.
  apply Nat.eqb_eq, H, in_seq. lia.
Qed.

Lemma string_length_app s t :
  String.length (s +:+ t) = (String.length s + String.length t)%nat.
Proof.
  induction s as [|a s IHs]; [reflexivity|].
  rewrite string_app_cons. cbn [String.length]. now rewrite IHs.
Qed.

(** X2.  The clock of an embed is the whole seconds left, written as
    hours, minutes and seconds: read back, the text gives [int] of the
    time left, and it has eight characters below a hundred hours. *)
Theorem clock_reads_remaining (v : ViewObject.t) (remaining_seconds : Py.num)
    (status : Status) (color : Z) (e : Embed) (n : Z) :
  TimerView.create_timer_embed v remaining_seconds status color = Ret e ->
  Py.int remaining_seconds = Ret n -> 0 <= n ->
  read_clock (time_str e) = Some n
  /\ (n < 360000 -> String.length (time_str e) = 8%nat).
Proof.
  intros He Hn Hpos. unfold TimerView.create_timer_embed in He.
  rewrite Hn in He. cbn [mbind res_mbind res_bind] in He.
  destruct (TimerView.filled_length _ _) as [filled|]; [|discriminate].
  injection He as <-. cbn [time_str].
  assert (Hh : 0 <= n / 60 / 60) by (repeat apply Z.div_pos; lia).
  pose proof (Z.mod_pos_bound (n / 60) 60 ltac:(lia)) as Hm.
  pose proof (Z.mod_pos_bound n 60 ltac:(lia)) as Hs.
  split.
  - destruct (fmt02_digits _ Hh) as (dh & Dh & Vh & ->).
    destruct (fmt02_digits ((n / 60) mod 60) ltac:(lia))
      as (dm & Dm & Vm & ->).
    destruct (fmt02_digits (n mod 60) ltac:(lia)) as (ds & Ds & Vs & ->).
    unfold read_clock.
    rewrite !list_ascii_app, !list_ascii_of_string_of_list_ascii.
    cbn [list_ascii_of_string app].
    destruct (digits_then dh ":"%char (dm ++ ":"%char :: ds) Dh eq_refl)
      as [-> ->].
    destruct (digits_then dm ":"%char ds Dm eq_refl) as [-> ->].
    rewrite (forallb_digits ds Ds), Vh, Vm, Vs. f_equal.
    pose proof (Z.div_mod n 60 ltac:(lia)).
    pose proof (Z.div_mod (n / 60) 60 ltac:(lia)). lia.
  - intros Hlt. rewrite !string_length_app.
    assert (n / 60 / 60 < 100).
    { apply Z.div_lt_upper_bound; [lia|].
      apply Z.div_lt_upper_bound; lia. }
    rewrite !fmt02_length by lia. reflexivity.
Qed.

Lemma clock_reads_remaining_witness :
  read_clock "01:01:01" = Some 3661.
Proof.
  apply (clock_reads_remaining
           (started_view someone 3 7200 0 None) (Py.Int 3661) Running 0
           {| title := 3; time_str := "01:01:01";
              progress_bar := repeat Full 12 ++ repeat Light 13;
              color := 0; status := Running; footer := 3 |} 3661);
    [vm_compute; reflexivity | reflexivity | lia].
Defined.

(** ** A pause and the resume that follows *)

(** X3.  A press of Pause at [t1] and the next press, at [t2], on the
    view of a registered timer put back what was there but for the end
    of the view, later by the length of the pause [t2 - t1]: the view
    runs again under a button that reads Pause, the flag of the
    registry is down, the tasks are untouched, and the two presses were
    answered and the message edited twice. *)
Theorem pause_then_resume (self m1 m2 : nat) (t1 t2 : Z)
    (v : ViewObject.t) (d : timer_data) (w : world) :
  views w !! self = Some v ->
  ViewObject.paused v = false ->
  active_timers w !! ViewObject.timer_id v = Some d ->
  0 <= ViewObject.end_time v + (t2 - t1) <= Dt.max ->
  let r1 := TimerView.pause_button self m1 t1 w in
  let r2 := TimerView.pause_button self m2 t2 (fst r1) in
  snd r1 = Ret tt /\ snd r2 = Ret tt
  /\ views (fst r2)
     = <[self :=
           TimerView.with_items
             {| label := PauseLabel;
                disabled := disabled (ViewObject.pause_item v) |}
             (ViewObject.end_item v)
             (TimerView.with_timing (ViewObject.end_time v + (t2 - t1))
                false (Some t1) v)]> (views w)
  /\ active_timers (fst r2)
     = <[ViewObject.timer_id v :=
           {| task := task d; view := view d; paused := false |}]>
         (active_timers w)
  /\ tasks (fst r2) = tasks w
  /\ sent (fst r2)
     = EditView m2 self :: Respond TimerResumed
         :: EditView m1 self :: Respond TimerPaused :: sent w.
Proof.
  intros Hv Hp Hd Hrange r1 r2.
  assert (H1 : r1 =
    ({| active_timers :=
          <[ViewObject.timer_id v :=
              {| task := task d; view := view d; paused := true |}]>
            (active_timers w);
        views :=
          <[self :=
              TimerView.with_items
                {| label := ResumeLabel;
                   disabled := disabled (ViewObject.pause_item v) |}
                (ViewObject.end_item v)
                (TimerView.with_timing (ViewObject.end_time v) true
                   (Some t1) v)]> (views w);
        tasks := tasks w; next_message := next_message w;
        sent := EditView m1 self :: Respond TimerPaused :: sent w |},
     Ret tt)).
  { subst r1. unfold TimerView.pause_button, mbind, M_bind, get_view.
    rewrite Hv, Hp.
    unfold TimerView.update, mbind, M_bind, get_view, set_views.
    cbn [views]. rewrite Hv. cbn [views]. rewrite lookup_insert_eq.
    unfold store_paused, mbind, M_bind, lookup_timer, set_active_timers,
      emit.
    cbn [active_timers views]. rewrite Hd.
    cbn [fst snd views active_timers sent tasks next_message].
    now rewrite !insert_insert_eq. }
  subst r2. rewrite H1. cbn [fst snd]. split; [reflexivity|].
  unfold TimerView.pause_button, mbind, M_bind, get_view.
  cbn [views]. rewrite lookup_insert_eq.
  cbn [TimerView.with_items TimerView.with_timing ViewObject.paused
       ViewObject.pause_start_time ViewObject.end_time
       ViewObject.timer_id].
  unfold TimerView.update, mbind, M_bind, get_view, set_views, lift, Dt.add.
  cbn [views]. rewrite !lookup_insert_eq. cbn [mret M_ret views].
  replace ((0 <=? ViewObject.end_time v + (t2 - t1))
           && (ViewObject.end_time v + (t2 - t1) <=? Dt.max)) with true
    by (symmetry; apply andb_true_iff; split; apply Z.leb_le; lia).
  rewrite !lookup_insert_eq. cbn [views]. rewrite !lookup_insert_eq.
  unfold store_paused, mbind, M_bind, lookup_timer, set_active_timers, emit.
  cbn [active_timers views]. rewrite lookup_insert_eq.
  cbn [fst snd views active_timers sent tasks next_message task view].
  rewrite !insert_insert_eq. repeat split.
Qed.

Lemma pause_then_resume_witness :
  let w := run [TimeCommand someone "90s" None 0] initial_world in
  let r1 := TimerView.pause_button 0 0 30000000 w in
  let r2 := TimerView.pause_button 0 0 40000000 (fst r1) in
  (ViewObject.end_time <$> views (fst r2) !! 0%nat) = Some 100000000.
Proof.
  intros w r1 r2.
  destruct (pause_then_resume 0 0 0 30000000 40000000
              (started_view someone 3 90 0 (Some 0%nat))
              {| task := 0; view := 0; paused := false |} w)
    as (_ & _ & Hviews & _).
  - vm_compute; reflexivity.
  - reflexivity.
  - vm_compute; reflexivity.
  - vm_compute. split; discriminate.
  - subst r2 r1. rewrite Hviews. rewrite lookup_insert_eq. reflexivity.
Defined.

(** ** A duration that no date can hold *)

(** X4.  [/time] gives no answer and starts nothing when the duration
    is out of range: when the total of the text overflows a float, when
    its days exceed what a [timedelta] holds, or when the end falls
    after the last [datetime].  The [OverflowError] leaves the command
    before anything is sent or registered. *)
Theorem time_fails_without_answer (interaction : Interaction.t)
    (duration : text) (user : option Z) (now : Z) (w : world) :
  let u := default (Interaction.user interaction) user in
  parse_duration duration = Raise OverflowError
  \/ (exists n,
        parse_duration duration = Ret n /\ 0 < n
        /\ timer_absent (make_timer_id interaction u) w
        /\ (999999999 < n / 86400 \/ Dt.max < now + n * Dt.second
            \/ now + n * Dt.second < 0)) ->
  time interaction duration user now w = (w, Raise OverflowError).
Proof.
  intros u [Hp | (n & Hp & Hn & Hfree & Hout)];
    unfold time, mbind, M_bind, lift; rewrite Hp; [reflexivity|].
  replace (n <=? 0) with false by (symmetry; apply Z.leb_gt; lia).
  cbn [get]. fold u. rewrite bool_decide_eq_false_2
    by (rewrite Hfree; apply is_Some_None).
  unfold TimerView.init, mbind, M_bind, lift, Dt.timedelta.
  pose proof (Z.div_pos n 86400 ltac:(lia) ltac:(lia)) as Hdays.
  destruct (Z.leb_spec (Z.abs (n / 86400)) 999999999) as [Hle|Hgt];
    [|reflexivity].
  unfold Dt.add.
  replace ((0 <=? now + n * Dt.second) && (now + n * Dt.second <=? Dt.max))
    with false; [reflexivity|].
  symmetry. apply andb_false_iff.
  destruct Hout as [H|[H|H]]; [lia | right | left]; apply Z.leb_gt; lia.
Qed.

Lemma time_fails_without_answer_witness :
  time someone many_nines None 0 initial_world
  = (initial_world, Raise OverflowError)
  /\ time someone "99999999999h" None 0 initial_world
     = (initial_world, Raise OverflowError)
  /\ time someone "80000000h" None (63900000000 * Dt.second) initial_world
     = (initial_world, Raise OverflowError).
Proof.
  split; [|split]; apply time_fails_without_answer.
  - left. vm_compute; reflexivity.
  - right. exists 359999999996400. split; [vm_compute; reflexivity|].
    split; [lia|]. split; [reflexivity|]. left. vm_compute; reflexivity.
  - right. exists 288000000000. split; [vm_compute; reflexivity|].
    split; [lia|]. split; [reflexivity|]. right; left.
    vm_compute; reflexivity.
Defined.

(** ** A task that is over sends nothing more *)

Section Over.
Context (k : nat) (out : list output).

Lemma over_set_views f : preserves (over_with k out) (set_views f).
Proof. intros w Hw. exact Hw. Qed.

Lemma over_set_active_timers f :
  preserves (over_with k out) (set_active_timers f).
Proof. intros w Hw. exact Hw. Qed.

Lemma over_new_message : preserves (over_with k out) new_message.
Proof. intros w Hw. exact Hw. Qed.

Lemma over_new_view v : preserves (over_with k out) (new_view v).
Proof. intros w Hw. exact Hw. Qed.

Lemma over_emit o :
  is_notice_of k o = false -> preserves (over_with k out) (emit o).
Proof.
  intros Ho w (Hnum & Ht & Hout). split; [exact Hnum|]. split; [exact Ht|].
  cbn [fst emit sent]. unfold notices_of.
  rewrite filter_cons_False by (rewrite Ho; discriminate). exact Hout.
Qed.

Lemma over_tasks_insert w j x :
  over_with k out w ->
  (forall t, tasks w !! j = Some t ->
     alive (TaskObject.status t) = false ->
     alive (TaskObject.status x) = false) ->
  is_Some (tasks w !! j) ->
  over_with k out (fst (set_tasks (insert j x) w)).
Proof.
  intros (Hnum & (t & Ht & Hdead) & Hout) Hx Hj. unfold numbered in Hnum.
  split; [|split; [|exact Hout]]; cbn [fst set_tasks tasks].
  - intros i. rewrite map_size_insert_Some by exact Hj.
    rewrite <- Hnum. destruct (decide (j = i)) as [<-|Hne].
    + rewrite lookup_insert_eq. destruct Hj as [y Hy]. rewrite Hy.
      split; discriminate.
    + now rewrite lookup_insert_ne.
  - destruct (decide (j = k)) as [->|Hne].
    + exists x. rewrite lookup_insert_eq. split; [reflexivity|].
      now apply (Hx t).
    + exists t. now rewrite lookup_insert_ne.
Qed.

Lemma over_cancel self : preserves (over_with k out) (cancel self).
Proof.
  intros w Hw. unfold cancel.
  destruct (tasks w !! self) as [t|] eqn:Ht; [|exact Hw].
  destruct (TaskObject.status t) eqn:Hs; try exact Hw;
    (apply over_tasks_insert; [exact Hw | | now rewrite Ht]);
    intros; reflexivity.
Qed.

Lemma over_task_update self f :
  keeps_over f -> preserves (over_with k out) (Task.update self f).
Proof.
  intros Hf w Hw. unfold Task.update, mbind, M_bind, get_task.
  destruct (tasks w !! self) as [t|] eqn:Ht; [|exact Hw].
  apply over_tasks_insert; [exact Hw | | now rewrite Ht].
  intros t' Ht'. rewrite Ht in Ht'; injection Ht' as <-. apply Hf.
Qed.

Lemma over_new_task t : preserves (over_with k out) (new_task t).
Proof.
  intros w (Hnum & (x & Hx & Hdead) & Hout). unfold numbered in Hnum.
  assert (Hfresh : tasks w !! size (tasks w) = None) by (apply Hnum; lia).
  split; [|split; [|exact Hout]]; cbn [fst new_task set_tasks tasks].
  - intros i. rewrite map_size_insert_None by exact Hfresh.
    destruct (decide (size (tasks w) = i)) as [<-|Hne].
    + rewrite lookup_insert_eq. split; [discriminate | lia].
    + rewrite lookup_insert_ne by exact Hne. rewrite Hnum. lia.
  - exists x. rewrite lookup_insert_ne; [auto|]. intros Heq.
    rewrite <- Heq in Hx. congruence.
Qed.

Hint Resolve over_set_views over_set_active_timers over_new_message
  over_new_view over_cancel over_new_task : preserves.
Hint Extern 1 (preserves (over_with _ _) (emit _)) =>
  apply over_emit; reflexivity : preserves.
Hint Extern 1 (preserves (over_with _ _) (Task.update _ _)) =>
  apply over_task_update; intros ? ?; cbn; auto : preserves.

Lemma over_view_update self f :
  preserves (over_with k out) (TimerView.update self f).
Proof. unfold TimerView.update. pres. Qed.

Hint Resolve over_view_update : preserves.

Lemma over_store_paused id b :
  preserves (over_with k out) (store_paused id b).
Proof. unfold store_paused. pres. Qed.

Lemma over_disable_children self :
  preserves (over_with k out) (TimerView.disable_children self).
Proof. unfold TimerView.disable_children. pres. Qed.

Lemma over_stop_timer self :
  preserves (over_with k out) (TimerView.stop_timer self).
Proof. unfold TimerView.stop_timer. pres. Qed.

Hint Resolve over_store_paused over_disable_children over_stop_timer
  : preserves.

Lemma over_update_embed self now found :
  preserves (over_with k out) (TimerView.update_embed self now found).
Proof. unfold TimerView.update_embed. pres. Qed.

Lemma over_pause_button self message now :
  preserves (over_with k out) (TimerView.pause_button self message now).
Proof. unfold TimerView.pause_button. pres. Qed.

Lemma over_end_button self :
  preserves (over_with k out) (TimerView.end_button self).
Proof. unfold TimerView.end_button. pres. Qed.

Lemma over_time interaction duration user now :
  preserves (over_with k out) (time interaction duration user now).
Proof. unfold time, TimerView.init, create_task. pres. Qed.

(** The task that is over does not run; another task sends under its
    own number. *)
Lemma over_resume self at_state body :
  (forall s, at_state s = true -> alive s = true) ->
  (self <> k -> forall x, preserves (over_with k out) (body x)) ->
  preserves (over_with k out) (Task.resume self at_state body).
Proof.
  intros Hat Hbody w Hw. unfold Task.resume.
  destruct (tasks w !! self) as [x|] eqn:Hx; [|exact Hw].
  destruct (at_state (TaskObject.status x)) eqn:Hs; [|exact Hw].
  assert (Hne : self <> k).
  { intros ->. destruct Hw as (_ & (t & Ht & Hdead) & _).
    rewrite Hx in Ht; injection Ht as <-.
    rewrite (Hat _ Hs) in Hdead. discriminate. }
  specialize (Hbody Hne x w Hw).
  destruct (body x w) as [w' [[]|e]]; cbn [fst] in *; [exact Hbody|].
  revert Hbody. apply over_task_update. intros y Hy. reflexivity.
Qed.
End Over.

#[local] Hint Resolve over_set_views over_set_active_timers over_new_message
  over_new_view over_cancel over_new_task over_view_update
  over_store_paused over_disable_children over_stop_timer : preserves.
#[local] Hint Extern 1 (preserves (over_with _ _) (Task.update _ _)) =>
  apply over_task_update; intros ? ?; cbn; auto : preserves.

Lemma over_notice k out self channel n user :
  self <> k ->
  preserves (over_with k out) (emit (Notify self channel n user)).
Proof.
  intros Hne. apply over_emit. cbn. now apply Nat.eqb_neq.
Qed.

Lemma over_task_update_other k out self f :
  self <> k -> preserves (over_with k out) (Task.update self f).
Proof.
  intros Hne w Hw. unfold Task.update, mbind, M_bind, get_task.
  destruct (tasks w !! self) as [x|] eqn:Hx; [|exact Hw].
  destruct Hw as (Hnum & (t & Ht & Hdead) & Hout). unfold numbered in Hnum.
  split; [|split; [|exact Hout]]; cbn [fst set_tasks tasks].
  - intros i. rewrite map_size_insert_Some by (now rewrite Hx).
    rewrite <- Hnum. destruct (decide (self = i)) as [<-|Hni].
    + rewrite lookup_insert_eq, Hx. split; discriminate.
    + now rewrite lookup_insert_ne.
  - exists t. now rewrite lookup_insert_ne.
Qed.

Lemma over_begin k out self now :
  preserves (over_with k out) (timer_task_begin self now).
Proof.
  unfold timer_task_begin. apply over_resume.
  - now intros [].
  - intros Hne x. pres. now apply over_task_update_other.
Qed.

Lemma over_round k out self now :
  preserves (over_with k out) (timer_task_round self now).
Proof.
  unfold timer_task_round. apply over_resume.
  - now intros [].
  - intros Hne x. unfold one_minute_warning, time_is_up.
    pres; try (apply over_notice; exact Hne);
      now apply over_task_update_other.
Qed.

Lemma over_perform k out e : preserves (over_with k out) (perform e).
Proof.
  destruct e; cbn [perform];
    auto using over_time, over_pause_button, over_end_button,
      over_update_embed, over_begin, over_round.
Qed.

Lemma over_run k out es w : over_with k out w -> over_with k out (run es w).
Proof.
  revert w; induction es as [|e es IH]; intros w Hw; [exact Hw|].
  cbn [run fold_left]. apply IH. now apply over_perform.
Qed.

Lemma run_app es1 es2 w : run (es1 ++ es2) w = run es2 (run es1 w).
Proof. unfold run. apply fold_left_app. Qed.

Lemma numbered_tasks_run es : numbered (tasks (run es initial_world)).
Proof.
  destruct (warned_run es initial_world warned_once_initial) as [Hnum _].
  exact Hnum.
Qed.

(** X5.  A background task that is over, because it finished, was
    cancelled by End or by a lost message, or failed, sends nothing
    more to its channel, whatever happens next: the notices it has sent
    at any later point of the run are those it had sent. *)
Theorem finished_task_is_silent (es es' : list event) (task : nat)
    (t : TaskObject.t) :
  tasks (run es initial_world) !! task = Some t ->
  alive (TaskObject.status t) = false ->
  notices_of task (sent (run (es ++ es') initial_world))
  = notices_of task (sent (run es initial_world)).
Proof.
  intros Ht Hdead. rewrite run_app.
  apply (over_run task (notices_of task (sent (run es initial_world))) es').
  split; [apply numbered_tasks_run|]. split; [eauto | reflexivity].
Qed.

Lemma finished_task_is_silent_witness :
  notices_of 0
    (sent (run ([TimeCommand someone "90s" None 0; TaskBegin 0 0;
                 EndButton 0]
                ++ [TaskRound 0 100000000; TaskRound 0 200000000])
             initial_world))
  = [].
Proof.
  apply (finished_task_is_silent
           [TimeCommand someone "90s" None 0; TaskBegin 0 0; EndButton 0]
           [TaskRound 0 100000000; TaskRound 0 200000000] 0
           (Task.with_state 90000000 false TaskObject.Cancelled
              (started_task someone 3 90 0)));
    vm_compute; reflexivity.
Defined.

(** ** What every state of a run has *)

Lemma numbered_empty {A : Type} : numbered (∅ : gmap nat A).
Proof.
  intros k. rewrite lookup_empty, map_size_empty. split; [lia | easy].
Qed.

Lemma numbered_insert_Some {A : Type} (m : gmap nat A) k x :
  numbered m -> is_Some (m !! k) -> numbered (<[k := x]> m).
Proof.
  intros Hnum Hk j. rewrite map_size_insert_Some by exact Hk.
  rewrite <- (Hnum j). destruct (decide (k = j)) as [<-|Hne].
  - rewrite lookup_insert_eq. destruct Hk as [y Hy]. rewrite Hy.
    split; discriminate.
  - now rewrite lookup_insert_ne.
Qed.

Lemma numbered_insert_new {A : Type} (m : gmap nat A) x :
  numbered m -> numbered (<[size m := x]> m).
Proof.
  intros Hnum j.
  assert (Hfresh : m !! size m = None) by (apply Hnum; lia).
  rewrite map_size_insert_None by exact Hfresh.
  destruct (decide (size m = j)) as [<-|Hne].
  - rewrite lookup_insert_eq. split; [discriminate | lia].
  - rewrite lookup_insert_ne by exact Hne. rewrite (Hnum j). lia.
Qed.

Lemma sound_initial : sound initial_world.
Proof.
  split; [apply numbered_empty|]. split; [apply numbered_empty|].
  cbn. repeat split; intros *; rewrite lookup_empty; discriminate.
Qed.

Lemma sound_emit o : preserves sound (emit o).
Proof. intros w Hw. exact Hw. Qed.

Lemma sound_new_message : preserves sound new_message.
Proof. intros w Hw. exact Hw. Qed.

Lemma sound_delete id : preserves sound (set_active_timers (delete id)).
Proof.
  intros w (Hv & Ht & Hm & Hd & Hrest).
  split; [exact Hv|]. split; [exact Ht|]. split; [exact Hm|].
  split; [|exact Hrest]. intros id' d. cbn.
  destruct (decide (id = id')) as [<-|Hne].
  - now rewrite lookup_delete_eq.
  - rewrite lookup_delete_ne by exact Hne. apply Hd.
Qed.

Lemma sound_store_paused id b : preserves sound (store_paused id b).
Proof.
  intros w Hw. unfold store_paused, mbind, M_bind, lookup_timer.
  destruct (active_timers w !! id) as [d|] eqn:Heq; [|exact Hw].
  destruct Hw as (Hv & Ht & Hm & Hd & Hrest).
  split; [exact Hv|]. split; [exact Ht|]. split; [exact Hm|].
  split; [|exact Hrest]. intros id' d'. cbn.
  destruct (decide (id = id')) as [<-|Hne].
  - rewrite lookup_insert_eq. intros [= <-]. cbn [view]. now apply Hd.
  - rewrite lookup_insert_ne by exact Hne. apply Hd.
Qed.

Lemma sound_views_insert w k x :
  sound w ->
  (forall v, views w !! k = Some v ->
     ViewObject.timer_id x = ViewObject.timer_id v
     /\ (is_Some (ViewObject.message v) -> is_Some (ViewObject.message x))) ->
  is_Some (views w !! k) ->
  sound (fst (set_views (insert k x) w)).
Proof.
  intros (Hv & Ht & Hm & Hd & He & Hf) Hx Hk.
  assert (Hlook : forall j v, views w !! j = Some v ->
            exists v', <[k := x]> (views w) !! j = Some v'
                       /\ ViewObject.timer_id v' = ViewObject.timer_id v).
  { intros j v Hj. destruct (decide (k = j)) as [<-|Hne].
    - exists x. rewrite lookup_insert_eq. split; [reflexivity|].
      now apply Hx.
    - exists v. now rewrite lookup_insert_ne. }
  split; [now apply numbered_insert_Some|]. split; [exact Ht|].
  cbn [fst set_views views tasks active_timers].
  split; [|split; [|split; [|exact Hf]]].
  - intros j v. destruct (decide (k = j)) as [<-|Hne].
    + rewrite lookup_insert_eq. intros [= <-]. destruct Hk as [y Hy].
      apply (Hx y Hy). now apply (Hm k).
    + rewrite lookup_insert_ne by exact Hne. apply Hm.
  - intros id d Hid. destruct (Hd id d Hid) as (v & Hview & <-).
    now apply Hlook.
  - intros j t Hj. destruct (He j t Hj) as (v & Hview & <-).
    now apply Hlook.
Qed.

Lemma sound_view_update self f :
  keeps_view f -> preserves sound (TimerView.update self f).
Proof.
  intros Hf w Hw. unfold TimerView.update, mbind, M_bind, get_view.
  destruct (views w !! self) as [v|] eqn:Hv; [|exact Hw].
  apply sound_views_insert; [exact Hw | | now rewrite Hv].
  intros v' Hv'. rewrite Hv in Hv'; injection Hv' as <-. apply Hf.
Qed.

Lemma sound_tasks_insert w k x :
  sound w ->
  (forall t, tasks w !! k = Some t ->
     TaskObject.timer_id x = TaskObject.timer_id t
     /\ TaskObject.view x = TaskObject.view t
     /\ (forall e, TaskObject.status x = TaskObject.Failed e ->
           TaskObject.status t = TaskObject.Failed e
           \/ e = OverflowError)) ->
  is_Some (tasks w !! k) ->
  sound (fst (set_tasks (insert k x) w)).
Proof.
  intros (Hv & Ht & Hm & Hd & He & Hf) Hx Hk.
  split; [exact Hv|]. split; [now apply numbered_insert_Some|].
  cbn [fst set_tasks views tasks active_timers].
  split; [exact Hm|]. split; [exact Hd|]. split.
  - intros j t. destruct (decide (k = j)) as [<-|Hne].
    + rewrite lookup_insert_eq. intros [= <-]. destruct Hk as [y Hy].
      destruct (Hx y Hy) as (-> & -> & _). now apply (He k).
    + rewrite lookup_insert_ne by exact Hne. apply He.
  - intros j t e. destruct (decide (k = j)) as [<-|Hne].
    + rewrite lookup_insert_eq. intros [= <-] Hs. destruct Hk as [y Hy].
      destruct (Hx y Hy) as (_ & _ & Hfail).
      destruct (Hfail e Hs) as [Hy'|Hy']; [now apply (Hf k y) | exact Hy'].
    + rewrite lookup_insert_ne by exact Hne. apply Hf.
Qed.

Lemma sound_cancel self : preserves sound (cancel self).
Proof.
  intros w Hw. unfold cancel.
  destruct (tasks w !! self) as [t|] eqn:Ht; [|exact Hw].
  destruct (TaskObject.status t) eqn:Hs; try exact Hw;
    (apply sound_tasks_insert; [exact Hw | | now rewrite Ht]);
    intros t' Ht'; rewrite Ht in Ht'; injection Ht' as <-; cbn;
    (split; [reflexivity|]; split; [reflexivity | discriminate]).
Qed.

Lemma sound_task_update self f :
  keeps_task f -> preserves sound (Task.update self f).
Proof.
  intros Hf w Hw. unfold Task.update, mbind, M_bind, get_task.
  destruct (tasks w !! self) as [t|] eqn:Ht; [|exact Hw].
  apply sound_tasks_insert; [exact Hw | | now rewrite Ht].
  intros t' Ht'. rewrite Ht in Ht'; injection Ht' as <-.
  destruct (Hf t) as (H1 & H2 & H3). split; [exact H1|].
  split; [exact H2|]. intros e He. left. now apply H3.
Qed.

#[local] Hint Resolve sound_emit sound_new_message sound_delete
  sound_store_paused sound_cancel : preserves.
#[local] Hint Extern 1 (preserves sound (TimerView.update _ _)) =>
  apply sound_view_update; intros ?; split; [reflexivity | cbn; auto]
  : preserves.
#[local] Hint Extern 1 (preserves sound (Task.update _ _)) =>
  apply sound_task_update; intros ?; cbn;
  (split; [reflexivity|]; split; [reflexivity|]);
  try discriminate; auto : preserves.

Lemma sound_disable_children self :
  preserves sound (TimerView.disable_children self).
Proof. unfold TimerView.disable_children. pres. Qed.

Lemma sound_stop_timer self : preserves sound (TimerView.stop_timer self).
Proof. unfold TimerView.stop_timer. pres. Qed.

#[local] Hint Resolve sound_disable_children sound_stop_timer : preserves.

Lemma sound_update_embed self now found :
  preserves sound (TimerView.update_embed self now found).
Proof. unfold TimerView.update_embed. pres. Qed.

Lemma sound_pause_button self message now :
  preserves sound (TimerView.pause_button self message now).
Proof. unfold TimerView.pause_button. pres. Qed.

Lemma sound_end_button self : preserves sound (TimerView.end_button self).
Proof. unfold TimerView.end_button. pres. Qed.

Lemma sound_time_is_up self t : preserves sound (time_is_up self t).
Proof.
  unfold time_is_up. pres.
  apply sound_task_update. intros x. destruct (TaskObject.status x) eqn:Hs;
    cbn; rewrite ?Hs; repeat split; auto; discriminate.
Qed.

Lemma sound_started interaction u n now w :
  sound w -> sound (started_world interaction u n now w).
Proof.
  intros (Hv & Ht & Hm & Hd & He & Hf).
  assert (Hfresh : views w !! size (views w) = None) by (apply Hv; lia).
  assert (Hfresh' : tasks w !! size (tasks w) = None) by (apply Ht; lia).
  assert (Hold : forall j v, views w !! j = Some v ->
            <[size (views w) :=
                started_view interaction u n now (Some (next_message w))]>
              (views w) !! j = Some v).
  { intros j v Hj. rewrite lookup_insert_ne; [exact Hj|]. congruence. }
  split; [now apply numbered_insert_new|].
  split; [now apply numbered_insert_new|].
  cbn [started_world views tasks active_timers].
  split; [|split; [|split]].
  - intros j v. destruct (decide (size (views w) = j)) as [<-|Hne].
    + rewrite lookup_insert_eq. intros [= <-]. cbn. eauto.
    + rewrite lookup_insert_ne by exact Hne. apply Hm.
  - intros id d.
    destruct (decide (make_timer_id interaction u = id)) as [<-|Hne].
    + rewrite lookup_insert_eq. intros [= <-]. cbn [view].
      rewrite lookup_insert_eq. eauto.
    + rewrite lookup_insert_ne by exact Hne. intros Hid.
      destruct (Hd id d Hid) as (v & Hview & Hkey). eauto.
  - intros j t. destruct (decide (size (tasks w) = j)) as [<-|Hne].
    + rewrite lookup_insert_eq. intros [= <-]. cbn.
      rewrite lookup_insert_eq. eauto.
    + rewrite lookup_insert_ne by exact Hne. intros Hj.
      destruct (He j t Hj) as (v & Hview & Hkey). eauto.
  - intros j t e. destruct (decide (size (tasks w) = j)) as [<-|Hne].
    + rewrite lookup_insert_eq. intros [= <-]. discriminate.
    + rewrite lookup_insert_ne by exact Hne. apply Hf.
Qed.

Lemma sound_time interaction duration user now :
  preserves sound (time interaction duration user now).
Proof.
  intros w Hw.
  destruct (time_outcome interaction duration user now w)
    as [-> | [[o ->] | (n & _ & _ & ->)]];
    [exact Hw | exact Hw | now apply sound_started].
Qed.

(** What the pieces of a round return. *)
Lemma task_update_run self f x w :
  tasks w !! self = Some x ->
  Task.update self f w = (fst (set_tasks (insert self (f x)) w), Ret tt).
Proof.
  intros Hx. unfold Task.update, mbind, M_bind, get_task. now rewrite Hx.
Qed.

Lemma view_update_run self f v w :
  views w !! self = Some v ->
  TimerView.update self f w
  = (fst (set_views (insert self (f v)) w), Ret tt).
Proof.
  intros Hv. unfold TimerView.update, mbind, M_bind, get_view.
  now rewrite Hv.
Qed.

Section HasTask.
Context (k : nat).

Lemma has_task_emit o : preserves (has_task k) (emit o).
Proof. intros w Hw. exact Hw. Qed.

Lemma has_task_set_views f : preserves (has_task k) (set_views f).
Proof. intros w Hw. exact Hw. Qed.

Lemma has_task_set_active_timers f :
  preserves (has_task k) (set_active_timers f).
Proof. intros w Hw. exact Hw. Qed.

Lemma has_task_insert j x :
  preserves (has_task k) (set_tasks (insert j x)).
Proof.
  intros w Hw. unfold has_task in *. cbn.
  destruct (decide (j = k)) as [->|Hne].
  - rewrite lookup_insert_eq. eauto.
  - now rewrite lookup_insert_ne.
Qed.

Lemma has_task_cancel self : preserves (has_task k) (cancel self).
Proof.
  intros w Hw. unfold cancel. destruct (tasks w !! self) as [t|]; [|exact Hw].
  destruct (TaskObject.status t); try exact Hw; now apply has_task_insert.
Qed.

Hint Resolve has_task_emit has_task_set_views has_task_set_active_timers
  has_task_insert has_task_cancel : preserves.

Lemma has_task_stop_timer self :
  preserves (has_task k) (TimerView.stop_timer self).
Proof. unfold TimerView.stop_timer. pres. Qed.
End HasTask.

Lemma sound_one_minute_warning self t r :
  preserves sound (one_minute_warning self t r).
Proof. unfold one_minute_warning. pres. Qed.

Lemma one_minute_warning_sound self t r w :
  sound w -> tasks w !! self = Some t ->
  exists w1,
    one_minute_warning self t r w = (w1, Ret tt)
    /\ sound w1 /\ has_task self w1
    /\ views w1 = views w /\ active_timers w1 = active_timers w.
Proof.
  intros Hw Ht.
  pose proof (sound_one_minute_warning self t r w Hw) as Hsound.
  unfold one_minute_warning in *. destruct (_ && _).
  - unfold mbind at 1, M_bind at 1 in Hsound.
    unfold mbind at 1, M_bind at 1. cbn [emit] in *.
    rewrite (task_update_run _ _ t) in * by exact Ht.
    eexists. split; [reflexivity|]. split; [exact Hsound|].
    split; [|split; reflexivity]. unfold has_task. cbn.
    rewrite lookup_insert_eq. eauto.
  - exists w. split; [reflexivity|]. split; [exact Hw|].
    split; [|split; reflexivity]. unfold has_task. rewrite Ht. eauto.
Qed.

Lemma time_is_up_sound self t v w :
  sound w -> has_task self w ->
  views w !! TaskObject.view t = Some v ->
  exists w2, time_is_up self t w = (w2, Ret tt) /\ sound w2.
Proof.
  intros Hw Hself Hv.
  pose proof (sound_time_is_up self t w Hw) as Hsound.
  assert (Hm : is_Some (ViewObject.message v)).
  { destruct Hw as (_ & _ & Hm & _). now apply (Hm (TaskObject.view t)). }
  destruct Hm as [m Hm].
  unfold time_is_up in *. unfold mbind at 1, M_bind at 1 in Hsound.
  unfold mbind at 1, M_bind at 1. cbn [emit] in *.
  set (w0 := {| active_timers := active_timers w; views := views w;
                tasks := tasks w; next_message := next_message w;
                sent := Notify self (TaskObject.channel t) TimesUp
                          (TaskObject.user t) :: sent w |}) in *.
  destruct (stop_timer_run w0 (TaskObject.view t) v Hv)
    as (w1 & Hstop & Hviews & _).
  pose proof (has_task_stop_timer self (TaskObject.view t) w0 Hself)
    as Hself1.
  rewrite Hstop in Hself1. cbn [fst] in Hself1.
  unfold mbind at 1, M_bind at 1 in Hsound.
  unfold mbind at 1, M_bind at 1. rewrite Hstop in *.
  unfold TimerView.disable_children in *.
  assert (Hv1 : views w1 !! TaskObject.view t = Some v)
    by (now rewrite Hviews).
  unfold mbind at 1, M_bind at 1 in Hsound.
  unfold mbind at 1, M_bind at 1.
  rewrite (view_update_run _ _ v) in * by exact Hv1.
  unfold mbind at 1, M_bind at 1 in Hsound.
  unfold mbind at 1, M_bind at 1.
  unfold mbind at 1, M_bind at 1 in Hsound.
  unfold mbind at 1, M_bind at 1.
  unfold get_view at 1 in Hsound. unfold get_view at 1.
  cbn [fst set_views views] in *. rewrite lookup_insert_eq in *.
  cbn [TimerView.with_items ViewObject.message] in *. rewrite Hm in *.
  cbn [emit] in *.
  destruct Hself1 as [x Hx].
  erewrite task_update_run in * by (cbn [tasks]; exact Hx).
  eexists. split; [reflexivity | exact Hsound].
Qed.

Lemma timedelta_raises n e : Dt.timedelta n = Raise e -> e = OverflowError.
Proof. unfold Dt.timedelta. destruct (_ <=? _); congruence. Qed.

Lemma add_raises t d e : Dt.add t d = Raise e -> e = OverflowError.
Proof. unfold Dt.add. destruct (_ && _); congruence. Qed.

(** A task that its body can only fail by an overflow stays sound. *)
Lemma sound_resume self at_state body w :
  sound w ->
  (forall x, tasks w !! self = Some x ->
     at_state (TaskObject.status x) = true ->
     sound (fst (body x w))
     /\ forall e, snd (body x w) = Raise e -> e = OverflowError) ->
  sound (fst (Task.resume self at_state body w)).
Proof.
  intros Hw Hbody. unfold Task.resume.
  destruct (tasks w !! self) as [x|] eqn:Hx; [|exact Hw].
  destruct (at_state (TaskObject.status x)) eqn:Hs; [|exact Hw].
  destruct (Hbody x eq_refl Hs) as [Hs' He].
  destruct (body x w) as [w' [[]|e]]; cbn [fst snd] in *; [exact Hs'|].
  rewrite (He e eq_refl).
  unfold Task.update, mbind, M_bind, get_task.
  destruct (tasks w' !! self) as [y|] eqn:Hy; [|exact Hs'].
  apply sound_tasks_insert; [exact Hs' | | now rewrite Hy].
  intros t Ht. rewrite Hy in Ht; injection Ht as <-. cbn.
  split; [reflexivity|]. split; [reflexivity|].
  intros e' [= <-]. now right.
Qed.

Lemma sound_begin self now : preserves sound (timer_task_begin self now).
Proof.
  intros w Hw. unfold timer_task_begin. apply sound_resume; [exact Hw|].
  intros x Hx _. unfold mbind, M_bind, lift.
  destruct (Dt.timedelta _) as [d|e] eqn:Hd; cbn [fst snd].
  2:{ split; [exact Hw|]. intros e' Heq; assert (e = e') by congruence; subst e'. eapply timedelta_raises, Hd. }
  destruct (Dt.add now d) as [end_time|e] eqn:Ha; cbn [fst snd].
  2:{ split; [exact Hw|]. intros e' Heq; assert (e = e') by congruence; subst e'. eapply add_raises, Ha. }
  rewrite (task_update_run _ _ x) by exact Hx. cbn [fst snd].
  split; [|discriminate].
  apply sound_tasks_insert; [exact Hw | | now rewrite Hx].
  intros t Ht. rewrite Hx in Ht; injection Ht as <-. cbn.
  split; [reflexivity|]. split; [reflexivity | discriminate].
Qed.

Lemma sound_round self now w :
  sound w -> tasks_registered w ->
  sound (fst (timer_task_round self now w)).
Proof.
  intros Hw Hreg. unfold timer_task_round. apply sound_resume; [exact Hw|].
  intros t Ht Hs.
  assert (Hlive : alive (TaskObject.status t) = true)
    by (destruct (TaskObject.status t); try discriminate; reflexivity).
  destruct (Hreg self t Ht Hlive) as (d & Hd & _).
  assert (Hview : exists v, views w !! TaskObject.view t = Some v).
  { destruct Hw as (_ & _ & _ & _ & He & _).
    destruct (He self t Ht) as (v & Hv & _). eauto. }
  destruct Hview as [v Hv].
  match goal with
  | |- sound (fst ?b) /\ _ => destruct b as [w' r] eqn:Hb
  end.
  cbn [fst snd].
  unfold mbind at 1, M_bind at 1, lookup_timer at 1 in Hb. rewrite Hd in Hb.
  destruct (paused d) eqn:Hp; cbn [negb] in Hb.
  - unfold mbind at 1, M_bind at 1 in Hb. cbn [mret M_ret] in Hb.
    unfold mbind at 1, M_bind at 1, lookup_timer at 1 in Hb.
    rewrite Hd, Hp in Hb.
    unfold mbind at 1, M_bind at 1, lift in Hb.
    destruct (Dt.add _ _) as [end_time|e] eqn:Ha.
    2:{ injection Hb as <- <-. split; [exact Hw|].
        intros e' [= <-]. eapply add_raises, Ha. }
    rewrite (task_update_run _ _ t) in Hb by exact Ht.
    injection Hb as <- <-. split; [|discriminate].
    apply sound_tasks_insert; [exact Hw | | now rewrite Ht].
    intros t' Ht'. rewrite Ht in Ht'; injection Ht' as <-. cbn.
    split; [reflexivity|]. split; [reflexivity | auto].
  - destruct (one_minute_warning_sound self t
                (Dt.total_seconds (TaskObject.end_time t - now)) w Hw Ht)
      as (w1 & Hrun & Hw1 & Hself & Hviews & Hact).
    unfold mbind at 1, M_bind at 1 in Hb.
    unfold mbind at 1, M_bind at 1 in Hb. rewrite Hrun in Hb.
    destruct (Py.le_int _ 0).
    + destruct (time_is_up_sound self t v w1 Hw1 Hself) as (w2 & Hup & Hw2).
      { now rewrite Hviews. }
      unfold mbind at 1, M_bind at 1 in Hb. rewrite Hup in Hb.
      cbn [mret M_ret] in Hb. injection Hb as <- <-.
      split; [exact Hw2 | discriminate].
    + cbn [mret M_ret] in Hb.
      unfold mbind at 1, M_bind at 1, lookup_timer at 1 in Hb.
      rewrite Hact, Hd, Hp in Hb. cbn [mret M_ret] in Hb.
      injection Hb as <- <-. split; [exact Hw1 | discriminate].
Qed.

Lemma sound_perform e w :
  sound w -> tasks_registered w -> sound (fst (perform e w)).
Proof.
  intros Hw Hreg.
  destruct e as [i duration user now | self message now | self
                | self now found | self now | self now]; cbn [perform].
  - now apply sound_time.
  - now apply sound_pause_button.
  - now apply sound_end_button.
  - now apply sound_update_embed.
  - now apply sound_begin.
  - now apply sound_round.
Qed.

Lemma sound_run es w :
  sound w -> tasks_registered w -> sound (run es w).
Proof.
  revert w; induction es as [|e es IH]; intros w Hw Hreg; [exact Hw|].
  cbn [run fold_left]. apply IH.
  - now apply sound_perform.
  - now apply registered_perform.
Qed.

Lemma sound_reached es : sound (run es initial_world).
Proof. apply sound_run; [apply sound_initial | apply registered_initial]. Qed.

(** ** The End button in a run *)

Lemma cancel_kills self w t :
  tasks (fst (cancel self w)) !! self = Some t ->
  alive (TaskObject.status t) = false.
Proof.
  unfold cancel. destruct (tasks w !! self) as [x|] eqn:Hx.
  - destruct (TaskObject.status x) eqn:Hs; cbn [fst set_tasks tasks];
      rewrite ?lookup_insert_eq, ?Hx; intros [= <-]; cbn;
      rewrite ?Hs; reflexivity.
  - cbn. rewrite Hx. discriminate.
Qed.

Lemma stop_timer_kills self v d w t :
  views w !! self = Some v ->
  active_timers w !! ViewObject.timer_id v = Some d ->
  tasks (fst (TimerView.stop_timer self w)) !! task d = Some t ->
  alive (TaskObject.status t) = false.
Proof.
  intros Hv Hd. unfold TimerView.stop_timer, mbind, M_bind, get_view, get.
  rewrite Hv, Hd. pose proof (cancel_kills (task d) w t) as Hk.
  destruct (cancel (task d) w) as [w' [[]|e]]; cbn in *; exact Hk.
Qed.

(** X6.  [stop_timer], the one step of the End button, of a refresh
    whose message is gone and of an expiry that touches the registry:
    on any view, in any state, it returns; the key of the view is
    taken out of the registry and nothing else is; the task that the
    registry held under the key can no longer run, and every other
    task is as it was; no view is written and nothing is sent. *)
Theorem stop_timer_stops (w : world) (self : nat) (v : ViewObject.t) :
  let r := TimerView.stop_timer self w in
  views w !! self = Some v ->
  snd r = Ret tt
  /\ active_timers (fst r)
     = delete (ViewObject.timer_id v) (active_timers w)
  /\ views (fst r) = views w
  /\ sent (fst r) = sent w
  /\ (forall d t,
        active_timers w !! ViewObject.timer_id v = Some d ->
        tasks (fst r) !! task d = Some t ->
        alive (TaskObject.status t) = false)
  /\ (forall k,
        (forall d, active_timers w !! ViewObject.timer_id v = Some d ->
                   k <> task d) ->
        tasks (fst r) !! k = tasks w !! k).
Proof.
  intros r Hv. subst r.
  destruct (active_timers w !! ViewObject.timer_id v) as [d|] eqn:Hd.
  - pose proof (stop_timer_kills self v d w) as Hkill.
    unfold TimerView.stop_timer, mbind, M_bind, get_view, get in *.
    rewrite Hv, Hd in *.
    assert (Hc : exists w0, cancel (task d) w = (w0, Ret tt)
                   /\ active_timers w0 = active_timers w
                   /\ views w0 = views w /\ sent w0 = sent w
                   /\ forall k, k <> task d ->
                                tasks w0 !! k = tasks w !! k).
    { unfold cancel. destruct (tasks w !! task d) as [x|]; [|eauto 8].
      destruct (TaskObject.status x); cbn; eauto 8;
        (eexists; split; [reflexivity|]; repeat split;
         intros k Hk; cbn; now rewrite lookup_insert_ne). }
    destruct Hc as (w0 & Hc & Ha & Hvs & Hs & Ht). rewrite Hc in *.
    cbn [fst snd set_active_timers active_timers views sent tasks] in *.
    rewrite Ha. repeat split; try assumption.
    + intros d' t [= <-]. apply Hkill; reflexivity.
    + intros k Hk. apply Ht, Hk. reflexivity.
  - unfold TimerView.stop_timer, mbind, M_bind, get_view, get.
    rewrite Hv, Hd. cbn [fst snd mret M_ret].
    rewrite delete_id by exact Hd.
    repeat split; intros; discriminate.
Qed.

Lemma stop_timer_stops_witness :
  let w := run [TimeCommand someone "90s" None 0] initial_world in
  let r := TimerView.stop_timer 0 w in
  active_timers (fst r) = ∅
  /\ (TaskObject.status <$> tasks (fst r) !! 0%nat)
     = Some TaskObject.Cancelled.
Proof.
  intros w r.
  destruct (stop_timer_stops w 0 (started_view someone 3 90 0 (Some 0%nat)))
    as (_ & Ha & _).
  - vm_compute. reflexivity.
  - subst r. split; [rewrite Ha|]; vm_compute; reflexivity.
Defined.

(** ** One pass of the loop that refreshes the messages *)

Lemma still_over_refl w : still_over w w.
Proof. intros k. destruct (tasks w !! k) as [t|] eqn:Ht; eauto. Qed.

Lemma still_over_trans w1 w2 w3 :
  still_over w1 w2 -> still_over w2 w3 -> still_over w1 w3.
Proof.
  intros H12 H23 k. specialize (H12 k). specialize (H23 k).
  destruct (tasks w1 !! k) as [t|].
  - intros Hd. destruct (H12 Hd) as (t' & Ht' & Hd').
    rewrite Ht' in H23. now apply H23.
  - now rewrite H12 in H23.
Qed.

Lemma still_over_cancel self w : still_over w (fst (cancel self w)).
Proof.
  intros k. unfold cancel.
  destruct (tasks w !! self) as [x|] eqn:Hx;
    [|cbn [fst]; destruct (tasks w !! k); eauto].
  destruct (decide (self = k)) as [<-|Hne].
  - rewrite Hx. intros Hd.
    destruct (TaskObject.status x) eqn:Hs; try discriminate Hd;
      cbn [fst]; rewrite Hx; exists x; rewrite Hs; auto.
  - destruct (TaskObject.status x); cbn [fst set_tasks tasks];
      rewrite ?lookup_insert_ne by exact Hne;
      destruct (tasks w !! k); eauto.
Qed.

Lemma stop_timer_registered self v d w :
  views w !! self = Some v ->
  active_timers w !! ViewObject.timer_id v = Some d ->
  exists w1,
    TimerView.stop_timer self w = (w1, Ret tt)
    /\ active_timers w1 = delete (ViewObject.timer_id v) (active_timers w)
    /\ views w1 = views w /\ sent w1 = sent w
    /\ still_over w w1
    /\ forall t, tasks w1 !! task d = Some t ->
                 alive (TaskObject.status t) = false.
Proof.
  intros Hv Hd.
  pose proof (stop_timer_kills self v d w) as Hkill.
  unfold TimerView.stop_timer, mbind, M_bind, get_view, get in *.
  rewrite Hv, Hd in *.
  pose proof (still_over_cancel (task d) w) as Hover.
  assert (Hc : exists w0, cancel (task d) w = (w0, Ret tt)
                 /\ active_timers w0 = active_timers w
                 /\ views w0 = views w /\ sent w0 = sent w).
  { unfold cancel. destruct (tasks w !! task d) as [x|]; [|eauto 6].
    destruct (TaskObject.status x); cbn; eauto 6. }
  destruct Hc as (w0 & Hc & Ha & Hvs & Hs). rewrite Hc in *.
  cbn [fst snd set_active_timers active_timers views sent tasks] in *.
  eexists. split; [reflexivity|]. cbn [active_timers views sent tasks].
  rewrite Ha. repeat split; try assumption.
  intros t Ht. now apply Hkill.
Qed.

(** What one refresh does, once the embed is made. *)
Lemma update_embed_run self now found v m w :
  views w !! self = Some v ->
  ViewObject.message v = Some m ->
  snd (TimerView.update_embed self now found w) = Ret tt ->
  exists embed,
    TimerView.update_embed self now found w
    = if found then emit (EditEmbed m embed) w
      else TimerView.stop_timer self w.
Proof.
  intros Hv Hm. unfold TimerView.update_embed, mbind, M_bind, get_view.
  rewrite Hv, Hm. destruct (TimerView.shown v now) as [[r s] c].
  unfold lift. destruct (TimerView.create_timer_embed v r s c) as [embed|e];
    [|intros H; discriminate H].
  intros _. exists embed. now destruct found.
Qed.

Lemma loop_ret now found id d rest w :
  snd (timer_update_loop now found ((id, d) :: rest) w) = Ret tt ->
  snd (TimerView.update_embed (view d) (now id) (found id) w) = Ret tt
  /\ timer_update_loop now found ((id, d) :: rest) w
     = timer_update_loop now found rest
         (fst (TimerView.update_embed (view d) (now id) (found id) w)).
Proof.
  cbn [timer_update_loop]. unfold mbind, M_bind.
  destruct (TimerView.update_embed _ _ _ w) as [w1 [[]|e]];
    [|intros H; discriminate H].
  intros _. split; reflexivity.
Qed.

Lemma timer_update_loop_spec now found items w :
  sound w ->
  NoDup (fst <$> items) ->
  (forall id d, (id, d) ∈ items -> active_timers w !! id = Some d) ->
  snd (timer_update_loop now found items w) = Ret tt ->
  let w' := fst (timer_update_loop now found items w) in
  (forall id,
     active_timers w' !! id
     = if bool_decide (id ∈ fst <$> items) && negb (found id)
       then None else active_timers w !! id)
  /\ views w' = views w
  /\ still_over w w'
  /\ (forall id d t,
        (id, d) ∈ items -> found id = false ->
        tasks w' !! task d = Some t ->
        alive (TaskObject.status t) = false)
  /\ exists new,
       sent w' = new ++ sent w
       /\ edited <$> rev new
          = message_of w <$> filter (fun it => found (fst it) = true) items.
Proof.
  revert w. induction items as [|[id d] rest IH]; intros w Hw Hnd Hin Hret w'.
  { subst w'. cbn. split; [reflexivity|]. split; [reflexivity|].
    split; [apply still_over_refl|]. split.
    - intros id d t Hx. now apply elem_of_nil in Hx.
    - now exists []. }
  pose proof Hret as Hret0. apply loop_ret in Hret0 as [Hret1 Heq].
  subst w'. rewrite Heq in *. clear Heq.
  rewrite fmap_cons in Hnd. apply NoDup_cons in Hnd as [Hfresh Hnd].
  cbn [fst] in Hfresh.
  assert (Hd : active_timers w !! id = Some d)
    by (apply Hin; now left).
  pose proof Hw as (Hnv & Hnt & Hmsg & Hreg & Hrest).
  destruct (Hreg id d Hd) as (v & Hv & Hid).
  destruct (Hmsg _ v Hv) as [m Hm].
  pose proof (sound_update_embed (view d) (now id) (found id) w Hw) as Hw1.
  destruct (update_embed_run _ _ _ v m w Hv Hm Hret1) as [embed Hrun].
  rewrite Hrun in *. clear Hrun Hret1.
  assert (Hmo : message_of w (id, d) = Some m).
  { unfold message_of. cbn [snd]. rewrite Hv. exact Hm. }
  destruct (found id) eqn:Hf.
  - (* the message is there: one edit *)
    set (w1 := fst (emit (EditEmbed m embed) w)) in *.
    specialize (IH w1 Hw1 Hnd).
    destruct IH as (Ha & Hvs & Hover & Hdead & new & Hnew & Hed).
    { intros id' d' Hx. apply Hin. now right. }
    { exact Hret. }
    split; [|split; [exact Hvs|split; [exact Hover|split]]].
    + intros id'. rewrite Ha, fmap_cons. cbn [fst].
      destruct (decide (id' = id)) as [->|Hne].
      * rewrite Hf. cbn [negb]. rewrite !andb_false_r. reflexivity.
      * rewrite (bool_decide_ext (id' ∈ id :: (fst <$> rest))
                   (id' ∈ fst <$> rest)); [reflexivity|].
        rewrite elem_of_cons. tauto.
    + intros id' d' t Hx Hf'. apply elem_of_cons in Hx as [[= -> ->]|Hx];
        [congruence|]. now apply (Hdead id' d' t).
    + exists (new ++ [EditEmbed m embed]). split.
      * rewrite Hnew. cbn [w1 fst emit sent]. now rewrite <- app_assoc.
      * rewrite rev_app_distr. cbn [rev app fmap list_fmap edited].
        rewrite filter_cons_True by exact Hf.
        cbn [fmap list_fmap]. rewrite Hmo. f_equal.
        rewrite Hed. apply list_fmap_ext. intros i [id' d'] _.
        reflexivity.
  - (* the message is gone: the timer is stopped *)
    rewrite <- Hid in Hd.
    destruct (stop_timer_registered (view d) v d w Hv Hd)
      as (w1 & Hstop & Hact & Hviews & Hsent & Hover1 & Hkill).
    rewrite Hstop in *. cbn [fst] in *. rewrite Hid in *.
    specialize (IH w1 Hw1 Hnd).
    destruct IH as (Ha & Hvs & Hover & Hdead & new & Hnew & Hed).
    { intros id' d' Hx. rewrite Hact.
      rewrite lookup_delete_ne; [apply Hin; now right|].
      intros Heq. apply Hfresh.
      apply (list_elem_of_fmap_2' fst rest (id', d')); [exact Hx|].
      cbn [fst]. congruence. }
    { exact Hret. }
    split; [|split; [congruence|split;
               [eapply still_over_trans; eassumption|split]]].
    + intros id'. rewrite Ha, Hact, fmap_cons. cbn [fst].
      destruct (decide (id' = id)) as [->|Hne].
      * rewrite Hf, lookup_delete_eq. cbn [negb].
        rewrite (bool_decide_eq_true_2 (id ∈ id :: (fst <$> rest)))
          by (now left).
        now destruct (bool_decide _).
      * rewrite lookup_delete_ne by congruence.
        rewrite (bool_decide_ext (id' ∈ id :: (fst <$> rest))
                   (id' ∈ fst <$> rest)); [reflexivity|].
        rewrite elem_of_cons. tauto.
    + intros id' d' t Hx Hf'. apply elem_of_cons in Hx as [[= -> ->]|Hx];
        [|now apply (Hdead id' d' t)].
      intros Ht. specialize (Hover (task d)).
      destruct (tasks w1 !! task d) as [t1|] eqn:Ht1.
      * destruct (Hover (Hkill t1 eq_refl)) as (t' & Ht' & Hdead').
        congruence.
      * congruence.
    + exists new. split; [now rewrite Hnew, Hsent|].
      rewrite filter_cons_False by (cbn [fst]; rewrite Hf; discriminate).
      rewrite Hed. apply list_fmap_ext. intros i [id' d'] _.
      unfold message_of. now rewrite Hviews.
Qed.

(** X7.  One pass of [timer_update_loop] over a copy of the registry,
    in any order, that no other handler interrupts between two of its
    refreshes, when it returns: the timers whose message is gone are no
    longer registered and their tasks can no longer run, the others are
    registered as before; no view is written; and the messages that are
    there were edited once each, in the order of the copy, and nothing
    else was sent. *)
Theorem timer_update_loop_pass (es : list event) (now : string -> Z)
    (found : string -> bool) (items : list (string * timer_data)) :
  let w := run es initial_world in
  let r := timer_update_loop now found items w in
  items ≡ₚ map_to_list (active_timers w) ->
  snd r = Ret tt ->
  (forall id,
     active_timers (fst r) !! id
     = if found id then active_timers w !! id else None)
  /\ views (fst r) = views w
  /\ (forall id d t,
        active_timers w !! id = Some d -> found id = false ->
        tasks (fst r) !! task d = Some t ->
        alive (TaskObject.status t) = false)
  /\ exists new,
       sent (fst r) = new ++ sent w
       /\ edited <$> rev new
          = message_of w <$> filter (fun it => found (fst it) = true) items.
Proof.
  intros w r Hperm Hret. subst r.
  assert (Hmem : forall id d,
            (id, d) ∈ items <-> active_timers w !! id = Some d).
  { intros id d. rewrite Hperm. apply elem_of_map_to_list. }
  assert (Hnd : NoDup (fst <$> items)).
  { rewrite Hperm. apply NoDup_fst_map_to_list. }
  destruct (timer_update_loop_spec now found items w (sound_reached es) Hnd)
    as (Ha & Hvs & _ & Hdead & Hnew).
  { intros id d. apply Hmem. }
  { exact Hret. }
  split; [|split; [exact Hvs|split; [|exact Hnew]]].
  - intros id. rewrite Ha. destruct (found id); cbn [negb].
    + now rewrite andb_false_r.
    + rewrite andb_true_r. destruct (bool_decide_reflect (id ∈ fst <$> items))
        as [Hin|Hout]; [reflexivity|].
      destruct (active_timers w !! id) as [d|] eqn:Hd; [|reflexivity].
      exfalso. apply Hout.
      apply (list_elem_of_fmap_2' fst items (id, d)); [|reflexivity].
      now apply Hmem.
  - intros id d t Hd. apply Hdead. now apply Hmem.
Qed.

Lemma timer_update_loop_pass_witness :
  let w := run [TimeCommand someone "90s" None 0] initial_world in
  let r := timer_update_loop (fun _ => 10000000) (fun _ => false)
             [("1-2-3"%string, {| task := 0; view := 0; paused := false |})]
             w in
  active_timers (fst r) !! "1-2-3"%string = None.
Proof.
  intros w r.
  destruct (timer_update_loop_pass [TimeCommand someone "90s" None 0]
              (fun _ => 10000000) (fun _ => false)
              [("1-2-3"%string, {| task := 0; view := 0; paused := false |})])
    as (Ha & _).
  - vm_compute. reflexivity.
  - vm_compute. reflexivity.
  - exact (Ha "1-2-3"%string).
Defined.
